(** * term_app_pack: a shallow embedding of the toolkit's core and its properties

    The development follows the three source files:
    - [utils.py]: [trim], [SequencePointer], the [Ctrl] key table;
    - [termutils.py]: [TermInReader] (the input recorder) and [LineBuffer];
    - [apps.py]: the [FuzzyFinder] viewport and its matcher.

    Python values are modelled as follows.  An [int] is a [Z].  A [str] is a
    list of code points ([N]); [len] is the length as a [Z]; slices and
    indexing follow Python (negative indices count from the end, slices
    clamp, indexing out of range raises).  A [float] is an IEEE 754 binary64
    value of [SpecFloat] with round-to-nearest-even, which is what CPython
    computes with.  Exceptions are explicit outcomes. *)

From Stdlib Require Import ZArith NArith List Bool Lia String Ascii.
From Stdlib Require Import DecimalString.
From Stdlib Require Import Floats.SpecFloat.
From stdpp Require Import base option list gmap.

Local Open Scope Z_scope.

(* ===================================================================== *)
(** * Python built-ins used by the sources                                *)
(* ===================================================================== *)

Module Py.

(** A character is its code point, a string a list of characters. *)
Abbreviation char := N (only parsing).
Abbreviation str := (list N) (only parsing).

(** String literals of the development are written with Rocq strings. *)
Definition lit (s : string) : str := map N_of_ascii (list_ascii_of_string s).

(** [len(s)] *)
Definition len {A : Type} (s : list A) : Z := Z.of_nat (length s).

(** [str(n)] for an [int], as ['{n}'] in a format string has it. *)
Definition str_of_int (n : Z) : str :=
  lit (NilZero.string_of_int (Z.to_int n)).

(** How a slice bound is read: a negative bound counts from the end, and
    the result is clamped to [0, len]. *)
Definition slice_bound (n i : Z) : Z :=
  if i <? 0 then Z.max 0 (i + n) else Z.min i n.

(** [s[:stop]] *)
Definition slice_to {A : Type} (s : list A) (stop : Z) : list A :=
  firstn (Z.to_nat (slice_bound (len s) stop)) s.

(** [s[start:]] *)
Definition slice_from {A : Type} (s : list A) (start : Z) : list A :=
  skipn (Z.to_nat (slice_bound (len s) start)) s.

(** [s[start:stop]] *)
Definition slice {A : Type} (s : list A) (start stop : Z) : list A :=
  let a := slice_bound (len s) start in
  let b := slice_bound (len s) stop in
  firstn (Z.to_nat (b - a)) (skipn (Z.to_nat a) s).

(** [s[i]]: [None] stands for [IndexError]. *)
Definition getitem {A : Type} (s : list A) (i : Z) : option A :=
  let j := if i <? 0 then i + len s else i in
  if (0 <=? j) && (j <? len s) then nth_error s (Z.to_nat j) else None.

Definition str_eqb (a b : str) : bool := bool_decide (a = b).

(** [s.startswith(sub)] *)
Fixpoint startswith (s sub : str) : bool :=
  match sub, s with
  | [], _ => true
  | _ :: _, [] => false
  | c :: sub', d :: s' => (c =? d)%N && startswith s' sub'
  end.

(** The search of [s.find(sub, start)] once [start] is resolved: the
    lowest index [i], counted from [i0], at which [sub] occurs. *)
Fixpoint find_at (s sub : str) (i0 : Z) : Z :=
  if startswith s sub then i0
  else match s with
       | [] => -1
       | _ :: s' => find_at s' sub (i0 + 1)
       end.

(** [s.find(sub, start)] *)
Definition find (s sub : str) (start : Z) : Z :=
  let a := if start <? 0 then Z.max 0 (start + len s) else start in
  if len s <? a then -1 else find_at (skipn (Z.to_nat a) s) sub a.

(** [s.count(sub)]: occurrences that do not overlap, left to right.  The
    fuel is the number of positions left to look at. *)
Fixpoint count_from (fuel : nat) (s sub : str) : Z :=
  match fuel with
  | O => if startswith s sub then 1 else 0
  | S fuel' =>
      if startswith s sub
      then match sub with
           | [] => match s with
                   | [] => 1
                   | _ :: s' => 1 + count_from fuel' s' sub
                   end
           | _ :: _ => 1 + count_from fuel' (skipn (length sub) s) sub
           end
      else match s with
           | [] => 0
           | _ :: s' => count_from fuel' s' sub
           end
  end.

Definition count (s sub : str) : Z := count_from (length s) s sub.

(** [c.isspace()] for one character: CPython's table of white space
    (bidirectional type WS, B or S, or category Zs). *)
Definition isspace_char (c : char) : bool :=
  ((9 <=? c) && (c <=? 13) || (28 <=? c) && (c <=? 32)
   || (c =? 133) || (c =? 160) || (c =? 5760)
   || (8192 <=? c) && (c <=? 8202)
   || (c =? 8232) || (c =? 8233) || (c =? 8239) || (c =? 8287)
   || (c =? 12288))%N.

(** [s.isspace()]: at least one character, and all of them white space. *)
Definition isspace (s : str) : bool :=
  match s with
  | [] => false
  | _ => forallb isspace_char s
  end.

(** ['\t'.expandtabs(tabsize)]: from column 0 a tab becomes [tabsize]
    spaces, and nothing when [tabsize] is not positive. *)
Definition tab_expandtabs (tabsize : Z) : str :=
  if 0 <? tabsize then repeat 32%N (Z.to_nat tabsize) else [].

(** Exceptions that the modelled code raises or handles. *)
Inductive exn : Type :=
| IndexError
| TypeError (msg : string)
| SystemExit (code : Z)
| KeyboardInterrupt
| ZeroDivisionError.

End Py.

Import Py.

(* ===================================================================== *)
(** * utils.py                                                            *)
(* ===================================================================== *)

(** [trim(string, precision, rstart)] *)
Definition trim (string : str) (precision : Z) (rstart : Z) : str :=
  if (3 <=? precision) && (precision <=? len string)
  then slice_to string (precision - rstart - 3)
         ++ lit "..." ++ slice_from string (len string - rstart)
  else string.

Module SequencePointer.

(** The list itself, the pointer and the cycle flag. *)
Record t (T : Type) : Type := mk {
  seq : list T;
  _pointer : Z;
  __cycle : bool
}.
Arguments mk {T} _ _ _.
Arguments seq {T} _.
Arguments _pointer {T} _.
Arguments __cycle {T} _.

Definition with_pointer {T} (self : t T) (p : Z) : t T :=
  mk (seq self) p (__cycle self).

(** [SequencePointer(sequence, cycle)] *)
Definition __init__ {T} (sequence : list T) (cycle : bool) : t T :=
  mk sequence 0 cycle.

(** [next(n)]; the value returned is the new pointer. *)
Definition next {T} (self : t T) (n : Z) : t T :=
  let _next := _pointer self + n in
  let _len := len (seq self) in
  if _next + 1 >? _len
  then with_pointer self (if __cycle self then _next - _len else _len - 1)
  else with_pointer self _next.

(** [previous(n)]; the value returned is the new pointer. *)
Definition previous {T} (self : t T) (n : Z) : t T :=
  let _prev := _pointer self - n in
  let _len := len (seq self) in
  if _prev <? 0
  then with_pointer self (if __cycle self then _len + _prev else 0)
  else with_pointer self _prev.

(** [at_end] *)
Definition at_end {T} (self : t T) : bool :=
  negb (__cycle self) && (_pointer self =? len (seq self) - 1).

(** The getter and the setter of [pointer]. *)
Definition pointer {T} (self : t T) : Z := _pointer self.

Definition set_pointer {T} (self : t T) (new_position : Z) : t T :=
  with_pointer self
    (if new_position <? len (seq self) then new_position
     else len (seq self) - 1).

End SequencePointer.

(** The [Ctrl] enumeration: every member carries the set of raw input
    sequences that decode to it, and [member == s] on a string [s] is
    membership of [s] in that set. *)
Module Ctrl.

Inductive t : Type :=
| ESC | ENTER | TAB | SPACE | INSERT | DEL | CTRL_DEL | BACKSPACE | CTRL_BS
| L_ARROW | R_ARROW | U_ARROW | D_ARROW
| OPT_LARROW | OPT_RARROW | CTRL_LARROW | CTRL_RARROW
| HOME | END | PG_UP | PG_DOWN
| CTRL_A | CTRL_B | CTRL_C | CTRL_D | CTRL_E | CTRL_F | CTRL_G | CTRL_H
| CTRL_I | CTRL_J | CTRL_K | CTRL_L | CTRL_M | CTRL_N | CTRL_O | CTRL_P
| CTRL_Q | CTRL_R | CTRL_S | CTRL_T | CTRL_U | CTRL_V | CTRL_W | CTRL_X
| CTRL_Y | CTRL_Z
| F1 | F2 | F3 | F4 | F5 | F6 | F7 | F8 | F9 | F10 | F11 | F12
| FUNCTION | ARROW | NAV | CTRL.

(** ['\x1b...'], ['\xe0...'] and ['\x00...'] *)
Definition esc (s : string) : str := 27%N :: lit s.
Definition xe0 (s : string) : str := 224%N :: lit s.
Definition x00 (s : string) : str := 0%N :: lit s.

Fixpoint codes_of (fuel : nat) (m : t) : list str :=
  let join := flat_map (match fuel with
                        | O => fun _ => []
                        | S fuel' => codes_of fuel'
                        end) in
  match m with
  | ESC => [[27%N]]
  | ENTER => [[13%N]; [10%N]; esc "OM"]
  | TAB => [[9%N]; esc "OI"]
  | SPACE => [lit " "; esc "O "]
  | INSERT => [esc "[2~"]
  | DEL => [[46%N]; esc "[3~"; x00 "S"; xe0 "S"]
  | CTRL_DEL => [[224%N; 147%N]; [0%N; 147%N]]
  | BACKSPACE => [[127%N]; [8%N]]
  | CTRL_BS => [[23%N]]
  | L_ARROW => [esc "[D"; xe0 "K"; esc "OD"; x00 "K"]
  | R_ARROW => [esc "[C"; xe0 "M"; esc "OC"; x00 "M"]
  | U_ARROW => [esc "[A"; xe0 "H"; esc "OA"; x00 "H"]
  | D_ARROW => [esc "[B"; xe0 "P"; esc "OB"; x00 "P"]
  | OPT_LARROW => [esc "b"]
  | OPT_RARROW => [esc "f"]
  | CTRL_LARROW => [xe0 "s"; x00 "s"]
  | CTRL_RARROW => [xe0 "t"; x00 "t"]
  | HOME => [esc "[H"; xe0 "G"; esc "OH"; esc "[1~"; x00 "G"]
  | END => [esc "[F"; xe0 "O"; esc "OF"; esc "[4~"; x00 "O"]
  | PG_UP => [xe0 "I"; esc "[5~"; x00 "I"]
  | PG_DOWN => [xe0 "Q"; esc "[6~"; x00 "Q"]
  | CTRL_A => [[1%N]] | CTRL_B => [[2%N]] | CTRL_C => [[3%N]]
  | CTRL_D => [[4%N]] | CTRL_E => [[5%N]] | CTRL_F => [[6%N]]
  | CTRL_G => [[7%N]] | CTRL_H => [[8%N]] | CTRL_I => [[9%N]]
  | CTRL_J => [[10%N]] | CTRL_K => [[11%N]] | CTRL_L => [[12%N]]
  | CTRL_M => [[13%N]] | CTRL_N => [[14%N]] | CTRL_O => [[15%N]]
  | CTRL_P => [[16%N]] | CTRL_Q => [[17%N]] | CTRL_R => [[18%N]]
  | CTRL_S => [[19%N]] | CTRL_T => [[20%N]] | CTRL_U => [[21%N]]
  | CTRL_V => [[22%N]] | CTRL_W => [[23%N]] | CTRL_X => [[24%N]]
  | CTRL_Y => [[25%N]] | CTRL_Z => [[26%N]]
  | F1 => [esc "OP"; x00 ";"]
  | F2 => [esc "OQ"; x00 "<"]
  | F3 => [esc "OR"; x00 "="]
  | F4 => [esc "OS"; x00 ">"]
  | F5 => [esc "[15~"] | F6 => [esc "[17~"] | F7 => [esc "[18~"]
  | F8 => [esc "[19~"] | F9 => [esc "[20~"] | F10 => [esc "[21~"]
  | F11 => [esc "[23~"] | F12 => [esc "[24~"]
  | FUNCTION => join [F1; F2; F3; F4; F5; F6; F7; F8; F9; F10; F11; F12]
  | ARROW => join [U_ARROW; D_ARROW; R_ARROW; L_ARROW]
  | NAV => join [ARROW; HOME; END; PG_UP; PG_DOWN]
  | CTRL => join [CTRL_A; CTRL_B; CTRL_C; CTRL_D; CTRL_E; CTRL_F; CTRL_G;
                  CTRL_H; CTRL_I; CTRL_J; CTRL_K; CTRL_L; CTRL_M; CTRL_N;
                  CTRL_O; CTRL_P; CTRL_Q; CTRL_R; CTRL_S; CTRL_T; CTRL_U;
                  CTRL_V; CTRL_W; CTRL_X; CTRL_Y; CTRL_Z]
  end.

(** [_join] nests at most twice ([NAV] holds [ARROW]). *)
Definition codes (m : t) : list str := codes_of 2 m.

(** [other == member] and [other != member] for a string [other] *)
Definition eq (other : str) (m : t) : bool :=
  existsb (str_eqb other) (codes m).

Definition ne (other : str) (m : t) : bool := negb (eq other m).

End Ctrl.

(* ===================================================================== *)
(** * Outcomes of effectful code                                          *)
(* ===================================================================== *)

(** A call on a state of type [S] returns a value, raises, or (for the
    read loop) is still waiting for input when the input of the model is
    used up. *)
Inductive outcome (S A : Type) : Type :=
| Ret (v : A) (s : S)
| Raise (e : exn) (s : S)
| Pending (s : S).
Arguments Ret {S A} _ _.
Arguments Raise {S A} _ _.
Arguments Pending {S A} _.

Definition M (S A : Type) : Type := S -> outcome S A.

Definition ret {S A} (v : A) : M S A := fun s => Ret v s.

Definition raise {S A} (e : exn) : M S A := fun s => Raise e s.

Definition bind {S A B} (m : M S A) (k : A -> M S B) : M S B :=
  fun s => match m s with
           | Ret v s' => k v s'
           | Raise e s' => Raise e s'
           | Pending s' => Pending s'
           end.

Definition get {S} : M S S := fun s => Ret s s.
Definition modify {S} (f : S -> S) : M S unit := fun s => Ret tt (f s).

(** [try: body finally: handler]: the handler runs on return and on raise;
    an exception of the handler replaces the pending one. *)
Definition try_finally {S A} (body : M S A) (handler : M S unit) : M S A :=
  fun s => match body s with
           | Ret v s' => match handler s' with
                         | Ret _ s'' => Ret v s''
                         | Raise e s'' => Raise e s''
                         | Pending s'' => Pending s''
                         end
           | Raise e s' => match handler s' with
                           | Ret _ s'' => Raise e s''
                           | Raise e' s'' => Raise e' s''
                           | Pending s'' => Pending s''
                           end
           | Pending s' => Pending s'
           end.

(** [try: body except <caught>: pass] *)
Definition try_except_pass {S} (caught : exn -> bool) (body : M S unit)
  : M S unit :=
  fun s => match body s with
           | Raise e s' => if caught e then Ret tt s' else Raise e s'
           | r => r
           end.

Declare Scope py_scope.
Delimit Scope py_scope with py.
Notation "'let*' x ':=' m 'in' k" := (bind m (fun x => k))
  (at level 10, x name, m at level 100, k at level 200) : py_scope.

(* ===================================================================== *)
(** * termutils.py: LineBuffer                                            *)
(* ===================================================================== *)

Module LineBuffer.

Record t : Type := mk {
  _local_history : list str;
  _line : str;
  _pos : Z;
  _history_pos : Z;
  _prompt : str;
  __send_with_enter : bool;
  __cursor_movement : bool;
  __use_history : bool;
  __tabsize : Z
}.

Definition set_history (h : list str) (self : t) : t :=
  mk h (_line self) (_pos self) (_history_pos self) (_prompt self)
     (__send_with_enter self) (__cursor_movement self) (__use_history self)
     (__tabsize self).

Definition set_line (l : str) (self : t) : t :=
  mk (_local_history self) l (_pos self) (_history_pos self) (_prompt self)
     (__send_with_enter self) (__cursor_movement self) (__use_history self)
     (__tabsize self).

Definition set_pos (p : Z) (self : t) : t :=
  mk (_local_history self) (_line self) p (_history_pos self) (_prompt self)
     (__send_with_enter self) (__cursor_movement self) (__use_history self)
     (__tabsize self).

Definition set_history_pos (p : Z) (self : t) : t :=
  mk (_local_history self) (_line self) (_pos self) p (_prompt self)
     (__send_with_enter self) (__cursor_movement self) (__use_history self)
     (__tabsize self).

Definition set_prompt_field (p : str) (self : t) : t :=
  mk (_local_history self) (_line self) (_pos self) (_history_pos self) p
     (__send_with_enter self) (__cursor_movement self) (__use_history self)
     (__tabsize self).

(** [reset()] *)
Definition reset (self : t) : t :=
  set_prompt_field [] (set_history_pos 0 (set_pos 0 (set_line [] self))).

(** [LineBuffer(send_with_enter=, cursor_movement=, use_history=, tabsize=)] *)
Definition __init__ (send_with_enter cursor_movement use_history : bool)
    (tabsize : Z) : t :=
  mk [] [] 0 0 [] send_with_enter cursor_movement use_history tabsize.

(** The properties [pos], [prompt] and [line], and the setter of
    [prompt]. *)
Definition pos (self : t) : Z := _pos self + 1.
Definition prompt (self : t) : str := _prompt self.
Definition line (self : t) : str := _line self.

Definition set_prompt (_prompt' : str) (self : t) : t :=
  let offset := _pos self - len (_prompt self) in
  set_prompt_field _prompt' (set_pos (len _prompt' + offset) self).

(** [set_placeholder(placeholder)] *)
Definition set_placeholder (placeholder : str) (self : t) : t :=
  match _line self with
  | [] => set_pos (len (_prompt self ++ placeholder))
            (set_line placeholder self)
  | _ => self
  end.

(** [cursor_left(n)] and [cursor_right(n)] return whether the cursor
    could move. *)
Definition cursor_left (n : Z) (self : t) : bool * t :=
  let offset := _pos self - len (_prompt self) in
  if offset >? 0
  then (true, set_pos (_pos self - Z.min n offset) self)
  else (false, self).

Definition cursor_right (n : Z) (self : t) : bool * t :=
  let offset := len (_prompt self ++ _line self) - _pos self in
  if offset >? 0
  then (true, set_pos (_pos self + Z.min n offset) self)
  else (false, self).

(** [history[i]] and [history.pop()] on the history list. *)
Definition history_getitem (i : Z) : M t str :=
  fun self => match getitem (_local_history self) i with
              | Some l => Ret l self
              | None => Raise IndexError self
              end.

Definition history_pop : M t str :=
  fun self => match last (_local_history self) with
              | Some l => Ret l (set_history
                                   (removelast (_local_history self)) self)
              | None => Raise IndexError self
              end.

Definition history_append (l : str) : M t unit :=
  modify (fun self => set_history (_local_history self ++ [l]) self).

Local Open Scope py_scope.

(** [history_up()] *)
Definition history_up : M t unit :=
  let* self := get in
  if (_history_pos self =? 0)
     || (_history_pos self <? len (_local_history self) - 1)
  then
    let* _ := (if _history_pos self =? 0
               then history_append (_line self) else ret tt) in
    let* _ := modify (fun s => set_history_pos (_history_pos s + 1) s) in
    let* s := get in
    let* l := history_getitem (- _history_pos s - 1) in
    let* _ := modify (set_line l) in
    modify (fun s => set_pos (len (_line s) + len (_prompt s)) s)
  else ret tt.

(** [history_down()] *)
Definition history_down : M t unit :=
  let* self := get in
  if _history_pos self >? 0
  then
    let* _ := modify (fun s => set_history_pos (_history_pos s - 1) s) in
    let* s := get in
    let* l := (if _history_pos s =? 0 then history_pop
               else history_getitem (- _history_pos s - 1)) in
    let* _ := modify (set_line l) in
    modify (fun s => set_pos (len (_line s) + len (_prompt s)) s)
  else ret tt.

(** [enter_send()] *)
Definition enter_send : M t str :=
  let* self := get in
  let* _ :=
    (if match last (_local_history self) with
        | None => true
        | Some l => negb (str_eqb (_line self) l)
        end
     then
       let* _ := (if negb (_history_pos self =? 0)
                  then let* _ := history_pop in ret tt
                  else ret tt) in
       history_append (_line self)
     else ret tt) in
  let* s := get in
  let result := _line s in
  let* _ := modify (set_line []) in
  let* _ := modify (fun s => set_pos (len (_prompt s)) s) in
  ret result.

(** The test of [insert]: [char != Ctrl.ENTER and char.isspace() or
    len(char) == 1 and ord(char) not in range(0x00, 0x20)]. *)
Definition insert_accepts (char : str) : bool :=
  Ctrl.ne char Ctrl.ENTER && isspace char
  || match char with
     | [c] => negb ((0 <=? Z.of_N c) && (Z.of_N c <? 32))
     | _ => false
     end.

(** [insert(char)] *)
Definition insert (char : str) (self : t) : t :=
  if insert_accepts char
  then set_pos (_pos self + 1)
         (set_line (slice_to (_line self) (_pos self) ++ char
                      ++ slice_from (_line self) (_pos self)) self)
  else self.

Section Key.

(** The two searches of the word jumps are Python's [re.search]; each
    gives [m.end()] of the match, if any:
    [re.search(r'.*(?<!\s)(?=\s+\S+)', s)] for the jump to the left,
    [re.search(r'\s+(?=\S)', s)] for the jump to the right. *)
Variable re_search_left_end : str -> option Z.
Variable re_search_right_end : str -> option Z.

(** The cursor keys of [key], tried in the source's order. *)
Definition cursor_keys (char : str) (self : t) : t :=
  if Ctrl.eq char Ctrl.R_ARROW then snd (cursor_right 1 self)
  else if Ctrl.eq char Ctrl.L_ARROW then snd (cursor_left 1 self)
  else if Ctrl.eq char Ctrl.HOME
       then snd (cursor_left (len (_line self)) self)
  else if Ctrl.eq char Ctrl.END
       then snd (cursor_right (len (_line self)) self)
  else if Ctrl.eq char Ctrl.CTRL_LARROW || Ctrl.eq char Ctrl.OPT_LARROW
       then
         let true_pos := _pos self - len (_prompt self) in
         let substr := slice (_line self) 0 true_pos in
         let offset := match re_search_left_end substr with
                       | Some m_end => true_pos - m_end
                       | None => len (_line self)
                       end in
         snd (cursor_left offset self)
  else if Ctrl.eq char Ctrl.CTRL_RARROW || Ctrl.eq char Ctrl.OPT_RARROW
       then
         let true_pos := _pos self - len (_prompt self) in
         let offset :=
           match re_search_right_end
                   (slice_from (_line self) (true_pos + 1)) with
           | Some m_end => m_end + 1
           | None => len (_line self)
           end in
         snd (cursor_right offset self)
  else self.

(** [key(char)]: the value returned is the committed line, if any. *)
Definition key (char : str) : M t (option str) :=
  let* self := get in
  if Ctrl.eq char Ctrl.DEL || Ctrl.eq char Ctrl.BACKSPACE
  then
    let '(go, self1) :=
      if Ctrl.eq char Ctrl.DEL
         && (_pos self <? len (_prompt self ++ _line self))
      then (true, self)
      else if Ctrl.eq char Ctrl.BACKSPACE then cursor_left 1 self
           else (false, self) in
    if go
    then
      let true_pos := _pos self1 - len (_prompt self1) in
      fun _ => Ret None
        (set_line (slice_to (_line self1) true_pos
                     ++ slice_from (_line self1) (true_pos + 1)) self1)
    else fun _ => Ret None self1
  else if Ctrl.eq char Ctrl.TAB
  then
    let* _ := modify (insert (tab_expandtabs (__tabsize self))) in
    ret None
  else
    let* _ := modify (insert char) in
    let* _ := (if __cursor_movement self
               then modify (cursor_keys char) else ret tt) in
    let* _ := (if __use_history self
               then if Ctrl.eq char Ctrl.U_ARROW then history_up
                    else if Ctrl.eq char Ctrl.D_ARROW then history_down
                    else ret tt
               else ret tt) in
    if __send_with_enter self && Ctrl.eq char Ctrl.ENTER
    then let* r := enter_send in ret (Some r)
    else ret None.

End Key.

End LineBuffer.

(* ===================================================================== *)
(** * termutils.py: TermInReader                                          *)
(* ===================================================================== *)

Module TermInReader.

(** What [termios.tcgetattr] returns:
    [[iflag, oflag, cflag, lflag, ispeed, ospeed, cc]]. *)
Record termios_attr : Type := mk_attr {
  iflag : Z;
  oflag : Z;
  cflag : Z;
  lflag : Z;
  ispeed : Z;
  ospeed : Z;
  cc : list Z
}.

(** Callables are named; what a call does is given by the application. *)
Definition action : Type := nat.
Definition hook : Type := nat.

(** One recorder object. *)
Record recorder : Type := mk_recorder {
  hooks : list hook;
  __func : option hook;   (* [None] is [lambda _: None] *)
  normal : bool;
  _old_settings : option termios_attr;
  bindings : gmap str (list action);
  _which : Z
}.

(** The process as the recorders see it: the line discipline of the tty,
    what is known of stdin and of the platform, the registry
    [__instances] of the live recorders by identity, and the state of the
    application that owns them. *)
Record world (U : Type) : Type := mk_world {
  tty : termios_attr;
  stdin_fifo : bool;      (* [S_ISFIFO(os.fstat(0).st_mode)] *)
  stdin_closed : bool;    (* [sys.stdin.closed] *)
  has_termios : bool;     (* [import tty, termios] succeeds *)
  __instances : gmap nat recorder;
  app : U
}.
Arguments mk_world {U} _ _ _ _ _ _.
Arguments tty {U} _.
Arguments stdin_fifo {U} _.
Arguments stdin_closed {U} _.
Arguments has_termios {U} _.
Arguments __instances {U} _.
Arguments app {U} _.

Definition set_tty {U} (a : termios_attr) (w : world U) : world U :=
  mk_world a (stdin_fifo w) (stdin_closed w) (has_termios w)
           (__instances w) (app w).

Definition set_instances {U} (m : gmap nat recorder) (w : world U)
  : world U :=
  mk_world (tty w) (stdin_fifo w) (stdin_closed w) (has_termios w)
           m (app w).

(** [TermInReader(hooks...)] as an object, before it is registered. *)
Definition fresh (hooks : list hook) : recorder :=
  mk_recorder hooks (head hooks) true None ∅ 0.

(** The object behind the reference [self]. *)
Definition obj {U} (w : world U) (self : nat) : recorder :=
  default (fresh []) (__instances w !! self).

Definition update {U} (self : nat) (f : recorder -> recorder) (w : world U)
  : world U :=
  set_instances (alter f self (__instances w)) w.

Definition set_normal (b : bool) (r : recorder) : recorder :=
  mk_recorder (hooks r) (__func r) b (_old_settings r) (bindings r)
              (_which r).

Definition set_old_settings (o : option termios_attr) (r : recorder)
  : recorder :=
  mk_recorder (hooks r) (__func r) (normal r) o (bindings r) (_which r).

Definition set_bindings (b : gmap str (list action)) (r : recorder)
  : recorder :=
  mk_recorder (hooks r) (__func r) (normal r) (_old_settings r) b
              (_which r).

Definition set_hook (which : Z) (f : option hook) (r : recorder)
  : recorder :=
  mk_recorder (hooks r) f (normal r) (_old_settings r) (bindings r) which.

(** [__init__]: the new object [self] joins the registry. *)
Definition __init__ {U} (self : nat) (hooks : list hook) (w : world U)
  : world U :=
  set_instances (<[self := fresh hooks]> (__instances w)) w.

(** [bind(code, func)] for a string, and for a [Ctrl] member (one call
    per alias). *)
Definition bind_str (code : str) (func : action) (r : recorder)
  : recorder :=
  set_bindings
    (<[code := default [] (bindings r !! code) ++ [func]]> (bindings r)) r.

Definition bind_ctrl (code : Ctrl.t) (func : action) (r : recorder)
  : recorder :=
  fold_left (fun r c => bind_str c func r) (Ctrl.codes code) r.

Local Open Scope py_scope.

(** [switch_hook(advance)] *)
Definition switch_hook {U} (self : nat) (advance : Z) : M (world U) unit :=
  let* w := get in
  let r := obj w self in
  let which := _which r + advance in
  if len (hooks r) =? 0
  then
    let* _ := modify (update self (set_hook which (__func r))) in
    raise ZeroDivisionError
  else
    let which := which mod len (hooks r) in
    match getitem (hooks r) which with
    | Some f => modify (update self (set_hook which (Some f)))
    | None =>
        let* _ := modify (update self (set_hook which (__func r))) in
        raise IndexError
    end.

Section Recorder.

(** Platform constants of [termios], and what [tty.setraw] makes of the
    attributes of the terminal. *)
Variables ECHO ICANON : Z.
Variables VMIN VTIME : nat.
Variable setraw : termios_attr -> termios_attr.

(** The application: its state, and what calling a bound action or a
    hook does. *)
Variable U : Type.
Variable call_action : action -> M (world U) unit.
Variable call_hook : hook -> str -> M (world U) unit.

(** The attributes written by [new_settings]. *)
Definition raw_attr (a : termios_attr) : termios_attr :=
  mk_attr (iflag a) (oflag a) (cflag a)
          (Z.land (lflag a) (Z.lnot (Z.lor ECHO ICANON)))
          (ispeed a) (ospeed a)
          (<[VTIME := 0]> (<[VMIN := 0]> (cc a))).

(** [new_settings()]; stdin is a terminal whenever it is not a FIFO. *)
Definition new_settings (self : nat) : M (world U) unit :=
  let* w := get in
  if stdin_fifo w
  then raise (TypeError "Cannot read keyboard input from stdin when piped")
  else if normal (obj w self)
  then
    try_finally
      (if negb (has_termios w) then ret tt  (* ImportError: pass *)
       else if stdin_closed w then raise (TypeError "stdin is closed")
       else
         let* _ := modify (fun w => set_tty (setraw (tty w)) w) in
         let* w1 := get in
         let* _ := (match _old_settings (obj w1 self) with
                    | Some _ => ret tt
                    | None => modify (update self
                                (set_old_settings (Some (tty w1))))
                    end) in
         modify (fun w => set_tty (raw_attr (tty w)) w))
      (modify (update self (set_normal false)))
  else ret tt.

(** [end()] *)
Definition end_ (self : nat) : M (world U) unit :=
  let* w := get in
  if negb (normal (obj w self))
  then
    try_finally
      (if negb (has_termios w) then ret tt  (* ImportError: pass *)
       else if stdin_closed w then ret tt
       else match _old_settings (obj w self) with
            | Some a => modify (set_tty a)
            | None => raise (TypeError "tcsetattr, arg 3: must be 7 element list")
            end)
      (modify (update self (set_normal true)))
  else ret tt.

(** The bound actions fire in insertion order. *)
Fixpoint call_all (fs : list action) : M (world U) unit :=
  match fs with
  | [] => ret tt
  | f :: fs' => let* _ := call_action f in call_all fs'
  end.

(** [_handle(key)] *)
Definition _handle (self : nat) (key : str) : M (world U) unit :=
  let* w := get in
  let* _ := call_all (default [] (bindings (obj w self) !! key)) in
  let* _ := (if str_eqb key [4%N]
             then (* rescue key *)
               let* _ := end_ self in raise (SystemExit 1)
             else ret tt) in
  let* w' := get in
  match __func (obj w' self) with
  | Some f => call_hook f key
  | None => ret tt
  end.

(** The loop of [record] on a terminal with [select]: [reads] holds what
    the successive reads of stdin decode to (the empty string when
    nothing was buffered).  When they are used up while the recorder is
    still in raw mode the loop is still running.  (The polling loop
    that [record] falls back to when [select] raises [OSError], on a
    platform without POSIX terminals, hands its keys to the same
    [_handle]; it is not part of this model.) *)
Fixpoint record_loop (self : nat) (reads : list str) : M (world U) unit :=
  fun w =>
    if normal (obj w self) then Ret tt w
    else match reads with
         | [] => Pending w
         | key :: reads' =>
             if negb (len key =? 0)
             then (let* _ := _handle self key in
                   record_loop self reads') w
             else record_loop self reads' w
         end.

(** [record(timeout)]; [ready] tells whether [select] found stdin
    readable before the timeout. *)
Definition record (self : nat) (ready : bool) (reads : list str)
  : M (world U) unit :=
  let* _ := modify (update self (set_normal false)) in
  if ready then record_loop self reads else ret tt.

(** The test at the head of [start]: some other live recorder is not in
    its original line discipline. *)
Definition conflicting (self : nat) (w : world U) : bool :=
  existsb (fun ir => negb (fst ir =? self)%nat && negb (normal (snd ir)))
          (map_to_list (__instances w)).

Definition caught_by_start (e : exn) : bool :=
  match e with
  | KeyboardInterrupt | SystemExit _ => true
  | _ => false
  end.

(** [start(timeout)] *)
Definition start (self : nat) (ready : bool) (reads : list str)
  : M (world U) unit :=
  let* w := get in
  if conflicting self w
  then raise (TypeError "conflicting terminal recorders")
  else
    let* _ := new_settings self in
    try_finally
      (try_except_pass caught_by_start (record self ready reads))
      (end_ self).

End Recorder.

End TermInReader.

(* ===================================================================== *)
(** * Python floats                                                       *)
(* ===================================================================== *)

Module Float.

(** binary64 *)
Definition prec : Z := 53.
Definition emax : Z := 1024.

Definition t : Type := spec_float.

(** [float(z)] for an [int] *)
Definition of_int (z : Z) : t := binary_normalize prec emax z 0 false.

Definition add : t -> t -> t := SFadd prec emax.
Definition mul : t -> t -> t := SFmul prec emax.
Definition div : t -> t -> t := SFdiv prec emax.
Definition ltb : t -> t -> bool := SFltb.

(** The literals [0.05] and [0.5] as the parser reads them. *)
Definition lit_0_05 : t := S754_finite false 7205759403792794 (-57).
Definition lit_0_5 : t := S754_finite false 4503599627370496 (-53).

End Float.

(** The result of a call that changes no state: a value or an exception. *)
Inductive res (A : Type) : Type :=
| Ok (v : A)
| Err (e : exn).
Arguments Ok {A} _.
Arguments Err {A} _.

(* ===================================================================== *)
(** * apps.py: FuzzyFinder                                                *)
(* ===================================================================== *)

Module FuzzyFinder.

Section Matcher.

(** [c.casefold()] for one character: Unicode's full case folding, which
    Python applies to a string character by character. *)
Variable casefold_char : char -> str.

(** [s.casefold()] *)
Definition casefold (s : str) : str := flat_map casefold_char s.

(** The variables of the loop of [_matches_query]. *)
Record loop_state : Type := mk_loop {
  score : Float.t;
  indices : list Z;
  last_index : Z
}.

(** One turn of [for char in query]: [Ok None] is the [return] that
    rejects the item. *)
Definition loop_body (item i_item : str) (st : loop_state) (char : Py.char)
  : res (option loop_state) :=
  let i := find i_item (casefold_char char) (last_index st + 1) in
  if i =? -1 then Ok None
  else
    let _score := Float.mul (Float.of_int (i - last_index st - 1))
                            Float.lit_0_05 in
    match getitem item i with
    | None => Err IndexError
    | Some c =>
        Ok (Some (mk_loop
                    (Float.add (score st)
                       (if negb (c =? char)%N
                        then Float.add Float.lit_0_5 _score
                        else Float.add (Float.of_int 1) _score))
                    (indices st ++ [i])
                    i))
    end.

Fixpoint loop (item i_item : str) (query : str) (st : loop_state)
  : res (option loop_state) :=
  match query with
  | [] => Ok (Some st)
  | char :: query' =>
      match loop_body item i_item st char with
      | Ok (Some st') => loop item i_item query' st'
      | r => r
      end
  end.

(** [_matches_query(query, item)]: [Ok None] is the value [None]. *)
Definition _matches_query (query item : str)
  : res (option (list Z * Float.t)) :=
  let i_item := casefold item in
  match loop item i_item query (mk_loop (Float.of_int 0) [] (-1)) with
  | Ok (Some st) =>
      match indices st with
      | [] => Ok None
      | _ => Ok (Some (indices st,
                       Float.div (score st)
                                 (Float.of_int (last_index st + 1))))
      end
  | Ok None => Ok None
  | Err e => Err e
  end.

(** Python's [sorted(..., key=, reverse=True)] on scored items: by
    descending score, items of equal score in their original order. *)
Fixpoint insert_desc (x : Float.t * str) (l : list (Float.t * str))
  : list (Float.t * str) :=
  match l with
  | [] => [x]
  | y :: l' => if Float.ltb (fst x) (fst y) then y :: insert_desc x l'
               else x :: l
  end.

Definition sorted_desc (l : list (Float.t * str)) : list (Float.t * str) :=
  fold_right insert_desc [] l.

(** [(obj for obj in objects if self._matches_query(query, obj))], each
    kept object with its score. *)
Fixpoint matching (query : str) (objects : list str)
  : res (list (Float.t * str)) :=
  match objects with
  | [] => Ok []
  | obj :: objects' =>
      match _matches_query query obj with
      | Err e => Err e
      | Ok m =>
          match matching query objects' with
          | Err e => Err e
          | Ok l => Ok match m with
                       | Some (_, sc) => (sc, obj) :: l
                       | None => l
                       end
          end
      end
  end.

(** The list that [search_bar] shows for a query. *)
Definition results (query : str) (objects : list str) : res (list str) :=
  match query with
  | [] => Ok objects
  | _ => match matching query objects with
         | Ok l => Ok (map snd (sorted_desc l))
         | Err e => Err e
         end
  end.

End Matcher.

(** The state of the finder.  Rendering ([highlight], [footer],
    [writelines], [clear], [flush]) writes to the output and changes none
    of these fields.  The methods below are the methods without their
    rendering: each gives the state that the method leaves when nothing
    that it renders raises.  [FuzzyFinderUI] has the methods with their
    rendering. *)
Record t : Type := mk {
  objects : list str;
  _sublist : SequencePointer.t str;
  _start_index : Z;
  _maxlines : Z;
  _current_query : str;
  _line_buffer : LineBuffer.t;
  _value : option str;
  _in_app : bool
}.

Definition set_sublist (l : SequencePointer.t str) (self : t) : t :=
  mk (objects self) l (_start_index self) (_maxlines self)
     (_current_query self) (_line_buffer self) (_value self) (_in_app self).

Definition set_start_index (i : Z) (self : t) : t :=
  mk (objects self) (_sublist self) i (_maxlines self)
     (_current_query self) (_line_buffer self) (_value self) (_in_app self).

Definition set_current_query (q : str) (self : t) : t :=
  mk (objects self) (_sublist self) (_start_index self) (_maxlines self)
     q (_line_buffer self) (_value self) (_in_app self).

Definition set_line_buffer (b : LineBuffer.t) (self : t) : t :=
  mk (objects self) (_sublist self) (_start_index self) (_maxlines self)
     (_current_query self) b (_value self) (_in_app self).

(** [FuzzyFinder(objects)] on a terminal of [lines] lines. *)
Definition __init__ (objects : list str) (lines : Z) : t :=
  mk objects (SequencePointer.__init__ objects false) 0 (lines - 2) []
     (LineBuffer.__init__ false true false 4) None false.

(** [scroll_up(n)] *)
Definition scroll_up (n : Z) (self : t) : t :=
  if _start_index self >? 0
  then set_start_index
         (_start_index self - Z.min n (_start_index self)) self
  else self.

(** [scroll_down(n)] *)
Definition scroll_down (n : Z) (self : t) : t :=
  let listsize := len (SequencePointer.seq (_sublist self)) in
  if _start_index self + _maxlines self <? listsize
  then set_start_index
         (_start_index self
          + Z.min n (listsize - _start_index self - _maxlines self)) self
  else self.

(** [scroll_to_view()] *)
Definition scroll_to_view (self : t) : t :=
  let offset := SequencePointer.pointer (_sublist self)
                - _start_index self in
  if negb ((0 <=? offset) && (offset <? _maxlines self))
  then (if offset <? 0 then scroll_up else scroll_down) (Z.abs offset) self
  else self.

(** [next_item(n)] *)
Definition next_item (n : Z) (self : t) : t :=
  if negb (len (SequencePointer.seq (_sublist self)) =? 0)
  then
    let self := set_sublist (SequencePointer.next (_sublist self) n) self in
    let pointer := SequencePointer.pointer (_sublist self) in
    if pointer >=? _start_index self + _maxlines self
    then scroll_down (pointer - _start_index self - _maxlines self + 1) self
    else self
  else self.

(** [previous_item(n)] *)
Definition previous_item (n : Z) (self : t) : t :=
  if negb (len (SequencePointer.seq (_sublist self)) =? 0)
  then
    let self :=
      set_sublist (SequencePointer.previous (_sublist self) n) self in
    let pointer := SequencePointer.pointer (_sublist self) in
    if pointer <? _start_index self
    then scroll_to_view self
    else self
  else self.

Section App.

Variable casefold_char : char -> str.
Variable re_search_left_end : str -> option Z.
Variable re_search_right_end : str -> option Z.

Local Open Scope py_scope.

(** [search_bar()] without its rendering, a no-op outside the application
    context. *)
Definition search_bar : M t unit :=
  let* self := get in
  if _in_app self
  then
    let query := LineBuffer.line (_line_buffer self) in
    if negb (str_eqb query (_current_query self))
    then
      let* _ := modify (set_current_query query) in
      match results casefold_char query (objects self) with
      | Ok l =>
          let* _ := modify (set_sublist (SequencePointer.__init__ l false)) in
          modify (set_start_index 0)
      | Err e => raise e
      end
    else ret tt
  else ret tt.

(** One turn of the loop of [_format_item]:
    [item = f'{item[:i]}\x1b[1;36m{item[i]}\x1b[22;39m{item[i + 1:]}']. *)
Definition format_at (item : str) (i : Z) : res str :=
  match getitem item i with
  | Some c =>
      Ok (slice_to item i ++ Ctrl.esc "[1;36m" ++ [c]
            ++ Ctrl.esc "[22;39m" ++ slice_from item (i + 1))
  | None => Err IndexError
  end.

(** The loop, over the indices in the order given. *)
Fixpoint format_each (indices : list Z) (item : str) : res str :=
  match indices with
  | [] => Ok item
  | i :: indices' =>
      match format_at item i with
      | Ok item' => format_each indices' item'
      | Err e => Err e
      end
  end.

(** [_format_item(item)] *)
Definition _format_item (self : t) (item : str) : res str :=
  match _current_query self with
  | [] => Ok item
  | query =>
      match _matches_query casefold_char query item with
      | Err e => Err e
      | Ok None => Ok item
      | Ok (Some (indices, _)) => format_each (rev indices) item
      end
  end.

End App.

End FuzzyFinder.


(* ===================================================================== *)
(** * termutils.py: XTermApplication                                      *)
(* ===================================================================== *)

Module XTermApplication.

Record _XtermAppConfig : Type := mk_config {
  alternate_buffer : bool;
  alternate_scroll : bool;
  hide_cursor : bool;
  scrolling_region : option (Z * Z);
  meta_key : bool;
  alt_numlock : bool;
  smooth_scroll : bool;
  fast_scroll : bool;
  auto_wrap : bool;
  sgr_mouse : bool;
  utf8_mouse : bool;
  urxvt_mouse : bool;
  mouse_events : bool
}.

(** The configuration of an application that sets no option. *)
Definition default_config : _XtermAppConfig :=
  mk_config false false false None false false true false true
            false false false false.

(** The application: the identity of its recorder, the context flag, the
    configuration, what has been written to the target so far (one string
    for each call of [_target.write], in their order) and the exceptions
    that leaving the context swallows.  [_target.flush()] changes nothing
    of this. *)
Record t : Type := mk {
  _recorder : nat;
  _in_app : bool;
  _config : _XtermAppConfig;
  _target : list str;
  _safe_exceptions : exn -> bool
}.

Definition set_in_app (b : bool) (self : t) : t :=
  mk (_recorder self) b (_config self) (_target self)
     (_safe_exceptions self).

(** [self._target.write(s)] *)
Definition target_write (s : str) (self : t) : t :=
  mk (_recorder self) (_in_app self) (_config self) (_target self ++ [s])
     (_safe_exceptions self).

(** [if cond: self._target.write(s)] *)
Definition write_if (cond : bool) (s : str) (self : t) : t :=
  if cond then target_write s self else self.

(** [in_application_context], [write(s)] and [flush()] *)
Definition in_application_context (self : t) : bool := _in_app self.

Definition write (s : str) (self : t) : t :=
  if in_application_context self then target_write s self else self.

Definition flush (self : t) : t := self.

(** The string that [open] and [restore_defaults] write first. *)
Definition baseline : str :=
  Ctrl.esc "[?7h" ++ Ctrl.esc "[?25h" ++ Ctrl.esc "[?1005l"
    ++ Ctrl.esc "[?1006l" ++ Ctrl.esc "[?1015l" ++ Ctrl.esc "[?1003l"
    ++ Ctrl.esc "[?1l".

(** [open()] *)
Definition open (self : t) : t :=
  let c := _config self in
  fold_left (fun self step => step self)
    [ target_write baseline;
      target_write (Ctrl.esc "[?1h");
      write_if (alternate_buffer c) (Ctrl.esc "[?1049h");
      write_if (utf8_mouse c) (Ctrl.esc "[?1005h");
      write_if (sgr_mouse c) (Ctrl.esc "[?1006h");
      write_if (alternate_scroll c) (Ctrl.esc "[?1007h");
      write_if (urxvt_mouse c) (Ctrl.esc "[?1015h");
      write_if (negb (auto_wrap c)) (Ctrl.esc "[?7l");
      write_if (hide_cursor c) (Ctrl.esc "[?25l");
      (fun self =>
         match scrolling_region c with
         | Some (top, bottom) =>
             target_write (Ctrl.esc "[" ++ str_of_int top ++ lit ";"
                             ++ str_of_int bottom ++ lit "r") self
         | None => self
         end);
      write_if (negb (smooth_scroll c)) (Ctrl.esc "[?4l");
      write_if (fast_scroll c) (Ctrl.esc "[?1014h");
      write_if (meta_key c) (Ctrl.esc "[?1034h");
      write_if (alt_numlock c) (Ctrl.esc "[?1035h");
      write_if (mouse_events c) (Ctrl.esc "[?1003h");
      set_in_app true;
      flush ]
    self.

(** [restore_defaults()] *)
Definition restore_defaults (self : t) : t :=
  let c := _config self in
  fold_left (fun self step => step self)
    [ target_write baseline;
      write_if (alternate_scroll c) (Ctrl.esc "[?1007l");
      write_if (match scrolling_region c with
                | Some _ => true
                | None => false
                end) (Ctrl.esc "[;r");
      write_if (negb (smooth_scroll c)) (Ctrl.esc "[?4h");
      write_if (fast_scroll c) (Ctrl.esc "[?1014l");
      write_if (meta_key c) (Ctrl.esc "[?1034l");
      write_if (alt_numlock c) (Ctrl.esc "[?1035l");
      write_if (alternate_buffer c) (Ctrl.esc "[?1049l") ]
    self.

(** [contextprotected(method)]: the method runs in the application
    context only, and the call gives [None] otherwise. *)
Definition contextprotected {A : Type} (method : M t A) : M t (option A) :=
  fun self =>
    if in_application_context self
    then match method self with
         | Ret v self' => Ret (Some v) self'
         | Raise e self' => Raise e self'
         | Pending self' => Pending self'
         end
    else Ret None self.

Section Closing.

(** What [stty sane] makes of the attributes of the terminal. *)
Variable stty_sane : TermInReader.termios_attr -> TermInReader.termios_attr.

Definition set_app (f : t -> t) (w : TermInReader.world t)
  : TermInReader.world t :=
  TermInReader.mk_world (TermInReader.tty w) (TermInReader.stdin_fifo w)
    (TermInReader.stdin_closed w) (TermInReader.has_termios w)
    (TermInReader.__instances w) (f (TermInReader.app w)).

Local Open Scope py_scope.

(** [close()] *)
Definition close : M (TermInReader.world t) unit :=
  let* w := get in
  let* _ := TermInReader.end_ t (_recorder (TermInReader.app w)) in
  let* _ := modify (set_app (set_in_app false)) in
  let* _ := modify (set_app restore_defaults) in
  modify (fun w => TermInReader.set_tty (stty_sane (TermInReader.tty w)) w).

(** [__enter__()] and [__exit__(exc_type, ...)]; the value of [__exit__]
    tells whether the exception is swallowed. *)
Definition __enter__ : M (TermInReader.world t) unit :=
  modify (set_app open).

Definition __exit__ (exc : option exn) : M (TermInReader.world t) bool :=
  let* _ := close in
  let* w := get in
  ret match exc with
      | None => true
      | Some e => _safe_exceptions (TermInReader.app w) e
      end.

End Closing.

End XTermApplication.

(* ===================================================================== *)
(** * apps.py: BaseMenu                                                   *)
(* ===================================================================== *)

Module BaseMenu.

(** What a method of the menu raises: one of the exceptions above, or
    [ValueError]. *)
Inductive error : Type :=
| Builtin (e : exn)
| ValueError.

(** [f'{s:<{width}}']: a negative width is no format specifier. *)
Definition format_left (s : str) (width : Z) : option str :=
  if width <? 0 then None
  else Some (s ++ repeat 32%N (Z.to_nat (width - len s))).

(** [sep.join(strings)] *)
Fixpoint join (sep : str) (strings : list str) : str :=
  match strings with
  | [] => []
  | [s] => s
  | s :: strings' => s ++ sep ++ join sep strings'
  end.

(** [(f'\x1b[7m{item}\x1b[0m' if i == pointer else item
      for i, item in enumerate(items))], counting from [i]. *)
Fixpoint reverse_video (i pointer : Z) (items : list str) : list str :=
  match items with
  | [] => []
  | item :: items' =>
      (if i =? pointer then Ctrl.esc "[7m" ++ item ++ Ctrl.esc "[0m"
       else item)
        :: reverse_video (i + 1) pointer items'
  end.

Section Menu.

(** The payload of an item, and Python's [callable] on it. *)
Variable T : Type.
Variable callable : T -> bool.

(** [self.termsize.columns] *)
Variable columns : Z.

(** [_Menu]: the items are pairs of a label and a payload, a selector is
    named. *)
Record _Menu : Type := mk_menu {
  items : SequencePointer.t (str * T);
  selector : option nat;
  mode : str
}.

Definition set_items (l : SequencePointer.t (str * T)) (menu : _Menu)
  : _Menu :=
  mk_menu l (selector menu) (mode menu).

(** The menu application: the application it is, the stack [menus] of
    the identities of its menu objects (the last is the active one), and
    the menu objects themselves. *)
Record t : Type := mk {
  app : XTermApplication.t;
  menus : list nat;
  heap : gmap nat _Menu
}.

Definition set_app (a : XTermApplication.t) (self : t) : t :=
  mk a (menus self) (heap self).

Definition set_menus (l : list nat) (self : t) : t :=
  mk (app self) l (heap self).

(** The object behind a reference, and its update in place. *)
Definition obj (self : t) (menu : nat) : _Menu :=
  default (mk_menu (SequencePointer.__init__ [] true) None
             (lit "horizontal"))
          (heap self !! menu).

Definition update (menu : nat) (f : _Menu -> _Menu) (self : t) : t :=
  mk (app self) (menus self) (<[menu := f (obj self menu)]> (heap self)).

(** How a method ends, and in which state. *)
Inductive result (A : Type) : Type :=
| Done (v : A) (self : t)
| Failed (e : error) (self : t).
Arguments Done {A} _ _.
Arguments Failed {A} _ _.

Definition method (A : Type) : Type := t -> result A.

Definition ret {A} (v : A) : method A := fun self => Done v self.

Definition fail {A} (e : error) : method A := fun self => Failed e self.

Definition bind {A B} (m : method A) (k : A -> method B) : method B :=
  fun self => match m self with
              | Done v self' => k v self'
              | Failed e self' => Failed e self'
              end.

Definition get : method t := fun self => Done self self.

Definition modify (f : t -> t) : method unit :=
  fun self => Done tt (f self).

Declare Scope menu_scope.
Notation "'let*' x ':=' m 'in' k" := (bind m (fun x => k))
  (at level 10, x name, m at level 100, k at level 200) : menu_scope.
Local Open Scope menu_scope.

(** What calling a selector on a payload, and calling a payload, does. *)
Variable call_selector : nat -> T -> method unit.
Variable call_item : T -> method unit.

(** [self.write(s)] and the decorator [contextprotected]. *)
Definition write (s : str) : method unit :=
  modify (fun self => set_app (XTermApplication.write s (app self)) self).

Definition contextprotected (body : method unit) : method unit :=
  fun self =>
    if XTermApplication.in_application_context (app self)
    then body self
    else Done tt self.

(** [self.menus[-1]] and [self.menus.pop()] *)
Definition menus_last : method nat :=
  fun self => match last (menus self) with
              | Some menu => Done menu self
              | None => Failed (Builtin IndexError) self
              end.

Definition menus_pop : method unit :=
  fun self => match menus self with
              | [] => Failed (Builtin IndexError) self
              | _ => Done tt (set_menus (removelast (menus self)) self)
              end.

(** [cleanup()] *)
Definition cleanup : method unit :=
  contextprotected
    (let* _ := write (Ctrl.esc "[0J") in
     let* menu := menus_last in
     let* self := get in
     if str_eqb (mode (obj self menu)) (lit "vertical")
     then write (concat (repeat (Ctrl.esc "[F" ++ Ctrl.esc "[2K")
                           (length (SequencePointer.seq
                                      (items (obj self menu))))))
     else write (Ctrl.esc "[F" ++ Ctrl.esc "[2K")).

(** [(f'{trim(item[0], width):<{width}}' for item in menu.items)];
    [None] is the [ValueError] of the format. *)
Fixpoint cells (width : Z) (entries : list (str * T)) : option (list str) :=
  match entries with
  | [] => Some []
  | item :: entries' =>
      match format_left (trim (fst item) width 0) width with
      | None => None
      | Some cell =>
          match cells width entries' with
          | None => None
          | Some rest => Some (cell :: rest)
          end
      end
  end.

(** [display(use_previous, cleanup)].  In the vertical mode
    [max(map(len, menu.items))] is taken over the items, which are pairs:
    it is 2, and a [ValueError] when there is no item. *)
Definition display (use_previous cleanup_first : bool) : method unit :=
  contextprotected
    (let* _ := (if cleanup_first then cleanup else ret tt) in
     let* _ := (if use_previous then menus_pop else ret tt) in
     let* menu := menus_last in
     let* self := get in
     let entries := SequencePointer.seq (items (obj self menu)) in
     let pointer := SequencePointer.pointer (items (obj self menu)) in
     let* _ :=
       (if str_eqb (mode (obj self menu)) (lit "horizontal")
        then
          if len entries =? 0 then fail (Builtin ZeroDivisionError)
          else
            match cells (columns / len entries) entries with
            | Some row => write (concat (reverse_video 0 pointer row))
            | None => fail ValueError
            end
        else if str_eqb (mode (obj self menu)) (lit "vertical")
        then
          match entries with
          | [] => fail ValueError
          | _ =>
              match cells (Z.min 2 columns) entries with
              | Some rows =>
                  write (join (Ctrl.esc "[E")
                           (reverse_video 0 pointer rows))
              | None => fail ValueError
              end
          end
        else ret tt) in
     write [13; 10]%N).

(** [simple_nav(key)], the hook of the menu. *)
Definition simple_nav (key : str) : method unit :=
  let* menu := menus_last in
  let* self := get in
  if Ctrl.eq key Ctrl.ESC && (len (menus self) >? 1)
  then display true true
  else if Ctrl.eq key Ctrl.ENTER
  then
    match getitem (SequencePointer.seq (items (obj self menu)))
                  (SequencePointer.pointer (items (obj self menu))) with
    | None => fail (Builtin IndexError)
    | Some (_, item) =>
        match selector (obj self menu) with
        | Some f => call_selector f item
        | None =>
            if callable item then call_item item
            else fail (Builtin (TypeError
                   "internal error: no selector and item not callable"))
        end
    end
  else
    let vertical := str_eqb (mode (obj self menu)) (lit "vertical") in
    let horizontal := str_eqb (mode (obj self menu)) (lit "horizontal") in
    let* _ :=
      (if vertical && Ctrl.eq key Ctrl.D_ARROW
          || horizontal && Ctrl.eq key Ctrl.R_ARROW
       then modify (update menu (fun m =>
                      set_items (SequencePointer.next (items m) 1) m))
       else if vertical && Ctrl.eq key Ctrl.U_ARROW
               || horizontal && Ctrl.eq key Ctrl.L_ARROW
       then modify (update menu (fun m =>
                      set_items (SequencePointer.previous (items m) 1) m))
       else ret tt) in
    display false true.

(** [_add_menu(menu, default_pos)] and [add_menu(menu, default_pos)] for
    a menu object of the heap. *)
Definition _add_menu (menu : nat) (default_pos : Z) : method unit :=
  let* self := get in
  let* _ := (if XTermApplication.in_application_context (app self)
             then cleanup else ret tt) in
  let* _ := modify (update menu (fun m =>
              set_items (SequencePointer.set_pointer (items m) default_pos)
                        m)) in
  let* _ := modify (fun self => set_menus (menus self ++ [menu]) self) in
  let* self := get in
  if XTermApplication.in_application_context (app self)
  then display false false
  else ret tt.

Definition add_menu (menu : nat) (default_pos : Z) : method unit :=
  _add_menu menu default_pos.

(** The state in which a method leaves the menu, however it ends. *)
Definition state_after {A} (r : result A) : t :=
  match r with
  | Done _ self => self
  | Failed _ self => self
  end.

End Menu.

Arguments mk_menu {T} _ _ _.
Arguments items {T} _.
Arguments selector {T} _.
Arguments mode {T} _.
Arguments set_items {T} _ _.
Arguments mk {T} _ _ _.
Arguments app {T} _.
Arguments menus {T} _.
Arguments heap {T} _.
Arguments set_app {T} _ _.
Arguments set_menus {T} _ _.
Arguments obj {T} _ _.
Arguments update {T} _ _ _.
Arguments Done {T A} _ _.
Arguments Failed {T A} _ _.
Arguments state_after {T A} _.
Arguments write {T} _ _.
Arguments cleanup {T} _.
Arguments cells {T} _ _.
Arguments display {T} _ _ _ _.
Arguments simple_nav {T} _ _ _ _ _ _.
Arguments _add_menu {T} _ _ _ _.
Arguments add_menu {T} _ _ _ _.

End BaseMenu.

(* ===================================================================== *)
(** * apps.py: the FuzzyFinder as it renders                              *)
(* ===================================================================== *)

(** The methods of the finder as they run, rendering included.  What is
    rendered goes through [self.write] to the target of the application,
    which is no part of [FuzzyFinder.t]: here a method that renders gives
    the state of the finder and the exception, if any, that ends it.  A
    text made of constants and of the decimals of integers cannot raise
    and does not show below; a text that is made by [_format_item] or
    out of [self._sublist[index]] can. *)
Module FuzzyFinderUI.

Section Rendering.

Variable casefold_char : char -> str.
Variable re_search_left_end : str -> option Z.
Variable re_search_right_end : str -> option Z.

(** [self.termsize.columns]: [shutil.get_terminal_size()] gives no size
    below 1. *)
Variable columns : positive.

Local Open Scope py_scope.

(** [@contextprotected] *)
Definition contextprotected (method : M FuzzyFinder.t unit)
  : M FuzzyFinder.t unit :=
  let* self := get in
  if FuzzyFinder._in_app self then method else ret tt.

(** [self.write(text)] for a text that is formatted first: an exception
    of the formatting comes before anything is written. *)
Definition write (text : res str) : M FuzzyFinder.t unit :=
  match text with
  | Ok _ => ret tt
  | Err e => raise e
  end.

(** [self._sublist[index]] *)
Definition sublist_getitem (index : Z) : M FuzzyFinder.t str :=
  let* self := get in
  match getitem (SequencePointer.seq (FuzzyFinder._sublist self)) index with
  | Some item => ret item
  | None => raise IndexError
  end.

(** [_format_normal_line(item, length)]:
    [f' \x1b[2;39m\u2590\x1b[0m   {self._format_item(trim(item, length - 5))}']. *)
Definition _format_normal_line (self : FuzzyFinder.t) (item : str)
    (length : Z) : res str :=
  match FuzzyFinder._format_item casefold_char self
          (trim item (length - 5) 0) with
  | Ok s =>
      Ok (lit " " ++ Ctrl.esc "[2;39m" ++ [9616%N] ++ Ctrl.esc "[0m"
            ++ lit "   " ++ s)
  | Err e => Err e
  end.

(** [footer()] writes the position of the pointer and of the window, in
    decimals, filled to the width of the terminal. *)
Definition footer : M FuzzyFinder.t unit :=
  contextprotected (ret tt).

(** [clear()] writes one sequence for each line of the window. *)
Definition clear : M FuzzyFinder.t unit :=
  contextprotected (ret tt).

(** [highlight(index, unhighlight)]: between the sequences that save the
    cursor, move it to the row and restore it, the line of the item is
    written, as a normal line or as the marked one, which [rjust_line]
    fills with blanks to the width of the terminal. *)
Definition highlight (index : Z) (unhighlight : bool)
  : M FuzzyFinder.t unit :=
  contextprotected
    (let* self := get in
     if index <? len (SequencePointer.seq (FuzzyFinder._sublist self))
     then
       let* item := sublist_getitem index in
       if unhighlight
       then write (_format_normal_line self item (Z.pos columns))
       else write (FuzzyFinder._format_item casefold_char self item)
     else ret tt).

(** The generator of [writelines], which [join] runs to its end:
    [self._format_normal_line(line, self.termsize.columns) for line in
    ...]. *)
Fixpoint format_lines (self : FuzzyFinder.t) (lines : list str)
  : res (list str) :=
  match lines with
  | [] => Ok []
  | line :: lines' =>
      match _format_normal_line self line (Z.pos columns) with
      | Err e => Err e
      | Ok s =>
          match format_lines self lines' with
          | Err e => Err e
          | Ok l => Ok (s :: l)
          end
      end
  end.

(** [sep.join(lines)] *)
Fixpoint join (sep : str) (lines : list str) : str :=
  match lines with
  | [] => []
  | [line] => line
  | line :: lines' => line ++ sep ++ join sep lines'
  end.

(** [writelines()] *)
Definition writelines : M FuzzyFinder.t unit :=
  contextprotected
    (let* _ := footer in
     let* self := get in
     if len (SequencePointer.seq (FuzzyFinder._sublist self)) =? 0
     then clear
     else
       write
         match format_lines self
                 (slice (SequencePointer.seq (FuzzyFinder._sublist self))
                    (FuzzyFinder._start_index self)
                    (FuzzyFinder._start_index self
                     + FuzzyFinder._maxlines self)) with
         | Ok l => Ok (join (Ctrl.esc "[E" ++ Ctrl.esc "[2K") l)
         | Err e => Err e
         end).

(** [scroll_up(n)] *)
Definition scroll_up (n : Z) : M FuzzyFinder.t unit :=
  let* self := get in
  if FuzzyFinder._start_index self >? 0
  then
    let* _ :=
      modify (FuzzyFinder.set_start_index
                (FuzzyFinder._start_index self
                 - Z.min n (FuzzyFinder._start_index self))) in
    writelines
  else ret tt.

(** [scroll_down(n)] *)
Definition scroll_down (n : Z) : M FuzzyFinder.t unit :=
  let* self := get in
  let listsize := len (SequencePointer.seq (FuzzyFinder._sublist self)) in
  if FuzzyFinder._start_index self + FuzzyFinder._maxlines self <? listsize
  then
    let* _ :=
      modify (FuzzyFinder.set_start_index
                (FuzzyFinder._start_index self
                 + Z.min n (listsize - FuzzyFinder._start_index self
                            - FuzzyFinder._maxlines self))) in
    writelines
  else ret tt.

(** [scroll_to_view()] *)
Definition scroll_to_view : M FuzzyFinder.t unit :=
  let* self := get in
  let offset := SequencePointer.pointer (FuzzyFinder._sublist self)
                - FuzzyFinder._start_index self in
  if negb ((0 <=? offset) && (offset <? FuzzyFinder._maxlines self))
  then (if offset <? 0 then scroll_up else scroll_down) (Z.abs offset)
  else ret tt.

(** [next_item(n)] *)
Definition next_item (n : Z) : M FuzzyFinder.t unit :=
  let* self := get in
  if negb (len (SequencePointer.seq (FuzzyFinder._sublist self)) =? 0)
  then
    let* _ :=
      highlight (SequencePointer.pointer (FuzzyFinder._sublist self)) true in
    let* _ :=
      modify (fun self =>
                FuzzyFinder.set_sublist
                  (SequencePointer.next (FuzzyFinder._sublist self) n)
                  self) in
    let* self := get in
    let pointer := SequencePointer.pointer (FuzzyFinder._sublist self) in
    let* _ :=
      (if pointer
          >=? FuzzyFinder._start_index self + FuzzyFinder._maxlines self
       then scroll_down (pointer - FuzzyFinder._start_index self
                         - FuzzyFinder._maxlines self + 1)
       else ret tt) in
    let* _ := highlight pointer false in
    footer
  else ret tt.

(** [previous_item(n)] *)
Definition previous_item (n : Z) : M FuzzyFinder.t unit :=
  let* self := get in
  if negb (len (SequencePointer.seq (FuzzyFinder._sublist self)) =? 0)
  then
    let* _ :=
      highlight (SequencePointer.pointer (FuzzyFinder._sublist self)) true in
    let* _ :=
      modify (fun self =>
                FuzzyFinder.set_sublist
                  (SequencePointer.previous (FuzzyFinder._sublist self) n)
                  self) in
    let* self := get in
    let pointer := SequencePointer.pointer (FuzzyFinder._sublist self) in
    let* _ :=
      (if pointer <? FuzzyFinder._start_index self
       then scroll_to_view
       else ret tt) in
    let* _ := highlight pointer false in
    footer
  else ret tt.

(** [search_bar()]; the line of the search bar, which it writes last, is
    the prompt, the text and the column of the cursor. *)
Definition search_bar : M FuzzyFinder.t unit :=
  contextprotected
    (let* self := get in
     let query := LineBuffer.line (FuzzyFinder._line_buffer self) in
     if negb (str_eqb query (FuzzyFinder._current_query self))
     then
       let* _ := modify (FuzzyFinder.set_current_query query) in
       match query with
       | [] =>
           let* _ :=
             modify (FuzzyFinder.set_sublist
                       (SequencePointer.__init__ (FuzzyFinder.objects self)
                          false)) in
           let* _ := modify (FuzzyFinder.set_start_index 0) in
           let* _ := writelines in
           highlight 0 false
       | _ =>
           match FuzzyFinder.matching casefold_char query
                   (FuzzyFinder.objects self) with
           | Err e => raise e
           | Ok l =>
               let* _ :=
                 modify (FuzzyFinder.set_sublist
                           (SequencePointer.__init__
                              (map snd (FuzzyFinder.sorted_desc l)) false)) in
               let* _ := modify (FuzzyFinder.set_start_index 0) in
               let* _ := clear in
               let* _ := writelines in
               highlight 0 false
           end
       end
     else ret tt).

(** [self._line_buffer.key(key)], whose value is dropped. *)
Definition line_buffer_key (key : str) : M FuzzyFinder.t unit :=
  fun self =>
    match LineBuffer.key re_search_left_end re_search_right_end key
            (FuzzyFinder._line_buffer self) with
    | Ret _ b => Ret tt (FuzzyFinder.set_line_buffer b self)
    | Raise e b => Raise e (FuzzyFinder.set_line_buffer b self)
    | Pending b => Pending (FuzzyFinder.set_line_buffer b self)
    end.

(** [handle_key(key)], the hook of the finder. *)
Definition handle_key (key : str) : M FuzzyFinder.t unit :=
  let up := count key (Ctrl.esc "[M`") in
  let* _ := previous_item up in
  let down := count key (Ctrl.esc "[Ma") in
  let* _ := next_item down in
  let* _ :=
    (if (up =? down) && (down =? 0) then line_buffer_key key else ret tt) in
  search_bar.

End Rendering.

End FuzzyFinderUI.

(* ===================================================================== *)
(** * Properties stated about the model                                   *)
(* ===================================================================== *)

(** The pointer of the finder's sublist is a valid index which lies in the
    visible window [[start_index, start_index + max_lines)], and the window
    starts within [[0, max(0, len - max_lines)]]. *)
Definition viewport_ok (self : FuzzyFinder.t) : Prop :=
  let n := len (SequencePointer.seq (FuzzyFinder._sublist self)) in
  let p := SequencePointer.pointer (FuzzyFinder._sublist self) in
  let start := FuzzyFinder._start_index self in
  SequencePointer.__cycle (FuzzyFinder._sublist self) = false
  /\ 0 < n
  /\ 0 <= p < n
  /\ 0 <= start <= Z.max 0 (n - FuzzyFinder._maxlines self)
  /\ start <= p < start + FuzzyFinder._maxlines self.

(** A window start [s] shows the pointer [p] in [m] lines. *)
Definition shows (m s p : Z) : Prop := s <= p < s + m.

(** The moves of the pointer of the finder, and a run of them. *)
Inductive move : Type :=
| Next (n : Z)
| Previous (n : Z).

Definition steps (m : move) : Z :=
  match m with
  | Next n => n
  | Previous n => n
  end.

Definition do_move (self : FuzzyFinder.t) (m : move) : FuzzyFinder.t :=
  match m with
  | Next n => FuzzyFinder.next_item n self
  | Previous n => FuzzyFinder.previous_item n self
  end.

Definition do_moves (self : FuzzyFinder.t) (ms : list move) : FuzzyFinder.t :=
  fold_left do_move ms self.

(** The world once the recorder [self] has ended: nothing changes when it
    is in its original line discipline; otherwise the saved attributes are
    written back to the tty (where there is [termios] and stdin is open)
    and the recorder is marked [normal]. *)
Definition restored {U : Type} (self : nat) (w : TermInReader.world U)
  : TermInReader.world U :=
  if TermInReader.normal (TermInReader.obj w self) then w
  else
    TermInReader.update self (TermInReader.set_normal true)
      (if TermInReader.has_termios w && negb (TermInReader.stdin_closed w)
       then match TermInReader._old_settings (TermInReader.obj w self) with
            | Some a => TermInReader.set_tty a w
            | None => w
            end
       else w).

(** A recorder that is in raw mode has saved attributes to write back, as
    it has when it went into raw mode through [new_settings]. *)
Definition holds_saved {U : Type} (self : nat) (w : TermInReader.world U)
  : Prop :=
  TermInReader.normal (TermInReader.obj w self) = false ->
  TermInReader.has_termios w = true ->
  TermInReader.stdin_closed w = false ->
  TermInReader._old_settings (TermInReader.obj w self) <> None.

(** The state in which a call leaves the world, however it ends. *)
Definition state_of {S A : Type} (o : outcome S A) : S :=
  match o with
  | Ret _ s => s
  | Raise _ s => s
  | Pending s => s
  end.

(** A terminal in its usual line discipline, a platform and an application
    on which to run the recorder: the attributes and constants are those
    of a Linux terminal, [tty.setraw] is taken to clear the local flags and
    the output processing, the application counts the calls of its actions
    and its hooks do nothing. *)
Definition linux_cooked : TermInReader.termios_attr :=
  TermInReader.mk_attr 17664 5 191 35387 15 15 (repeat 0 32).

Definition linux_setraw (a : TermInReader.termios_attr)
  : TermInReader.termios_attr :=
  TermInReader.mk_attr (Z.land (TermInReader.iflag a) (Z.lnot 1330))
    (Z.land (TermInReader.oflag a) (Z.lnot 1))
    (Z.lor (Z.land (TermInReader.cflag a) (Z.lnot 304)) 48)
    (Z.land (TermInReader.lflag a) (Z.lnot 32779))
    (TermInReader.ispeed a) (TermInReader.ospeed a)
    (<[5%nat := 0]> (<[6%nat := 1]> (TermInReader.cc a))).

Definition counting (f : TermInReader.action)
  : M (TermInReader.world nat) unit :=
  modify (fun w =>
            TermInReader.mk_world (TermInReader.tty w)
              (TermInReader.stdin_fifo w) (TermInReader.stdin_closed w)
              (TermInReader.has_termios w) (TermInReader.__instances w)
              (S (TermInReader.app w))).

Definition no_hook (f : TermInReader.hook) (key : str)
  : M (TermInReader.world nat) unit :=
  ret tt.

Definition linux_start :=
  TermInReader.start 8 2 6 5 linux_setraw nat counting no_hook.

Definition linux_world : TermInReader.world nat :=
  TermInReader.mk_world linux_cooked false false true ∅ 0%nat.

(** Unicode's case folding on the ASCII characters: [A]-[Z] go to
    [a]-[z], every other ASCII character to itself. *)
Definition ascii_casefold (c : char) : str :=
  [if (65 <=? c)%N && (c <=? 90)%N then (c + 32)%N else c].

Definition agrees_on_ascii (casefold_char : char -> str) : Prop :=
  forall c, (c < 128)%N -> casefold_char c = ascii_casefold c.

(** Unicode's case folding on the ASCII characters and on the sharp s,
    U+00DF, which folds to ['ss']. *)
Definition sharp_s_casefold (c : char) : str :=
  if (c =? 223)%N then [115%N; 115%N] else ascii_casefold c.

(** The matcher in the words of its description: the walk through the
    query, the score of one matched position, and what it is for a
    character to have no occurrence. *)
Section MatcherSpec.

Variable casefold_char : char -> str.

(** Every character of [s] folds to one character. *)
Definition folds_simply (s : str) : Prop :=
  Forall (fun c => exists d, casefold_char c = [d]) s.

(** The folded character. *)
Definition fold1 (c : char) : char := List.hd c (casefold_char c).

(** The query character [c] occurs in the item at index [j], case
    folded. *)
Definition occurs_at (item : str) (c : char) (j : Z) : Prop :=
  option_map fold1 (getitem item j) = Some (fold1 c).

(** [i] is the next occurrence of [c] at an index greater than [last]. *)
Definition next_occurrence (item : str) (c : char) (last i : Z) : Prop :=
  last < i
  /\ occurs_at item c i
  /\ forall j, last < j < i -> ~ occurs_at item c j.

(** What the match of [c] at [i] adds to the raw score, with the gap
    [g = i - last - 1]: [0.5 + 0.05 * g] when the item has another case
    there, [1 + 0.05 * g] otherwise. *)
Definition match_score (item : str) (c : char) (last i : Z) : Float.t :=
  let g := Float.of_int (i - last - 1) in
  if bool_decide (getitem item i = Some c)
  then Float.add (Float.of_int 1) (Float.mul g Float.lit_0_05)
  else Float.add Float.lit_0_5 (Float.mul g Float.lit_0_05).

(** [walks item query last raw indices raw' last']: from the last matched
    index [last] and the raw score [raw], the characters of [query] are
    matched, left to right, at [indices], each at its next occurrence, and
    this ends with the raw score [raw'] and the last matched index
    [last']. *)
Inductive walks (item : str)
  : str -> Z -> Float.t -> list Z -> Float.t -> Z -> Prop :=
| walks_nil (last : Z) (raw : Float.t) :
    walks item [] last raw [] raw last
| walks_cons (c : char) (query : str) (last i : Z) (raw raw' : Float.t)
             (indices : list Z) (last' : Z) :
    next_occurrence item c last i ->
    walks item query i (Float.add raw (match_score item c last i))
          indices raw' last' ->
    walks item (c :: query) last raw (i :: indices) raw' last'.

(** Some character of the query has no occurrence when its turn comes. *)
Inductive stuck (item : str) : str -> Z -> Prop :=
| stuck_here (c : char) (query : str) (last : Z) :
    (forall j, last < j -> ~ occurs_at item c j) ->
    stuck item (c :: query) last
| stuck_later (c : char) (query : str) (last i : Z) :
    next_occurrence item c last i ->
    stuck item query i ->
    stuck item (c :: query) last.

(** The item is taken with [indices] and [score]: the walk from before the
    item, with nothing scored, ends at [last] with [raw], and the score is
    [raw / (last + 1)]. *)
Definition matched (query item : str) (indices : list Z) (score : Float.t)
  : Prop :=
  exists raw last,
    walks item query (-1) (Float.of_int 0) indices raw last
    /\ score = Float.div raw (Float.of_int (last + 1)).

(** [_matches_query] returns a true value. *)
Definition accepts (query item : str) : Prop :=
  exists m, FuzzyFinder._matches_query casefold_char query item = Ok (Some m).

End MatcherSpec.

(* ===================================================================== *)
(** * Further properties stated about the model                           *)
(* ===================================================================== *)

(** The cursor of a line buffer lies between the end of the prompt and the
    end of the text. *)
Definition cursor_ok (self : LineBuffer.t) : Prop :=
  len (LineBuffer._prompt self) <= LineBuffer._pos self
  <= len (LineBuffer._prompt self) + len (LineBuffer._line self).

(** The cursor stands at the end of the text. *)
Definition cursor_at_end (self : LineBuffer.t) : Prop :=
  LineBuffer._pos self
  = len (LineBuffer._prompt self) + len (LineBuffer._line self).

(** A character that [key] hands to [insert] as it is: a code of at least
    0x20 which is no alias of [DEL] or [BACKSPACE]. *)
Definition printable (c : char) : Prop :=
  (32 <= c)%N /\ c <> 46%N /\ c <> 127%N.

(** [key] on each character of [cs] in turn, as long as no call raises. *)
Fixpoint type_all (re_left re_right : str -> option Z) (cs : str)
    (self : LineBuffer.t) : outcome LineBuffer.t (option str) :=
  match cs with
  | [] => Ret None self
  | c :: cs' =>
      match LineBuffer.key re_left re_right [c] self with
      | Ret _ self' => type_all re_left re_right cs' self'
      | r => r
      end
  end.

(** No entry of the history is followed by an equal one. *)
Fixpoint no_repeat (h : list str) : Prop :=
  match h with
  | a :: (b :: _) as h' => a <> b /\ no_repeat h'
  | _ => True
  end.

(** [history_up] called [k] times, as long as no call raises. *)
Fixpoint history_ups (k : nat) (self : LineBuffer.t)
  : outcome LineBuffer.t unit :=
  match k with
  | O => Ret tt self
  | S k' =>
      match LineBuffer.history_up self with
      | Ret _ self' => history_ups k' self'
      | r => r
      end
  end.

(** ** The control sequences of an application

    The private modes and the scrolling region as a terminal keeps them:
    [CSI ? n h] sets mode [n], [CSI ? n l] resets it, [CSI top ; bottom r]
    sets the scrolling region and [CSI ; r] gives the whole screen back.
    A mode the terminal has not been told about is absent. *)
Inductive csi : Type :=
| DecSet (n : Z)
| DecReset (n : Z)
| Region (top bottom : Z)
| RegionReset.

Definition render (c : csi) : str :=
  match c with
  | DecSet n => Ctrl.esc "[?" ++ str_of_int n ++ lit "h"
  | DecReset n => Ctrl.esc "[?" ++ str_of_int n ++ lit "l"
  | Region top bottom =>
      Ctrl.esc "[" ++ str_of_int top ++ lit ";" ++ str_of_int bottom
        ++ lit "r"
  | RegionReset => Ctrl.esc "[;r"
  end.

Record screen : Type := mk_screen {
  modes : gmap Z bool;
  region : option (Z * Z)
}.

Definition obey (s : screen) (c : csi) : screen :=
  match c with
  | DecSet n => mk_screen (<[n := true]> (modes s)) (region s)
  | DecReset n => mk_screen (<[n := false]> (modes s)) (region s)
  | Region top bottom => mk_screen (modes s) (Some (top, bottom))
  | RegionReset => mk_screen (modes s) None
  end.

Definition obey_all (cs : list csi) (s : screen) : screen :=
  fold_left obey cs s.

(** What a sequence assigns: one private mode, or the scrolling region. *)
Definition assigns (c : csi) : option Z :=
  match c with
  | DecSet n | DecReset n => Some n
  | Region _ _ | RegionReset => None
  end.

Definition only_if (b : bool) (c : csi) : list csi :=
  if b then [c] else [].

Definition baseline_csi : list csi :=
  [DecSet 7; DecSet 25; DecReset 1005; DecReset 1006; DecReset 1015;
   DecReset 1003; DecReset 1].

(** The sequences of [open] and of [restore_defaults] under a
    configuration, in the order of the writes. *)
Definition open_csi (c : XTermApplication._XtermAppConfig) : list csi :=
  baseline_csi ++ [DecSet 1]
    ++ only_if (XTermApplication.alternate_buffer c) (DecSet 1049)
    ++ only_if (XTermApplication.utf8_mouse c) (DecSet 1005)
    ++ only_if (XTermApplication.sgr_mouse c) (DecSet 1006)
    ++ only_if (XTermApplication.alternate_scroll c) (DecSet 1007)
    ++ only_if (XTermApplication.urxvt_mouse c) (DecSet 1015)
    ++ only_if (negb (XTermApplication.auto_wrap c)) (DecReset 7)
    ++ only_if (XTermApplication.hide_cursor c) (DecReset 25)
    ++ match XTermApplication.scrolling_region c with
       | Some (top, bottom) => [Region top bottom]
       | None => []
       end
    ++ only_if (negb (XTermApplication.smooth_scroll c)) (DecReset 4)
    ++ only_if (XTermApplication.fast_scroll c) (DecSet 1014)
    ++ only_if (XTermApplication.meta_key c) (DecSet 1034)
    ++ only_if (XTermApplication.alt_numlock c) (DecSet 1035)
    ++ only_if (XTermApplication.mouse_events c) (DecSet 1003).

Definition restore_csi (c : XTermApplication._XtermAppConfig) : list csi :=
  baseline_csi
    ++ only_if (XTermApplication.alternate_scroll c) (DecReset 1007)
    ++ match XTermApplication.scrolling_region c with
       | Some _ => [RegionReset]
       | None => []
       end
    ++ only_if (negb (XTermApplication.smooth_scroll c)) (DecSet 4)
    ++ only_if (XTermApplication.fast_scroll c) (DecReset 1014)
    ++ only_if (XTermApplication.meta_key c) (DecReset 1034)
    ++ only_if (XTermApplication.alt_numlock c) (DecReset 1035)
    ++ only_if (XTermApplication.alternate_buffer c) (DecReset 1049).

(** The text that has reached the target. *)
Definition written (self : XTermApplication.t) : str :=
  concat (XTermApplication._target self).

(** A terminal on which to close an application.  [stty sane] of the GNU
    core utilities on Linux sets the modes [cread -ignbrk brkint -inlcr
    -igncr icrnl icanon iexten echo echoe echok -echonl -noflsh -ixoff
    -iutf8 -iuclc -ixany imaxbel -xcase -olcuc -ocrnl opost -ofill onlcr
    -onocr -onlret nl0 cr0 tab0 bs0 vt0 ff0 isig -tostop -ofdel -echoprt
    echoctl echoke -extproc -flusho] and gives the special characters
    their default values; the other modes and the speeds stay.  In the
    input flags this clears the bits 23233 and sets 8450, in the output
    flags it clears 65530 and sets 5, in the control flags it sets 128, in
    the local flags it clears 71108 and sets 35387; the special characters
    are the first seventeen entries of [cc] ([VINTR] to [VEOL2]). *)
Definition linux_sane (a : TermInReader.termios_attr)
  : TermInReader.termios_attr :=
  TermInReader.mk_attr
    (Z.lor (Z.land (TermInReader.iflag a) (Z.lnot 23233)) 8450)
    (Z.lor (Z.land (TermInReader.oflag a) (Z.lnot 65530)) 5)
    (Z.lor (TermInReader.cflag a) 128)
    (Z.lor (Z.land (TermInReader.lflag a) (Z.lnot 71108)) 35387)
    (TermInReader.ispeed a) (TermInReader.ospeed a)
    ([3; 28; 127; 21; 4; 0; 1; 0; 17; 19; 26; 0; 18; 15; 23; 22; 0]
       ++ skipn 17 (TermInReader.cc a)).

(** What a run of sequences leaves of one mode, and of the region, given
    what was there before. *)
Fixpoint final_mode (n : Z) (cs : list csi) (before : option bool)
  : option bool :=
  match cs with
  | [] => before
  | DecSet m :: cs' =>
      final_mode n cs' (if m =? n then Some true else before)
  | DecReset m :: cs' =>
      final_mode n cs' (if m =? n then Some false else before)
  | _ :: cs' => final_mode n cs' before
  end.

Fixpoint final_region (cs : list csi) (before : option (Z * Z))
  : option (Z * Z) :=
  match cs with
  | [] => before
  | Region top bottom :: cs' => final_region cs' (Some (top, bottom))
  | RegionReset :: cs' => final_region cs' None
  | _ :: cs' => final_region cs' before
  end.

(** An application on the Linux terminal, with its recorder in raw mode
    and the attributes of the terminal saved. *)
Definition safe_by_default (e : exn) : bool :=
  match e with
  | KeyboardInterrupt | SystemExit _ => true
  | _ => false
  end.

Definition linux_app : XTermApplication.t :=
  XTermApplication.mk 1 true XTermApplication.default_config [] 
    safe_by_default.

Definition linux_app_world (saved : option TermInReader.termios_attr)
  : TermInReader.world XTermApplication.t :=
  TermInReader.update 1
    (fun r => TermInReader.set_old_settings saved
                (TermInReader.set_normal false r))
    (TermInReader.__init__ 1 []
       (TermInReader.mk_world (linux_setraw linux_cooked) false false true
          ∅ linux_app)).

(** What [re.search] gives is the end of a match within the string that
    was searched. *)
Definition ends_within (search_end : str -> option Z) : Prop :=
  forall s e, search_end s = Some e -> 0 <= e <= len s.

(** ** The matcher and the highlighting of a match *)

(** Each index is greater than the one before. *)
Fixpoint increasing (l : list Z) : Prop :=
  match l with
  | a :: (b :: _) as l' => a < b /\ increasing l'
  | _ => True
  end.

(** [sub] occurs in [s] at index [i]. *)
Definition occurs (s sub : str) (i : Z) : Prop :=
  0 <= i <= len s /\ startswith (skipn (Z.to_nat i) s) sub = true.

(** What is true of one matched index: it lies in the item, and the
    folded character of the query occurs there in the folded item. *)
Definition match_at (casefold_char : char -> str) (item : str) (c : char)
    (i : Z) : Prop :=
  0 <= i < len item
  /\ occurs (FuzzyFinder.casefold casefold_char item) (casefold_char c) i.

(** The item in which the characters at the indices of [marks] stand
    between the sequences for bold cyan and for normal; [k] is the index
    of the first character of [item]. *)
Fixpoint marked_from (k : Z) (item : str) (marks : list Z) : str :=
  match item with
  | [] => []
  | c :: item' =>
      (if existsb (Z.eqb k) marks
       then Ctrl.esc "[1;36m" ++ [c] ++ Ctrl.esc "[22;39m"
       else [c])
        ++ marked_from (k + 1) item' marks
  end.

Definition marked (item : str) (marks : list Z) : str :=
  marked_from 0 item marks.

(** ** The finder as it renders *)

(** The matcher raises nothing on what the finder lists: the characters
    of the query in use, of the listed items and of the full stop that
    [trim] puts in fold to one character each. *)
Definition readable (casefold_char : char -> str) (self : FuzzyFinder.t)
  : Prop :=
  folds_simply casefold_char (FuzzyFinder._current_query self)
  /\ folds_simply casefold_char (lit ".")
  /\ Forall (folds_simply casefold_char)
       (SequencePointer.seq (FuzzyFinder._sublist self)).

(** Nothing that a finder renders of its list can raise: the list does
    not cycle and its pointer is not negative, as in every finder since
    [__init__], and the matcher raises nothing on what is listed. *)
Definition renders (casefold_char : char -> str) (self : FuzzyFinder.t)
  : Prop :=
  SequencePointer.__cycle (FuzzyFinder._sublist self) = false
  /\ 0 <= SequencePointer.pointer (FuzzyFinder._sublist self)
  /\ readable casefold_char self.

(** A call of the finder that ends in the state [s]: it returns, or
    something that it renders raises [IndexError]. *)
Definition ends_in (o : outcome FuzzyFinder.t unit) (s : FuzzyFinder.t)
  : Prop :=
  o = Ret tt s \/ o = Raise IndexError s.

(** ** The menu *)

(** A method that leaves the stack of menus and the menu objects as they
    are, however it ends. *)
Definition keeps_menus {T A : Type} (m : BaseMenu.method T A) : Prop :=
  forall self,
    BaseMenu.menus (BaseMenu.state_after (m self)) = BaseMenu.menus self
    /\ BaseMenu.heap (BaseMenu.state_after (m self)) = BaseMenu.heap self.

(** A menu application in its context on a terminal of 20 columns, with
    one menu of three items, the pointer on the second. *)
Definition three_items : list (str * nat) :=
  [(lit "File", 1%nat); (lit "Preferences", 2%nat); (lit "Quit", 3%nat)].

Definition menu_of_three (mode : str) : BaseMenu.t nat :=
  BaseMenu.mk linux_app [7%nat]
    {[ 7%nat := BaseMenu.mk_menu (SequencePointer.mk three_items 1 true)
                  None mode ]}.

Definition no_call (item : nat) : BaseMenu.method nat unit :=
  BaseMenu.ret nat tt.
(* ===================================================================== *)
(** * Facts about the Python built-ins                                    *)
(* ===================================================================== *)

Section PyFacts.

Context {A : Type}.
Implicit Types (s : list A) (i n : Z).

Lemma len_nonneg s : 0 <= len s.
Proof. unfold len. lia. Qed.

Lemma len_app s1 s2 : len (s1 ++ s2) = len s1 + len s2.
Proof. unfold len. rewrite length_app. lia. Qed.

Lemma slice_bound_in_range n i : 0 <= i <= n -> slice_bound n i = i.
Proof. unfold slice_bound. intros H. destruct (Z.ltb_spec i 0); lia. Qed.

(** Inside the string a slice is [firstn] or [skipn]. *)
Lemma slice_to_in_range s i :
  0 <= i <= len s -> slice_to s i = firstn (Z.to_nat i) s.
Proof. intros H. unfold slice_to. now rewrite slice_bound_in_range. Qed.

Lemma slice_from_in_range s i :
  0 <= i <= len s -> slice_from s i = skipn (Z.to_nat i) s.
Proof. intros H. unfold slice_from. now rewrite slice_bound_in_range. Qed.

Lemma slice_beyond (l : list A) (i : Z) :
  len l <= i -> slice_to l i = l /\ slice_from l i = [].
Proof.
  intros H. pose proof (len_nonneg l) as Hl.
  unfold slice_to, slice_from, slice_bound.
  destruct (Z.ltb_spec i 0); [lia |].
  rewrite Z.min_r by lia. unfold len. rewrite Nat2Z.id.
  split; [apply firstn_all | apply skipn_all].
Qed.

Lemma slice_from_len s : slice_from s (len s) = [].
Proof.
  rewrite slice_from_in_range by (pose proof (len_nonneg s); lia).
  unfold len. rewrite Nat2Z.id. apply skipn_all.
Qed.

End PyFacts.

(* ===================================================================== *)
(** * utils.py: trim                                                      *)
(* ===================================================================== *)

Lemma trim_short (s : str) (w : Z) : len s < w -> trim s w 0 = s.
Proof.
  intros H. unfold trim.
  destruct (Z.leb_spec w (len s)); [lia |].
  now rewrite andb_false_r.
Qed.

Lemma trim_long (s : str) (w : Z) :
  3 <= w <= len s -> trim s w 0 = firstn (Z.to_nat (w - 3)) s ++ lit "...".
Proof.
  intros H. unfold trim.
  destruct (Z.leb_spec 3 w); [| lia].
  destruct (Z.leb_spec w (len s)); [| lia]. simpl andb. cbv iota.
  rewrite !Z.sub_0_r, slice_from_len, app_nil_r.
  now rewrite slice_to_in_range by lia.
Qed.

(** C9, as amended.  For every string [s] and width [w >= 3], [trim(s, w)]
    is never longer than [w]; it is [s] itself when [len(s) < w]; and when
    [len(s) > w] it is the first [w - 3] characters of [s] followed by the
    ellipsis ['...'], of length exactly [w]. *)
Theorem trim_width (s : str) (w : Z) :
  3 <= w ->
  len (trim s w 0) <= w
  /\ (len s < w -> trim s w 0 = s)
  /\ (w < len s ->
      trim s w 0 = firstn (Z.to_nat (w - 3)) s ++ lit "..."
      /\ len (trim s w 0) = w).
Proof.
  intros Hw.
  assert (Hlong : w <= len s -> len (trim s w 0) = w).
  { intros H. rewrite trim_long by lia. rewrite len_app.
    unfold len in *. rewrite length_firstn. simpl. lia. }
  split; [| split].
  - destruct (Z.le_gt_cases w (len s)) as [H | H].
    + rewrite Hlong; lia.
    + rewrite trim_short; lia.
  - apply trim_short.
  - intros H. split; [apply trim_long | apply Hlong]; lia.
Qed.

Lemma trim_width_witness :
  3 <= 5
  /\ len (trim (lit "abcdefgh") 5 0) <= 5
  /\ (len (lit "abcdefgh") < 5 -> trim (lit "abcdefgh") 5 0 = lit "abcdefgh")
  /\ (5 < len (lit "abcdefgh") ->
      trim (lit "abcdefgh") 5 0
      = firstn (Z.to_nat (5 - 3)) (lit "abcdefgh") ++ lit "..."
      /\ len (trim (lit "abcdefgh") 5 0) = 5).
Proof. split; [lia | apply (trim_width (lit "abcdefgh") 5); lia]. Defined.

(** C9 fails as stated: [trim('...abcdef', 8)] is ['...ab...'], which holds
    two ellipses although the string is longer than the width. *)
Lemma trim_two_ellipses :
  3 <= 8
  /\ 8 < len (lit "...abcdef")
  /\ trim (lit "...abcdef") 8 0 = lit "...ab..."
  /\ count (trim (lit "...abcdef") 8 0) (lit "...") = 2.
Proof. repeat split; vm_compute; congruence. Qed.

(* ===================================================================== *)
(** * utils.py: SequencePointer                                           *)
(* ===================================================================== *)

Section SequencePointerFacts.

Import SequencePointer.
Context {T : Type}.
Implicit Types (self : t T) (k : Z).

Lemma next_seq self k : seq (next self k) = seq self.
Proof. unfold next. now destruct (_ >? _). Qed.

Lemma previous_seq self k : seq (previous self k) = seq self.
Proof. unfold previous. now destruct (_ <? _). Qed.

Lemma next_cycle self k : __cycle (next self k) = __cycle self.
Proof. unfold next. now destruct (_ >? _). Qed.

Lemma previous_cycle self k : __cycle (previous self k) = __cycle self.
Proof. unfold previous. now destruct (_ <? _). Qed.

(** Without the cycle flag [next] and [previous] clamp. *)
Lemma next_clamps self k :
  __cycle self = false -> 0 < len (seq self) -> 0 <= k ->
  0 <= _pointer self < len (seq self) ->
  _pointer (next self k) = Z.min (_pointer self + k) (len (seq self) - 1).
Proof.
  intros Hc Hn Hk Hp. unfold next. rewrite Hc.
  destruct (Z.gtb_spec (_pointer self + k + 1) (len (seq self)));
    simpl; lia.
Qed.

Lemma previous_clamps self k :
  __cycle self = false -> 0 <= k ->
  0 <= _pointer self ->
  _pointer (previous self k) = Z.max (_pointer self - k) 0.
Proof.
  intros Hc Hk Hp. unfold previous. rewrite Hc.
  destruct (Z.ltb_spec (_pointer self - k) 0); simpl; lia.
Qed.

(** With the cycle flag they wrap, as long as the step does not exceed
    the length. *)
Lemma next_wraps_once self k :
  __cycle self = true -> 0 <= k <= len (seq self) ->
  0 <= _pointer self < len (seq self) ->
  _pointer (next self k) = (_pointer self + k) mod len (seq self).
Proof.
  intros Hc Hk Hp. unfold next. rewrite Hc.
  destruct (Z.gtb_spec (_pointer self + k + 1) (len (seq self))); simpl.
  - apply Z.mod_unique with (q := 1); lia.
  - symmetry. apply Z.mod_small. lia.
Qed.

Lemma previous_wraps_once self k :
  __cycle self = true -> 0 <= k <= len (seq self) ->
  0 <= _pointer self < len (seq self) ->
  _pointer (previous self k) = (_pointer self - k) mod len (seq self).
Proof.
  intros Hc Hk Hp. unfold previous. rewrite Hc.
  destruct (Z.ltb_spec (_pointer self - k) 0); simpl.
  - apply Z.mod_unique with (q := -1); lia.
  - symmetry. apply Z.mod_small. lia.
Qed.

(** The pointer stays in range in all these cases. *)
Lemma next_in_range self k :
  0 <= k -> 0 <= _pointer self < len (seq self) ->
  __cycle self = false \/ k <= len (seq self) ->
  0 <= _pointer (next self k) < len (seq self).
Proof.
  intros Hk Hp Hc. destruct (__cycle self) eqn:E.
  - rewrite next_wraps_once by (auto; lia).
    apply Z.mod_pos_bound. lia.
  - rewrite next_clamps by (auto; lia). lia.
Qed.

Lemma previous_in_range self k :
  0 <= k -> 0 <= _pointer self < len (seq self) ->
  __cycle self = false \/ k <= len (seq self) ->
  0 <= _pointer (previous self k) < len (seq self).
Proof.
  intros Hk Hp Hc. destruct (__cycle self) eqn:E.
  - rewrite previous_wraps_once by (auto; lia).
    apply Z.mod_pos_bound. lia.
  - rewrite previous_clamps by (auto; lia). lia.
Qed.

End SequencePointerFacts.

(** C1: the code at a step of more than one turn.  On a cyclic list of
    three items with the pointer at 0, [next(7)] leaves the pointer at 4
    and [previous(7)] at -4, where [(0 + 7) mod 3] is 1 and
    [(0 - 7) mod 3] is 2: the wrap is one subtraction (or addition) of the
    length, so the pointer leaves the list. *)
Theorem next_cyclic_beyond_one_turn :
  let self := SequencePointer.__init__ [lit "a"; lit "b"; lit "c"] true in
  SequencePointer._pointer self = 0
  /\ SequencePointer._pointer (SequencePointer.next self 7) = 4
  /\ (0 + 7) mod 3 = 1
  /\ SequencePointer._pointer (SequencePointer.previous self 7) = -4
  /\ (0 - 7) mod 3 = 2.
Proof. repeat split. Qed.

(** C2 fails as stated: on an empty list that does not cycle, [next(1)]
    moves the pointer from 0 to -1, and on an empty cyclic list to 1. *)
Lemma next_on_empty_moves :
  SequencePointer._pointer (SequencePointer.__init__ (@nil str) false) = 0
  /\ SequencePointer._pointer
       (SequencePointer.next (SequencePointer.__init__ (@nil str) false) 1)
     = -1
  /\ SequencePointer._pointer
       (SequencePointer.next (SequencePointer.__init__ (@nil str) true) 1)
     = 1.
Proof. repeat split. Qed.

(* ===================================================================== *)
(** * apps.py: the viewport of the FuzzyFinder                            *)
(* ===================================================================== *)

Section ViewportFacts.

Import FuzzyFinder.
Implicit Types (self : FuzzyFinder.t) (n : Z).

(** On an empty sublist [next_item] and [previous_item] do nothing. *)
Lemma next_item_empty self n :
  len (SequencePointer.seq (_sublist self)) = 0 -> next_item n self = self.
Proof. intros H. unfold next_item. now rewrite H. Qed.

Lemma previous_item_empty self n :
  len (SequencePointer.seq (_sublist self)) = 0 ->
  previous_item n self = self.
Proof. intros H. unfold previous_item. now rewrite H. Qed.

(** A new finder shows its first item, on a terminal of three lines or
    more. *)
Lemma init_viewport_ok (objects : list str) (lines : Z) :
  objects <> [] -> 3 <= lines -> viewport_ok (__init__ objects lines).
Proof.
  intros Hne Hl. unfold viewport_ok, __init__. simpl.
  assert (0 < len objects)
    by (destruct objects; [congruence | unfold len; simpl; lia]).
  unfold SequencePointer.pointer. simpl. lia.
Qed.

(** What [next_item] does to the pointer and to the window. *)
Lemma next_item_spec self n :
  1 <= _maxlines self -> 0 <= n -> viewport_ok self ->
  let self' := next_item n self in
  let len_ := len (SequencePointer.seq (_sublist self)) in
  let p' := Z.min (SequencePointer.pointer (_sublist self) + n) (len_ - 1) in
  SequencePointer.seq (_sublist self') = SequencePointer.seq (_sublist self)
  /\ SequencePointer.__cycle (_sublist self') = false
  /\ _maxlines self' = _maxlines self
  /\ SequencePointer.pointer (_sublist self') = p'
  /\ _start_index self'
     = (if p' <? _start_index self + _maxlines self
        then _start_index self else p' - _maxlines self + 1).
Proof.
  intros Hm Hn (Hc & Hlen & Hp & Hs & Hw). cbv zeta.
  unfold SequencePointer.pointer in *.
  pose proof (next_clamps (_sublist self) n Hc Hlen Hn Hp) as Hnext.
  unfold next_item.
  destruct (Z.eqb_spec (len (SequencePointer.seq (_sublist self))) 0);
    [lia |].
  simpl negb. cbv iota. unfold SequencePointer.pointer. simpl.
  rewrite Hnext.
  set (p' := Z.min (SequencePointer._pointer (_sublist self) + n)
                (len (SequencePointer.seq (_sublist self)) - 1)) in *.
  destruct (Z.geb_spec p' (_start_index self + _maxlines self)) as [G | G].
  - unfold scroll_down. simpl. rewrite next_seq.
    destruct (Z.ltb_spec (_start_index self + _maxlines self)
                (len (SequencePointer.seq (_sublist self)))); [| lia].
    simpl. rewrite next_seq, next_cycle, Hnext. fold p'.
    destruct (Z.ltb_spec p' (_start_index self + _maxlines self)); [lia |].
    repeat split; auto; lia.
  - simpl. rewrite next_seq, next_cycle, Hnext. fold p'.
    destruct (Z.ltb_spec p' (_start_index self + _maxlines self)); [| lia].
    repeat split; auto.
Qed.

(** What [previous_item] does to the pointer and to the window. *)
Lemma previous_item_spec self n :
  1 <= _maxlines self -> 0 <= n -> viewport_ok self ->
  let self' := previous_item n self in
  let p' := Z.max (SequencePointer.pointer (_sublist self) - n) 0 in
  SequencePointer.seq (_sublist self') = SequencePointer.seq (_sublist self)
  /\ SequencePointer.__cycle (_sublist self') = false
  /\ _maxlines self' = _maxlines self
  /\ SequencePointer.pointer (_sublist self') = p'
  /\ _start_index self'
     = (if p' <? _start_index self then p' else _start_index self).
Proof.
  intros Hm Hn (Hc & Hlen & Hp & Hs & Hw). cbv zeta.
  unfold SequencePointer.pointer in *.
  assert (Hp0 : 0 <= SequencePointer._pointer (_sublist self)) by lia.
  pose proof (previous_clamps (_sublist self) n Hc Hn Hp0) as Hprev.
  unfold previous_item.
  destruct (Z.eqb_spec (len (SequencePointer.seq (_sublist self))) 0);
    [lia |].
  simpl negb. cbv iota. unfold SequencePointer.pointer. simpl.
  rewrite Hprev.
  set (p' := Z.max (SequencePointer._pointer (_sublist self) - n) 0) in *.
  destruct (Z.ltb_spec p' (_start_index self)) as [G | G].
  - unfold scroll_to_view, SequencePointer.pointer. simpl. rewrite Hprev.
    fold p'.
    destruct (Z.leb_spec 0 (p' - _start_index self)); [lia |].
    simpl. destruct (Z.ltb_spec (p' - _start_index self) 0); [| lia].
    unfold scroll_up. simpl.
    destruct (Z.gtb_spec (_start_index self) 0); [| lia].
    simpl. rewrite previous_seq, previous_cycle, Hprev. fold p'.
    repeat split; auto; lia.
  - simpl. rewrite previous_seq, previous_cycle, Hprev. fold p'.
    repeat split; auto.
Qed.

End ViewportFacts.

(** After a move the pointer is shown, and the window has moved by the
    least amount that shows it. *)
Lemma next_item_viewport (self : FuzzyFinder.t) (n : Z) :
  1 <= FuzzyFinder._maxlines self -> 0 <= n -> viewport_ok self ->
  viewport_ok (FuzzyFinder.next_item n self)
  /\ (forall s : Z,
         shows (FuzzyFinder._maxlines self) s
               (SequencePointer.pointer
                  (FuzzyFinder._sublist (FuzzyFinder.next_item n self))) ->
         Z.abs (FuzzyFinder._start_index (FuzzyFinder.next_item n self)
                - FuzzyFinder._start_index self)
         <= Z.abs (s - FuzzyFinder._start_index self)).
Proof.
  intros Hm Hn Hok.
  destruct (next_item_spec self n Hm Hn Hok) as (Hseq & Hc & Hml & Hp & Hs).
  destruct Hok as (_ & Hlen & Hp0 & Hs0 & Hw).
  unfold viewport_ok, shows. rewrite Hseq, Hc, Hml, Hp, Hs.
  destruct (Z.ltb_spec
              (Z.min (SequencePointer.pointer (FuzzyFinder._sublist self) + n)
                 (len (SequencePointer.seq (FuzzyFinder._sublist self)) - 1))
              (FuzzyFinder._start_index self + FuzzyFinder._maxlines self));
    (split; [repeat split; try lia; auto | intros s Hsh; lia]).
Qed.

Lemma previous_item_viewport (self : FuzzyFinder.t) (n : Z) :
  1 <= FuzzyFinder._maxlines self -> 0 <= n -> viewport_ok self ->
  viewport_ok (FuzzyFinder.previous_item n self)
  /\ (forall s : Z,
         shows (FuzzyFinder._maxlines self) s
               (SequencePointer.pointer
                  (FuzzyFinder._sublist (FuzzyFinder.previous_item n self))) ->
         Z.abs (FuzzyFinder._start_index (FuzzyFinder.previous_item n self)
                - FuzzyFinder._start_index self)
         <= Z.abs (s - FuzzyFinder._start_index self)).
Proof.
  intros Hm Hn Hok.
  destruct (previous_item_spec self n Hm Hn Hok)
    as (Hseq & Hc & Hml & Hp & Hs).
  destruct Hok as (_ & Hlen & Hp0 & Hs0 & Hw).
  unfold viewport_ok, shows. rewrite Hseq, Hc, Hml, Hp, Hs.
  destruct (Z.ltb_spec
              (Z.max (SequencePointer.pointer (FuzzyFinder._sublist self) - n)
                 0)
              (FuzzyFinder._start_index self));
    (split; [repeat split; try lia; auto | intros s Hsh; lia]).
Qed.

(** So the pointer is shown after any run of moves of a new finder. *)
Lemma viewport_ok_after_moves (objects : list str) (lines : Z)
    (ms : list move) :
  objects <> [] -> 3 <= lines ->
  List.Forall (fun m => 0 <= steps m) ms ->
  viewport_ok (do_moves (FuzzyFinder.__init__ objects lines) ms).
Proof.
  intros Hne Hl Hms.
  assert (H : forall self,
             viewport_ok self /\ 1 <= FuzzyFinder._maxlines self ->
             viewport_ok (do_moves self ms)
             /\ 1 <= FuzzyFinder._maxlines (do_moves self ms)).
  { induction Hms as [| m ms Hm _ IH]; intros self [Hok Hmax];
      [now split |].
    apply IH. destruct m as [n | n]; simpl in *.
    - split.
      + now apply next_item_viewport.
      + destruct (next_item_spec self n Hmax Hm Hok) as (_ & _ & -> & _).
        exact Hmax.
    - split.
      + now apply previous_item_viewport.
      + destruct (previous_item_spec self n Hmax Hm Hok) as (_ & _ & -> & _).
        exact Hmax. }
  apply H. split; [now apply init_viewport_ok | simpl; lia].
Qed.

(** C5.  In a finder whose sublist is not empty and whose pointer is
    shown, on a window of at least one line: after [next_item(n)] and after
    [previous_item(n)], for [n >= 0], the pointer lies in the window
    [[start_index, start_index + max_lines)] and [start_index] in
    [[0, max(0, len - max_lines)]]; the window has moved by the least
    amount that shows the pointer; and on 50 items with [max_lines = 10],
    from pointer 0, [next_item(15)] gives pointer 15 and [start_index] 6,
    then [previous_item(20)] gives pointer 0 and [start_index] 0. *)
Theorem viewport_follows_pointer :
  (forall (self : FuzzyFinder.t) (n : Z),
      1 <= FuzzyFinder._maxlines self -> 0 <= n -> viewport_ok self ->
      forall self',
        self' = FuzzyFinder.next_item n self
        \/ self' = FuzzyFinder.previous_item n self ->
        viewport_ok self'
        /\ (forall s : Z,
               shows (FuzzyFinder._maxlines self) s
                     (SequencePointer.pointer (FuzzyFinder._sublist self')) ->
               Z.abs (FuzzyFinder._start_index self'
                      - FuzzyFinder._start_index self)
               <= Z.abs (s - FuzzyFinder._start_index self)))
  /\ (let self := FuzzyFinder.__init__ (repeat (lit "item") 50) 12 in
      let self1 := FuzzyFinder.next_item 15 self in
      let self2 := FuzzyFinder.previous_item 20 self1 in
      FuzzyFinder._maxlines self = 10
      /\ SequencePointer.pointer (FuzzyFinder._sublist self) = 0
      /\ SequencePointer.pointer (FuzzyFinder._sublist self1) = 15
      /\ FuzzyFinder._start_index self1 = 6
      /\ SequencePointer.pointer (FuzzyFinder._sublist self2) = 0
      /\ FuzzyFinder._start_index self2 = 0).
Proof.
  split; [| vm_compute; repeat split].
  intros self n Hm Hn Hok self' [-> | ->].
  - now apply next_item_viewport.
  - now apply previous_item_viewport.
Qed.

Lemma viewport_follows_pointer_witness :
  let self := FuzzyFinder.__init__ (repeat (lit "item") 50) 12 in
  1 <= FuzzyFinder._maxlines self
  /\ 0 <= 15
  /\ viewport_ok self
  /\ viewport_ok (FuzzyFinder.next_item 15 self).
Proof.
  cbv zeta.
  assert (H1 : 1 <= FuzzyFinder._maxlines
                      (FuzzyFinder.__init__ (repeat (lit "item") 50) 12))
    by (vm_compute; discriminate).
  assert (H2 : 0 <= 15) by lia.
  assert (H3 : viewport_ok (FuzzyFinder.__init__ (repeat (lit "item") 50) 12))
    by (apply init_viewport_ok; [discriminate | lia]).
  split; [exact H1 | split; [exact H2 | split; [exact H3 |]]].
  exact (proj1 (proj1 viewport_follows_pointer _ 15 H1 H2 H3 _
                  (or_introl eq_refl))).
Defined.

(** C2, as amended.  On a list whose pointer is in range, [next(k)] and
    [previous(k)] with [k >= 0] leave the pointer in [[0, len)] when the
    list does not cycle, and when it cycles for [k <= len]; assigning a
    pointer above [len - 1] clamps it to [len - 1], and assigning one that
    is not negative to a list that is not empty leaves it in range; a new
    list has pointer 0; on an empty list that does not cycle [previous]
    leaves the pointer at 0; and the finder calls neither on an empty
    sublist: there [next_item] and [previous_item] change nothing. *)
Theorem pointer_stays_in_range (T : Type) :
  (forall (self : SequencePointer.t T) (k : Z),
      0 <= k ->
      0 <= SequencePointer._pointer self < len (SequencePointer.seq self) ->
      SequencePointer.__cycle self = false
      \/ k <= len (SequencePointer.seq self) ->
      0 <= SequencePointer._pointer (SequencePointer.next self k)
        < len (SequencePointer.seq self)
      /\ 0 <= SequencePointer._pointer (SequencePointer.previous self k)
           < len (SequencePointer.seq self))
  /\ (forall (self : SequencePointer.t T) (v : Z),
         (len (SequencePointer.seq self) - 1 < v ->
          SequencePointer.pointer (SequencePointer.set_pointer self v)
          = len (SequencePointer.seq self) - 1)
         /\ (0 < len (SequencePointer.seq self) -> 0 <= v ->
             0 <= SequencePointer.pointer (SequencePointer.set_pointer self v)
               < len (SequencePointer.seq self)))
  /\ (forall (l : list T) (c : bool),
         SequencePointer.pointer (SequencePointer.__init__ l c) = 0)
  /\ (forall k : Z,
         0 <= k ->
         SequencePointer._pointer
           (SequencePointer.previous (SequencePointer.__init__ (@nil T) false)
              k) = 0)
  /\ (forall (self : FuzzyFinder.t) (n : Z),
         len (SequencePointer.seq (FuzzyFinder._sublist self)) = 0 ->
         FuzzyFinder.next_item n self = self
         /\ FuzzyFinder.previous_item n self = self).
Proof.
  split; [| split; [| split; [| split]]].
  - intros self k Hk Hp Hc. split.
    + now apply next_in_range.
    + now apply previous_in_range.
  - intros self v. unfold SequencePointer.set_pointer, SequencePointer.pointer.
    simpl. split.
    + intros Hv.
      destruct (Z.ltb_spec v (len (SequencePointer.seq self))); lia.
    + intros Hn Hv.
      destruct (Z.ltb_spec v (len (SequencePointer.seq self))); lia.
  - reflexivity.
  - intros k Hk. unfold SequencePointer.previous. simpl.
    destruct (Z.ltb_spec (0 - k) 0); simpl; lia.
  - intros self n H. split.
    + now apply next_item_empty.
    + now apply previous_item_empty.
Qed.

Lemma pointer_stays_in_range_witness :
  let self := SequencePointer.__init__ [lit "a"; lit "b"; lit "c"] true in
  0 <= 2
  /\ 0 <= SequencePointer._pointer self < len (SequencePointer.seq self)
  /\ 0 <= SequencePointer._pointer (SequencePointer.next self 2)
       < len (SequencePointer.seq self)
  /\ 0 <= SequencePointer._pointer (SequencePointer.previous self 2)
       < len (SequencePointer.seq self).
Proof.
  cbv zeta.
  assert (H1 : 0 <= 2) by lia.
  assert (H2 : 0 <= SequencePointer._pointer
                      (SequencePointer.__init__
                         [lit "a"; lit "b"; lit "c"] true)
               < len (SequencePointer.seq
                        (SequencePointer.__init__
                           [lit "a"; lit "b"; lit "c"] true)))
    by (vm_compute; split; [discriminate | reflexivity]).
  assert (H3 : SequencePointer.__cycle
                 (SequencePointer.__init__ [lit "a"; lit "b"; lit "c"] true)
               = false
               \/ 2 <= len (SequencePointer.seq
                              (SequencePointer.__init__
                                 [lit "a"; lit "b"; lit "c"] true)))
    by (right; vm_compute; discriminate).
  split; [exact H1 | split; [exact H2 |]].
  exact (proj1 (pointer_stays_in_range str) _ 2 H1 H2 H3).
Defined.

(* ===================================================================== *)
(** * utils.py: which single characters are keys                          *)
(* ===================================================================== *)

Lemma str_eqb_refl (a : str) : str_eqb a a = true.
Proof. unfold str_eqb. now apply bool_decide_eq_true_2. Qed.

Lemma str_eqb_single (c d : char) : str_eqb [c] [d] = (c =? d)%N.
Proof.
  unfold str_eqb. destruct (N.eqb_spec c d) as [-> | Hne].
  - now apply bool_decide_eq_true_2.
  - apply bool_decide_eq_false_2. congruence.
Qed.

Lemma str_eqb_single_long (c d e : char) (l : str) :
  str_eqb [c] (d :: e :: l) = false.
Proof. unfold str_eqb. apply bool_decide_eq_false_2. congruence. Qed.

(** A single character that is an alias of some key is a control
    character, the space, the full stop (an alias of [DEL]) or ['\x7f'] (an
    alias of [BACKSPACE]). *)
Lemma single_char_alias (c : char) (m : Ctrl.t) :
  Ctrl.eq [c] m = true ->
  (c < 32)%N
  \/ (c = 32%N /\ m = Ctrl.SPACE)
  \/ (c = 46%N /\ m = Ctrl.DEL)
  \/ (c = 127%N /\ m = Ctrl.BACKSPACE).
Proof.
  intros H. unfold Ctrl.eq in H.
  destruct m; cbv - [str_eqb orb] in H;
    rewrite ?str_eqb_single, ?str_eqb_single_long, ?orb_false_r in H;
    repeat match goal with
           | H : (_ || _) = true |- _ =>
               apply orb_true_iff in H; destruct H as [H | H]
           | H : (_ =? _)%N = true |- _ => apply N.eqb_eq in H; subst c
           | H : false = true |- _ => discriminate H
           end;
    first [ left; reflexivity
          | right; left; split; reflexivity
          | right; right; left; split; reflexivity
          | right; right; right; split; reflexivity ].
Qed.

Lemma printable_is_no_key (c : char) (m : Ctrl.t) :
  (32 <= c)%N -> c <> 46%N -> c <> 127%N -> m <> Ctrl.SPACE ->
  Ctrl.eq [c] m = false.
Proof.
  intros H32 H46 H127 Hm. destruct (Ctrl.eq [c] m) eqn:E; [| reflexivity].
  apply single_char_alias in E.
  destruct E as [E | [[_ E] | [[E _] | [E _]]]]; [lia | congruence ..].
Qed.

(* ===================================================================== *)
(** * termutils.py: LineBuffer                                            *)
(* ===================================================================== *)

Section LineBufferFacts.

Import LineBuffer.
Implicit Types (self : LineBuffer.t) (burst : str) (c : char).

Lemma isspace_Forall burst :
  isspace burst = true
  <-> burst <> [] /\ Forall (fun c => isspace_char c = true) burst.
Proof.
  unfold isspace. destruct burst as [| c burst].
  - split; [discriminate | intros [H _]; congruence].
  - rewrite forallb_forall, Forall_forall. split.
    + intros H. split; [discriminate |].
      intros x Hx. apply H. now apply list_elem_of_In.
    + intros [_ H] x Hx. apply H. now apply list_elem_of_In.
Qed.

(** An alias of [ENTER] made of white space only is ['\r'] or ['\n']. *)
Lemma ne_ENTER_space burst :
  isspace burst = true ->
  Ctrl.ne burst Ctrl.ENTER = true <-> burst <> [13%N] /\ burst <> [10%N].
Proof.
  intros Hsp.
  assert (E : Ctrl.eq burst Ctrl.ENTER
              = str_eqb burst [13%N]
                || (str_eqb burst [10%N]
                    || (str_eqb burst [27%N; 79%N; 77%N] || false)))
    by reflexivity.
  unfold Ctrl.ne. rewrite E, !orb_false_r, negb_true_iff, !orb_false_iff.
  unfold str_eqb. rewrite !bool_decide_eq_false. split.
  - intros (H1 & H2 & _). now split.
  - intros [H1 H2]. repeat split; try assumption.
    intros ->. discriminate Hsp.
Qed.

(** When [insert] takes a burst. *)
Lemma insert_accepts_iff burst :
  insert_accepts burst = true
  <-> (burst <> [] /\ Forall (fun c => isspace_char c = true) burst
       /\ burst <> [13%N] /\ burst <> [10%N])
      \/ (exists c, burst = [c] /\ (32 <= c)%N).
Proof.
  unfold insert_accepts. rewrite orb_true_iff, andb_true_iff. split.
  - intros [[Hne Hsp] | H].
    + left. pose proof Hsp as Hsp'. apply isspace_Forall in Hsp' as [H1 H2].
      apply (ne_ENTER_space burst Hsp) in Hne. tauto.
    + right. destruct burst as [| c [| d burst]]; try discriminate.
      exists c. split; [reflexivity |].
      apply negb_true_iff, andb_false_iff in H.
      destruct H as [H | H].
      * apply Z.leb_gt in H. lia.
      * apply Z.ltb_ge in H. lia.
  - intros [(H1 & H2 & H3 & H4) | (c & -> & Hc)].
    + left. assert (Hsp : isspace burst = true) by now apply isspace_Forall.
      split; [| exact Hsp]. now apply ne_ENTER_space.
    + right. apply negb_true_iff, andb_false_iff. right.
      apply Z.ltb_ge. lia.
Qed.

(** What [insert] does with a burst that it takes, and with one that it
    does not. *)
Lemma insert_accepted burst self :
  insert_accepts burst = true ->
  insert burst self
  = set_pos (_pos self + 1)
      (set_line (slice_to (_line self) (_pos self) ++ burst
                   ++ slice_from (_line self) (_pos self)) self).
Proof. intros H. unfold insert. now rewrite H. Qed.

Lemma insert_rejected burst self :
  insert_accepts burst = false -> insert burst self = self.
Proof. intros H. unfold insert. now rewrite H. Qed.

Variable re_search_left_end : str -> option Z.
Variable re_search_right_end : str -> option Z.

(** A burst that is no alias of a key of [key] goes to [insert]. *)
Lemma key_plain burst self :
  (forall m, In m [Ctrl.DEL; Ctrl.BACKSPACE; Ctrl.TAB; Ctrl.R_ARROW;
                   Ctrl.L_ARROW; Ctrl.HOME; Ctrl.END; Ctrl.CTRL_LARROW;
                   Ctrl.OPT_LARROW; Ctrl.CTRL_RARROW; Ctrl.OPT_RARROW;
                   Ctrl.U_ARROW; Ctrl.D_ARROW; Ctrl.ENTER] ->
             Ctrl.eq burst m = false) ->
  key re_search_left_end re_search_right_end burst self
  = Ret None (insert burst self).
Proof.
  intros H. unfold key, cursor_keys, bind, get, modify, ret.
  rewrite !H by (simpl; tauto). simpl.
  rewrite andb_false_r.
  destruct (__cursor_movement self), (__use_history self); reflexivity.
Qed.

(** [key] on an alias of [TAB]. *)
Lemma key_tab burst self :
  In burst (Ctrl.codes Ctrl.TAB) ->
  key re_search_left_end re_search_right_end burst self
  = Ret None (insert (tab_expandtabs (__tabsize self)) self).
Proof.
  intros [<- | [<- | []]]; reflexivity.
Qed.

End LineBufferFacts.

Lemma tab_run_accepted (t : Z) :
  0 < t -> LineBuffer.insert_accepts (tab_expandtabs t) = true.
Proof.
  intros Ht. apply insert_accepts_iff. left. unfold tab_expandtabs.
  destruct (Z.ltb_spec 0 t); [| lia].
  destruct (Z.to_nat t) as [| n] eqn:E; [lia |]. simpl.
  repeat split; try discriminate.
  apply List.Forall_forall. intros x [<- | Hx]; [reflexivity |].
  apply repeat_spec in Hx. now subst x.
Qed.

(** C6, as amended.  [insert] takes a burst if and only if it is not empty,
    made of white space only and neither ['\r'] nor ['\n'], or it is a
    single character of code at least 0x20.  A burst that is taken adds 1
    to [_pos]; with the cursor within the text, where it stands
    [_pos - len(_prompt)] characters into it, the burst goes into the
    text at the cursor when the prompt is empty or the cursor is at the
    end of the text.  A burst that is not taken changes nothing.  For every single character [c] of code at
    least 0x20 that is no alias of [DEL] or [BACKSPACE] (the full stop and
    ['\x7f'] are), [key(c)] is [insert(c)], which takes it. *)
Theorem insert_takes_blank_or_printable :
  (forall burst : str,
      LineBuffer.insert_accepts burst = true
      <-> (burst <> [] /\ Forall (fun c => isspace_char c = true) burst
           /\ burst <> [13%N] /\ burst <> [10%N])
          \/ (exists c, burst = [c] /\ (32 <= c)%N))
  /\ (forall (burst : str) (self : LineBuffer.t),
         LineBuffer.insert_accepts burst = true ->
         let cursor := LineBuffer._pos self - len (LineBuffer._prompt self) in
         LineBuffer._pos (LineBuffer.insert burst self)
         = LineBuffer._pos self + 1
         /\ (0 <= cursor <= len (LineBuffer._line self) ->
             LineBuffer._prompt self = []
             \/ cursor = len (LineBuffer._line self) ->
             LineBuffer._line (LineBuffer.insert burst self)
             = firstn (Z.to_nat cursor) (LineBuffer._line self)
                 ++ burst
                 ++ skipn (Z.to_nat cursor) (LineBuffer._line self)))
  /\ (forall (burst : str) (self : LineBuffer.t),
         LineBuffer.insert_accepts burst = false ->
         LineBuffer.insert burst self = self)
  /\ (forall (re_left re_right : str -> option Z) (c : char)
             (self : LineBuffer.t),
         (32 <= c)%N -> c <> 46%N -> c <> 127%N ->
         LineBuffer.key re_left re_right [c] self
         = Ret None (LineBuffer.insert [c] self)
         /\ LineBuffer.insert_accepts [c] = true).
Proof.
  split; [exact insert_accepts_iff | split; [| split]].
  - intros burst self H. rewrite (insert_accepted burst self H). simpl.
    split; [reflexivity |]. intros Hc [Hp | He].
    + rewrite Hp in *. change (len (@nil char)) with 0 in *.
      rewrite Z.sub_0_r in *.
      now rewrite slice_to_in_range, slice_from_in_range.
    + pose proof (len_nonneg (LineBuffer._prompt self)) as Hn.
      destruct (slice_beyond (LineBuffer._line self) (LineBuffer._pos self))
        as [-> ->]; [lia |].
      rewrite He. unfold len. now rewrite Nat2Z.id, firstn_all, skipn_all.
  - exact insert_rejected.
  - intros re_left re_right c self H32 H46 H127. split.
    + apply key_plain. intros m Hm. apply printable_is_no_key; try assumption.
      intros ->. simpl in Hm. intuition discriminate.
    + apply insert_accepts_iff. right. now exists c.
Qed.

Lemma insert_takes_blank_or_printable_witness :
  let self := LineBuffer.mk [] (lit "ab") 1 0 [] false true false 4 in
  (32 <= 120)%N /\ 120%N <> 46%N /\ 120%N <> 127%N
  /\ LineBuffer.key (fun _ => None) (fun _ => None) [120%N] self
     = Ret None (LineBuffer.insert [120%N] self)
  /\ LineBuffer._line (LineBuffer.insert [120%N] self) = lit "axb".
Proof.
  cbv zeta.
  assert (H1 : (32 <= 120)%N) by lia.
  assert (H2 : 120%N <> 46%N) by discriminate.
  assert (H3 : 120%N <> 127%N) by discriminate.
  split; [exact H1 | split; [exact H2 | split; [exact H3 | split]]].
  - exact (proj1 (proj2 (proj2 (proj2 insert_takes_blank_or_printable))
                    (fun _ => None) (fun _ => None) 120%N _ H1 H2 H3)).
  - reflexivity.
Defined.

(** C6 fails as stated.  The burst ['a b'] holds a blank, which is white
    space and is not [ENTER], and [insert] leaves it out; and ['\x7f'], a
    single character of code 127, is an alias of [BACKSPACE], so that
    [key('\x7f')] removes the character before the cursor. *)
Lemma insert_refuses_words_and_rubout :
  let self := LineBuffer.mk [] (lit "ab") 2 0 [] true true true 4 in
  In 32%N (lit "a b")
  /\ isspace_char 32%N = true
  /\ Ctrl.ne [32%N] Ctrl.ENTER = true
  /\ LineBuffer.insert_accepts (lit "a b") = false
  /\ LineBuffer.insert (lit "a b") self = self
  /\ (32 <= 127)%N
  /\ (forall re_left re_right : str -> option Z,
         LineBuffer.key re_left re_right [127%N] self
         = Ret None (LineBuffer.mk [] (lit "a") 1 0 [] true true true 4)).
Proof.
  cbv zeta. repeat split; try reflexivity.
  - simpl. tauto.
  - lia.
Qed.

(** What [key] does on an alias of [TAB] with a tab size [t > 1], in
    any state: a run of [t] spaces goes into the text at the index [_pos],
    as Python slices read it, and [_pos] grows by exactly 1, which is less
    than the length of the run; when [_pos] lies within the text, the run
    starts after the first [_pos] characters and the new [_pos] points
    after the first space of the run, before the [t - 1] others. *)
Lemma key_tab_run_at_pos
    (re_left re_right : str -> option Z) (self : LineBuffer.t) (tab : str) :
  1 < LineBuffer.__tabsize self ->
  In tab (Ctrl.codes Ctrl.TAB) ->
  let t := LineBuffer.__tabsize self in
  let run := repeat 32%N (Z.to_nat t) in
  let self' :=
    LineBuffer.set_pos (LineBuffer._pos self + 1)
      (LineBuffer.set_line
         (slice_to (LineBuffer._line self) (LineBuffer._pos self) ++ run
            ++ slice_from (LineBuffer._line self) (LineBuffer._pos self))
         self) in
  LineBuffer.key re_left re_right tab self = Ret None self'
  /\ len run = t
  /\ LineBuffer._pos self' = LineBuffer._pos self + 1
  /\ LineBuffer._pos self' < LineBuffer._pos self + len run
  /\ (0 <= LineBuffer._pos self <= len (LineBuffer._line self) ->
      LineBuffer._line self'
      = (firstn (Z.to_nat (LineBuffer._pos self)) (LineBuffer._line self)
           ++ [32%N])
          ++ repeat 32%N (Z.to_nat (t - 1))
          ++ skipn (Z.to_nat (LineBuffer._pos self)) (LineBuffer._line self)
      /\ len (firstn (Z.to_nat (LineBuffer._pos self)) (LineBuffer._line self)
                ++ [32%N])
         = LineBuffer._pos self').
Proof.
  intros Ht Htab. cbv zeta.
  assert (Hrun : len (repeat 32%N (Z.to_nat (LineBuffer.__tabsize self)))
                 = LineBuffer.__tabsize self)
    by (unfold len; rewrite repeat_length; lia).
  split; [| split; [exact Hrun | split; [reflexivity | split]]].
  - rewrite (key_tab re_left re_right tab self Htab).
    rewrite insert_accepted by (apply tab_run_accepted; lia).
    unfold tab_expandtabs.
    destruct (Z.ltb_spec 0 (LineBuffer.__tabsize self)); [reflexivity | lia].
  - rewrite Hrun. simpl. lia.
  - intros Hp. simpl. split.
    + rewrite slice_to_in_range, slice_from_in_range by assumption.
      replace (Z.to_nat (LineBuffer.__tabsize self))
        with (S (Z.to_nat (LineBuffer.__tabsize self - 1))) by lia.
      simpl. now rewrite <- app_assoc.
    + rewrite len_app. unfold len. rewrite length_firstn. simpl.
      unfold len in Hp. lia.
Qed.

(** C10: a defect of the code.  [insert] cuts the text at [_pos], which
    counts the prompt too, where the cursor stands
    [_pos - len(_prompt)] characters into the text, as [DEL], [BACKSPACE]
    and the cursor keys have it.  On a new buffer with the prompt ['> '],
    the text ['abcd'] typed and [HOME] pressed, the cursor stands before
    ['a'], which [DEL] would remove.  There [key('\t')] with the tab size
    4 gives ['ab    cd']: the run of four blanks is two characters to the
    right of the cursor, and not at the cursor, which would give
    ['    abcd']. *)
Theorem tab_run_lands_beside_the_cursor :
  forall re_left re_right : str -> option Z,
    let new :=
      LineBuffer.set_prompt (lit "> ") (LineBuffer.__init__ true true true 4) in
    let typed := LineBuffer.mk [] (lit "abcd") 6 0 (lit "> ") true true true 4 in
    let self := LineBuffer.mk [] (lit "abcd") 2 0 (lit "> ") true true true 4 in
    type_all re_left re_right (lit "abcd") new = Ret None typed
    /\ In (Ctrl.esc "[H") (Ctrl.codes Ctrl.HOME)
    /\ LineBuffer.key re_left re_right (Ctrl.esc "[H") typed = Ret None self
    /\ LineBuffer._pos self - len (LineBuffer._prompt self) = 0
    /\ In (Ctrl.esc "[3~") (Ctrl.codes Ctrl.DEL)
    /\ LineBuffer.key re_left re_right (Ctrl.esc "[3~") self
       = Ret None
           (LineBuffer.mk [] (lit "bcd") 2 0 (lit "> ") true true true 4)
    /\ In [9%N] (Ctrl.codes Ctrl.TAB)
    /\ LineBuffer.key re_left re_right [9%N] self
       = Ret None
           (LineBuffer.mk [] (lit "ab    cd") 3 0 (lit "> ") true true true 4)
    /\ lit "ab    cd" <> lit "    abcd".
Proof.
  intros re_left re_right. cbv zeta.
  repeat split; try reflexivity; try discriminate; simpl; tauto.
Qed.

(* ===================================================================== *)
(** * termutils.py: TermInReader                                          *)
(* ===================================================================== *)

Section RecorderFacts.

Import TermInReader.

Variables ECHO ICANON : Z.
Variables VMIN VTIME : nat.
Variable setraw : termios_attr -> termios_attr.
Variable U : Type.
Variable call_action : action -> M (world U) unit.
Variable call_hook : hook -> str -> M (world U) unit.

Implicit Types (w : world U) (self other : nat) (r : recorder).

Local Abbreviation new_settings := (new_settings ECHO ICANON VMIN VTIME setraw U).
Local Abbreviation end_ := (end_ U).
Local Abbreviation _handle := (_handle U call_action call_hook).
Local Abbreviation call_all := (call_all U call_action).
Local Abbreviation record := (record U call_action call_hook).
Local Abbreviation record_loop := (record_loop U call_action call_hook).
Local Abbreviation conflicting := (conflicting U).
Local Abbreviation start :=
  (start ECHO ICANON VMIN VTIME setraw U call_action call_hook).

(** ** The registry *)

Lemma obj_registered w self r :
  __instances w !! self = Some r -> obj w self = r.
Proof. intros H. unfold obj. now rewrite H. Qed.

Lemma obj_update_same w self f r :
  __instances w !! self = Some r -> obj (update self f w) self = f r.
Proof.
  intros H. unfold obj, update. simpl.
  now rewrite lookup_alter_eq, H.
Qed.

(** [set_normal true] on a recorder that is not registered changes
    nothing, and a reference to it reads as normal. *)
Lemma normal_update_true w self :
  normal (obj (update self (set_normal true) w) self) = true.
Proof.
  unfold obj, update. simpl. rewrite lookup_alter_eq.
  now destruct (__instances w !! self).
Qed.

(** The test of [start] finds exactly the other recorders out of their
    original line discipline. *)
Lemma conflicting_true w self :
  conflicting self w = true
  <-> exists other r,
      __instances w !! other = Some r /\ other <> self /\ normal r = false.
Proof.
  unfold TermInReader.conflicting. rewrite existsb_exists. split.
  - intros ([other r] & Hin & H). simpl in H.
    apply andb_true_iff in H as [H1 H2].
    apply negb_true_iff in H1, H2. apply Nat.eqb_neq in H1.
    exists other, r. repeat split; try assumption.
    apply elem_of_map_to_list. now apply list_elem_of_In.
  - intros (other & r & Hl & Hne & Hn). exists (other, r). split.
    + apply list_elem_of_In. now apply elem_of_map_to_list.
    + simpl. apply andb_true_iff. split; apply negb_true_iff.
      * now apply Nat.eqb_neq.
      * exact Hn.
Qed.

Lemma conflicting_false w self :
  conflicting self w = false
  <-> forall other r,
      __instances w !! other = Some r -> other <> self -> normal r = true.
Proof.
  split.
  - intros H other r Hl Hne. destruct (normal r) eqn:E; [reflexivity |].
    assert (C : conflicting self w = true)
      by (apply conflicting_true; eauto).
    congruence.
  - intros H. destruct (conflicting self w) eqn:E; [| reflexivity].
    apply conflicting_true in E as (other & r & Hl & Hne & Hn).
    rewrite (H other r Hl Hne) in Hn. discriminate.
Qed.

(** ** [end] and [new_settings] *)

Lemma end_restores w self :
  holds_saved self w -> end_ self w = Ret tt (restored self w).
Proof.
  intros Hs. unfold TermInReader.end_, restored, bind, get, try_finally,
    modify, ret, raise.
  destruct (normal (obj w self)) eqn:En; [reflexivity |]. simpl.
  destruct (has_termios w) eqn:Et; [| reflexivity]. simpl.
  destruct (stdin_closed w) eqn:Ec; [reflexivity |]. simpl.
  destruct (_old_settings (obj w self)) eqn:Eo; [reflexivity |].
  exfalso. now apply (Hs En Et Ec).
Qed.

Lemma restored_normal w self : normal (obj (restored self w) self) = true.
Proof.
  unfold restored. destruct (normal (obj w self)) eqn:En; [exact En |].
  apply normal_update_true.
Qed.

Lemma restored_app w self : app (restored self w) = app w.
Proof.
  unfold restored. destruct (normal (obj w self)); [reflexivity |].
  destruct (has_termios w && negb (stdin_closed w)); [| reflexivity].
  now destruct (_old_settings (obj w self)).
Qed.

(** [end] raises nothing but [TypeError]. *)
Lemma end_raises w self e w' :
  end_ self w = Raise e w' -> caught_by_start e = false.
Proof.
  unfold TermInReader.end_, bind, get, try_finally, modify, ret, raise.
  destruct (normal (obj w self)); simpl; [discriminate |].
  destruct (has_termios w); simpl; [| discriminate].
  destruct (stdin_closed w); simpl; [discriminate |].
  destruct (_old_settings (obj w self)); simpl; [discriminate |].
  now intros [= <- _].
Qed.

Lemma end_not_pending w self w' : end_ self w <> Pending w'.
Proof.
  unfold TermInReader.end_, bind, get, try_finally, modify, ret, raise.
  destruct (normal (obj w self)); simpl; [discriminate |].
  destruct (has_termios w); simpl; [| discriminate].
  destruct (stdin_closed w); simpl; [discriminate |].
  destruct (_old_settings (obj w self)); simpl; discriminate.
Qed.

(** [new_settings] raises nothing but [TypeError], is never left waiting,
    and touches no recorder but its own. *)
Lemma new_settings_raises w self e w' :
  new_settings self w = Raise e w' -> caught_by_start e = false.
Proof.
  unfold TermInReader.new_settings, bind, get, try_finally, modify, ret,
    raise.
  destruct (stdin_fifo w); [now intros [= <- _] |].
  destruct (normal (obj w self)); [| discriminate].
  destruct (has_termios w); simpl; [| discriminate].
  destruct (stdin_closed w); simpl; [now intros [= <- _] |].
  destruct (_old_settings (obj _ self)); simpl; discriminate.
Qed.

Lemma new_settings_not_pending w self w' : new_settings self w <> Pending w'.
Proof.
  unfold TermInReader.new_settings, bind, get, try_finally, modify, ret,
    raise.
  destruct (stdin_fifo w); [discriminate |].
  destruct (normal (obj w self)); [| discriminate].
  destruct (has_termios w); simpl; [| discriminate].
  destruct (stdin_closed w); simpl; [discriminate |].
  destruct (_old_settings (obj _ self)); simpl; discriminate.
Qed.

Lemma new_settings_others w self other :
  other <> self ->
  __instances (state_of (new_settings self w)) !! other
  = __instances w !! other.
Proof.
  intros Hne.
  unfold TermInReader.new_settings, bind, get, try_finally, modify, ret,
    raise.
  destruct (stdin_fifo w); [reflexivity |].
  destruct (normal (obj w self)); [| reflexivity].
  destruct (has_termios w); simpl.
  - destruct (stdin_closed w); simpl.
    + now apply lookup_alter_ne.
    + destruct (_old_settings (obj _ self)); simpl;
        unfold update, set_tty; simpl;
        rewrite ?lookup_alter_ne by congruence; reflexivity.
  - now apply lookup_alter_ne.
Qed.

(** What [new_settings] leaves behind for a recorder in its original line
    discipline, on a terminal. *)
Lemma new_settings_enters_raw w self r :
  stdin_fifo w = false ->
  (has_termios w = true -> stdin_closed w = false) ->
  __instances w !! self = Some r -> normal r = true ->
  exists w1 r1,
    new_settings self w = Ret tt w1
    /\ __instances w1 !! self = Some r1
    /\ normal r1 = false
    /\ bindings r1 = bindings r
    /\ __func r1 = __func r
    /\ has_termios w1 = has_termios w
    /\ stdin_closed w1 = stdin_closed w
    /\ app w1 = app w
    /\ (if has_termios w
        then _old_settings r1
             = Some (default (setraw (tty w)) (_old_settings r))
        else tty w1 = tty w).
Proof.
  intros Hf Hc Hr Hn.
  unfold TermInReader.new_settings, bind, get, try_finally, modify, ret,
    raise.
  rewrite Hf, (obj_registered w self r Hr), Hn.
  destruct (has_termios w) eqn:Et; simpl.
  - specialize (Hc eq_refl). rewrite Hc. simpl.
    unfold obj at 1. simpl. rewrite Hr. simpl.
    destruct (_old_settings r) as [a |] eqn:Eo; simpl.
    + eexists _, _. split; [reflexivity |]. simpl.
      rewrite lookup_alter_eq, Hr. simpl.
      repeat split; try reflexivity; try assumption.
    + eexists _, _. split; [reflexivity |]. simpl.
      rewrite !lookup_alter_eq, Hr. simpl.
      repeat split; try reflexivity; assumption.
  - eexists _, _. split; [reflexivity |]. simpl.
    rewrite lookup_alter_eq, Hr. simpl.
    repeat split; try reflexivity; assumption.
Qed.

(** ** The rescue key *)

(** [_handle] on CTRL_D, once the bound actions have returned. *)
Lemma handle_rescue w self w1 :
  call_all (default [] (bindings (obj w self) !! [4%N])) w = Ret tt w1 ->
  holds_saved self w1 ->
  _handle self [4%N] w = Raise (SystemExit 1) (restored self w1).
Proof.
  intros Hcall Hs. unfold TermInReader._handle, bind, get. cbv beta iota.
  rewrite Hcall, str_eqb_refl. cbv beta iota.
  now rewrite (end_restores w1 self Hs).
Qed.

(** [start] lets out neither [SystemExit] nor [KeyboardInterrupt]. *)
Lemma start_raises w self ready reads e w' :
  start self ready reads w = Raise e w' -> caught_by_start e = false.
Proof.
  unfold TermInReader.start, bind, get.
  destruct (conflicting self w); [now intros [= <- _] |].
  destruct (new_settings self w) as [v w1 | e1 w1 | w1] eqn:En.
  - unfold try_finally, try_except_pass.
    destruct (record self ready reads w1) as [v2 w2 | e2 w2 | w2].
    + destruct (end_ self w2) as [v3 w3 | e3 w3 | w3] eqn:Ee;
        try discriminate.
      intros [= <- _]. exact (end_raises _ _ _ _ Ee).
    + destruct (caught_by_start e2) eqn:Ec.
      * destruct (end_ self w2) as [v3 w3 | e3 w3 | w3] eqn:Ee;
          try discriminate.
        intros [= <- _]. exact (end_raises _ _ _ _ Ee).
      * destruct (end_ self w2) as [v3 w3 | e3 w3 | w3] eqn:Ee;
          try discriminate.
        -- now intros [= <- _].
        -- intros [= <- _]. exact (end_raises _ _ _ _ Ee).
    + discriminate.
  - intros [= <- _]. exact (new_settings_raises _ _ _ _ En).
  - discriminate.
Qed.

(** [start] on a first burst CTRL_D that nothing is bound to. *)
Lemma start_rescue_unbound w self r rest :
  conflicting self w = false ->
  stdin_fifo w = false ->
  (has_termios w = true -> stdin_closed w = false) ->
  __instances w !! self = Some r -> normal r = true ->
  bindings r !! [4%N] = None ->
  exists w',
    start self true ([4%N] :: rest) w = Ret tt w'
    /\ normal (obj w' self) = true
    /\ app w' = app w
    /\ tty w' = (if has_termios w
                 then default (setraw (tty w)) (_old_settings r)
                 else tty w).
Proof.
  intros Hconf Hf Hc Hr Hn Hb.
  destruct (new_settings_enters_raw w self r Hf Hc Hr Hn)
    as (w1 & r1 & En & Hr1 & Hn1 & Hb1 & _ & Ht1 & Hc1 & Ha1 & Hold).
  set (w2 := update self (set_normal false) w1).
  assert (Hobj2 : obj w2 self = set_normal false r1)
    by (apply obj_update_same; exact Hr1).
  assert (Hsaved : holds_saved self w2).
  { intros _ Ht _. rewrite Hobj2. simpl.
    change (has_termios w2) with (has_termios w1) in Ht.
    rewrite Ht1 in Ht. rewrite Ht in Hold. rewrite Hold. discriminate. }
  assert (Hh : _handle self [4%N] w2 = Raise (SystemExit 1) (restored self w2)).
  { apply handle_rescue; [| exact Hsaved].
    rewrite Hobj2. simpl. rewrite Hb1, Hb. reflexivity. }
  exists (restored self w2). split; [| split; [| split]].
  - unfold TermInReader.start, bind, get. rewrite Hconf, En.
    unfold try_finally, try_except_pass, TermInReader.record, bind, modify.
    fold w2. cbn [TermInReader.record_loop].
    rewrite Hobj2. simpl normal. cbv iota.
    change (negb (len [4%N] =? 0)) with true. cbv iota.
    unfold bind. rewrite Hh. simpl caught_by_start. cbv iota.
    rewrite end_restores.
    + unfold restored at 1. now rewrite restored_normal.
    + intros Hnn. rewrite restored_normal in Hnn. discriminate.
  - apply restored_normal.
  - rewrite restored_app. exact Ha1.
  - unfold restored. rewrite Hobj2. simpl.
    change (has_termios w2) with (has_termios w1).
    change (stdin_closed w2) with (stdin_closed w1).
    rewrite Ht1, Hc1.
    destruct (has_termios w) eqn:Et; simpl.
    + rewrite (Hc eq_refl). simpl. rewrite Hold. reflexivity.
    + exact Hold.
Qed.

(** C7, as amended.  Whether CTRL_D is bound or not: once the actions bound
    to it have fired and returned, [_handle] on the burst CTRL_D ends the
    recorder (the saved attributes are written back to the tty and the
    recorder is marked normal) and raises [SystemExit(1)], the active hook
    not being called.  [start] lets no [SystemExit] out: when the first
    burst read is an unbound CTRL_D, [start] returns normally, the recorder
    normal again and the tty holding the saved attributes (those read
    after [tty.setraw], when none were saved before). *)
Theorem rescue_key_ends_recorder :
  (forall w self w1,
      call_all (default [] (bindings (obj w self) !! [4%N])) w = Ret tt w1 ->
      holds_saved self w1 ->
      _handle self [4%N] w = Raise (SystemExit 1) (restored self w1)
      /\ normal (obj (restored self w1) self) = true)
  /\ (forall w self ready reads e w',
         start self ready reads w = Raise e w' ->
         e <> SystemExit 1 /\ caught_by_start e = false)
  /\ (forall w self r rest,
         conflicting self w = false ->
         stdin_fifo w = false ->
         (has_termios w = true -> stdin_closed w = false) ->
         __instances w !! self = Some r -> normal r = true ->
         bindings r !! [4%N] = None ->
         exists w',
           start self true ([4%N] :: rest) w = Ret tt w'
           /\ normal (obj w' self) = true
           /\ app w' = app w
           /\ tty w' = (if has_termios w
                        then default (setraw (tty w)) (_old_settings r)
                        else tty w)).
Proof.
  split; [| split].
  - intros w self w1 Hcall Hs. split.
    + now apply handle_rescue.
    + apply restored_normal.
  - intros w self ready reads e w' H.
    pose proof (start_raises _ _ _ _ _ _ H) as Hc.
    split; [| exact Hc]. intros ->. discriminate Hc.
  - exact start_rescue_unbound.
Qed.

(** C8.  [start] on a recorder while another live recorder is out of its
    original line discipline raises the conflict error and leaves the
    whole world as it was: the tty, and with it the saved attributes and
    the [normal] flag of the other recorder.  When [start] goes past that
    test, every other recorder is in its original line discipline after
    [new_settings], so that at most one recorder is in raw mode.  In
    particular, of two new recorders, when the first has started and waits
    for input, [start] on the second raises the conflict error and changes
    nothing. *)
Theorem start_refuses_second_raw_recorder :
  (forall w self other r ready reads,
      __instances w !! other = Some r -> other <> self -> normal r = false ->
      start self ready reads w
      = Raise (TypeError "conflicting terminal recorders") w)
  /\ (forall w self other r,
         conflicting self w = false ->
         other <> self ->
         __instances (state_of (new_settings self w)) !! other = Some r ->
         normal r = true)
  /\ (forall (a : termios_attr) (u : U) (hooks1 hooks2 : list hook)
             (reads : list str),
         let w0 := __init__ 2 hooks2
                     (__init__ 1 hooks1 (mk_world a false false true ∅ u)) in
         exists w1,
           start 1 true [] w0 = Pending w1
           /\ normal (obj w1 1) = false
           /\ _old_settings (obj w1 1) = Some (setraw a)
           /\ start 2 true reads w1
              = Raise (TypeError "conflicting terminal recorders") w1).
Proof.
  split; [| split].
  - intros w self other r ready reads Hl Hne Hn.
    unfold TermInReader.start, bind, get.
    assert (C : conflicting self w = true)
      by (apply conflicting_true; eauto).
    now rewrite C.
  - intros w self other r Hconf Hne Hl.
    rewrite new_settings_others in Hl by assumption.
    exact (proj1 (conflicting_false w self) Hconf other r Hl Hne).
  - intros a u hooks1 hooks2 reads w0.
    assert (Hr : __instances w0 !! 1%nat = Some (fresh hooks1)) by reflexivity.
    assert (Hconf : conflicting 1 w0 = false).
    { apply conflicting_false. intros other r Hl Hne.
      unfold w0, __init__ in Hl. simpl in Hl.
      apply lookup_insert_Some in Hl as [[_ <-] | [_ Hl]]; [reflexivity |].
      apply lookup_insert_Some in Hl as [[<- _] | [_ Hl]]; [congruence |].
      rewrite lookup_empty in Hl. discriminate. }
    destruct (new_settings_enters_raw w0 1%nat (fresh hooks1))
      as (w1 & r1 & En & Hr1 & Hn1 & _ & _ & _ & _ & _ & Hold);
      try reflexivity.
    simpl in Hold.
    exists (update 1%nat (set_normal false) w1).
    assert (Hobj : obj (update 1%nat (set_normal false) w1) 1%nat
                   = set_normal false r1)
      by (apply obj_update_same; exact Hr1).
    split; [| split; [| split]].
    + unfold TermInReader.start, bind, get. rewrite Hconf, En.
      unfold try_finally, try_except_pass, TermInReader.record, bind, modify.
      cbn [TermInReader.record_loop]. now rewrite Hobj.
    + now rewrite Hobj.
    + rewrite Hobj. exact Hold.
    + unfold TermInReader.start, bind, get.
      assert (C : conflicting 2 (update 1%nat (set_normal false) w1) = true).
      { apply conflicting_true. exists 1%nat, (set_normal false r1).
        repeat split; [| discriminate].
        unfold update. simpl. now rewrite lookup_alter_eq, Hr1. }
      now rewrite C.
Qed.

End RecorderFacts.

Lemma rescue_key_ends_recorder_witness :
  let w := TermInReader.__init__ 1 [] linux_world in
  TermInReader.conflicting nat 1 w = false
  /\ TermInReader.stdin_fifo w = false
  /\ (exists w',
         linux_start 1 true [[4%N]] w = Ret tt w'
         /\ TermInReader.normal (TermInReader.obj w' 1) = true
         /\ TermInReader.app w' = TermInReader.app w
         /\ TermInReader.tty w'
            = (if TermInReader.has_termios w
               then default (linux_setraw (TermInReader.tty w))
                      (TermInReader._old_settings (TermInReader.fresh []))
               else TermInReader.tty w)).
Proof.
  cbv zeta.
  assert (H1 : TermInReader.conflicting nat 1
                 (TermInReader.__init__ 1 [] linux_world) = false)
    by reflexivity.
  assert (H2 : TermInReader.stdin_fifo
                 (TermInReader.__init__ 1 [] linux_world) = false)
    by reflexivity.
  split; [exact H1 | split; [exact H2 |]].
  exact (proj2 (proj2 (rescue_key_ends_recorder 8 2 6 5 linux_setraw nat
                         counting no_hook))
           (TermInReader.__init__ 1 [] linux_world) 1%nat
           (TermInReader.fresh []) [] H1 H2
           (fun _ => eq_refl) eq_refl eq_refl eq_refl).
Defined.

(** C7 fails as stated.  With CTRL_D bound to an action, the action fires
    and the rescue runs all the same: [_handle] ends the recorder and
    raises [SystemExit(1)].  And under [start] that exit ends nothing but
    the loop: [start] returns normally. *)
Lemma bound_ctrl_d_still_rescues :
  let w := TermInReader.update 1
             (TermInReader.bind_ctrl Ctrl.CTRL_D 7%nat)
             (TermInReader.__init__ 1 [] linux_world) in
  TermInReader.bindings (TermInReader.obj w 1) !! [4%N] = Some [7%nat]
  /\ (exists w1 w2,
         TermInReader.new_settings 8 2 6 5 linux_setraw nat 1 w = Ret tt w1
         /\ TermInReader._handle nat counting no_hook 1 [4%N] w1
            = Raise (SystemExit 1) w2
         /\ TermInReader.app w1 = 0%nat
         /\ TermInReader.app w2 = 1%nat
         /\ TermInReader.normal (TermInReader.obj w2 1) = true)
  /\ (exists w3,
         linux_start 1 true [[4%N]] w = Ret tt w3
         /\ TermInReader.app w3 = 1%nat
         /\ TermInReader.normal (TermInReader.obj w3 1) = true).
Proof.
  cbv zeta. split; [reflexivity | split].
  - eexists _, _. split; [reflexivity |]. split; [reflexivity |].
    repeat split.
  - eexists _. split; [reflexivity |]. repeat split.
Qed.

Lemma start_refuses_second_raw_recorder_witness :
  let w := TermInReader.update 1 (TermInReader.set_normal false)
             (TermInReader.__init__ 2 []
                (TermInReader.__init__ 1 [] linux_world)) in
  TermInReader.__instances w !! 1%nat
  = Some (TermInReader.set_normal false (TermInReader.fresh []))
  /\ 1%nat <> 2%nat
  /\ linux_start 2 true [] w
     = Raise (TypeError "conflicting terminal recorders") w.
Proof.
  cbv zeta.
  assert (H1 : TermInReader.__instances
                 (TermInReader.update 1 (TermInReader.set_normal false)
                    (TermInReader.__init__ 2 []
                       (TermInReader.__init__ 1 [] linux_world))) !! 1%nat
               = Some (TermInReader.set_normal false (TermInReader.fresh [])))
    by reflexivity.
  assert (H2 : 1%nat <> 2%nat) by discriminate.
  split; [exact H1 | split; [exact H2 |]].
  exact (proj1 (start_refuses_second_raw_recorder 8 2 6 5 linux_setraw nat
                  counting no_hook)
           _ 2%nat 1%nat _ true [] H1 H2 eq_refl).
Defined.

(* ===================================================================== *)
(** * apps.py: the matcher of the FuzzyFinder                             *)
(* ===================================================================== *)

(** ** [find] for one character *)

Lemma getitem_nonneg {A : Type} (s : list A) (j : Z) :
  0 <= j -> getitem s j = nth_error s (Z.to_nat j).
Proof.
  intros Hj. unfold getitem.
  destruct (Z.ltb_spec j 0); [lia |].
  destruct (Z.leb_spec 0 j); [| lia].
  destruct (Z.ltb_spec j (len s)) as [Hlt | Hge]; [reflexivity |].
  symmetry. apply nth_error_None. unfold len in Hge. lia.
Qed.

Lemma getitem_map {A B : Type} (f : A -> B) (s : list A) (i : Z) :
  getitem (map f s) i = option_map f (getitem s i).
Proof.
  unfold getitem, len. rewrite length_map.
  destruct ((0 <=? _) && (_ <? _)); [apply nth_error_map | reflexivity].
Qed.

Lemma startswith_single (s : str) (d : char) :
  startswith s [d] = match s with
                     | x :: _ => (d =? x)%N
                     | [] => false
                     end.
Proof. destruct s as [| x [| y s]]; simpl; rewrite ?andb_true_r; reflexivity. Qed.

Lemma find_at_single (s : str) (d : char) (i0 : Z) :
  (find_at s [d] i0 = -1 /\ forall k, nth_error s k <> Some d)
  \/ (exists k : nat,
         find_at s [d] i0 = i0 + Z.of_nat k
         /\ nth_error s k = Some d
         /\ forall k' : nat, (k' < k)%nat -> nth_error s k' <> Some d).
Proof.
  revert i0. induction s as [| x s IH]; intros i0.
  - left. split; [reflexivity |]. intros [| k]; discriminate.
  - cbn [find_at]. rewrite startswith_single.
    destruct (N.eqb_spec d x) as [-> | Hne].
    + right. exists 0%nat. repeat split; [lia | intros k' Hk'; lia].
    + destruct (IH (i0 + 1)) as [[Hf Hno] | (k & Hf & Hk & Hno)].
      * left. split; [exact Hf |].
        intros [| k]; simpl; [congruence | apply Hno].
      * right. exists (S k). repeat split.
        -- rewrite Hf. lia.
        -- exact Hk.
        -- intros [| k'] Hk'; simpl; [congruence | apply Hno; lia].
Qed.

(** [s.find(d, start)] is the least index from [start] on that holds [d],
    and -1 when there is none. *)
Lemma find_single_spec (s : str) (d : char) (start : Z) :
  0 <= start ->
  (find s [d] start = -1
   /\ forall j, start <= j -> getitem s j <> Some d)
  \/ (exists i,
         find s [d] start = i
         /\ start <= i
         /\ getitem s i = Some d
         /\ forall j, start <= j < i -> getitem s j <> Some d).
Proof.
  intros Hs. unfold find.
  destruct (Z.ltb_spec start 0); [lia |].
  destruct (Z.ltb_spec (len s) start) as [Hlong | Hin].
  - left. split; [reflexivity |]. intros j Hj.
    rewrite getitem_nonneg by lia. intros Hx.
    assert (Z.to_nat j < length s)%nat
      by (apply nth_error_Some; congruence).
    unfold len in Hlong. lia.
  - destruct (find_at_single (skipn (Z.to_nat start) s) d start)
      as [[Hf Hno] | (k & Hf & Hk & Hno)].
    + left. split; [exact Hf |]. intros j Hj.
      rewrite getitem_nonneg by lia.
      replace (Z.to_nat j)
        with (Z.to_nat start + (Z.to_nat j - Z.to_nat start))%nat by lia.
      rewrite <- nth_error_skipn. apply Hno.
    + right. exists (start + Z.of_nat k). repeat split.
      * exact Hf.
      * lia.
      * rewrite getitem_nonneg by lia. rewrite nth_error_skipn in Hk.
        now replace (Z.to_nat (start + Z.of_nat k))
          with (Z.to_nat start + k)%nat by lia.
      * intros j Hj. rewrite getitem_nonneg by lia.
        replace (Z.to_nat j)
          with (Z.to_nat start + (Z.to_nat j - Z.to_nat start))%nat by lia.
        rewrite <- nth_error_skipn. apply Hno. lia.
Qed.

Section MatcherFacts.

Import FuzzyFinder.

Variable casefold_char : char -> str.

Local Abbreviation casefold := (casefold casefold_char).
Local Abbreviation loop_body := (loop_body casefold_char).
Local Abbreviation loop := (loop casefold_char).
Local Abbreviation _matches_query := (_matches_query casefold_char).
Local Abbreviation matching := (matching casefold_char).
Local Abbreviation results := (results casefold_char).
Local Abbreviation folds_simply := (folds_simply casefold_char).
Local Abbreviation fold1 := (fold1 casefold_char).
Local Abbreviation occurs_at := (occurs_at casefold_char).
Local Abbreviation next_occurrence := (next_occurrence casefold_char).
Local Abbreviation walks := (walks casefold_char).
Local Abbreviation stuck := (stuck casefold_char).
Local Abbreviation matched := (matched casefold_char).
Local Abbreviation accepts := (accepts casefold_char).

Implicit Types (item query : str) (st : loop_state) (c : char).

(** ** The loop, one turn after the other *)

Lemma loop_app item i_item query query' st :
  loop item i_item (query ++ query') st
  = match loop item i_item query st with
    | Ok (Some st') => loop item i_item query' st'
    | r => r
    end.
Proof.
  revert st. induction query as [| c query IH]; intros st; simpl.
  - reflexivity.
  - destruct (loop_body item i_item st c) as [[st' |] | e];
      [apply IH | reflexivity ..].
Qed.

Lemma loop_body_indices item i_item st c st' :
  loop_body item i_item st c = Ok (Some st') ->
  indices st' = indices st ++ [last_index st'].
Proof.
  unfold FuzzyFinder.loop_body.
  destruct (_ =? -1); [discriminate |].
  destruct (getitem item _); [| discriminate].
  now intros [= <-].
Qed.

Lemma loop_indices_length item i_item query st st' :
  loop item i_item query st = Ok (Some st') ->
  length (indices st') = (length (indices st) + length query)%nat.
Proof.
  revert st. induction query as [| c query IH]; intros st; simpl.
  - intros [= <-]. lia.
  - destruct (loop_body item i_item st c) as [[st1 |] | e] eqn:E;
      try discriminate.
    intros H. rewrite (IH _ H), (loop_body_indices _ _ _ _ _ E).
    rewrite length_app. simpl. lia.
Qed.

(** ** Strings that fold character by character *)

Lemma fold1_simple c d : casefold_char c = [d] -> fold1 c = d.
Proof. intros H. unfold fold1. now rewrite H. Qed.

Lemma casefold_simple item :
  folds_simply item -> casefold item = map fold1 item.
Proof.
  induction 1 as [| c item [d Hd] _ IH]; [reflexivity |].
  unfold FuzzyFinder.casefold in *. simpl.
  now rewrite IH, (fold1_simple c d Hd), Hd.
Qed.

Lemma occurs_at_folded item c j :
  occurs_at item c j <-> getitem (map fold1 item) j = Some (fold1 c).
Proof. unfold occurs_at. now rewrite getitem_map. Qed.

(** One turn of the loop is one step of the walk. *)
Lemma loop_body_spec item st c :
  folds_simply item -> (exists d, casefold_char c = [d]) ->
  -1 <= last_index st ->
  match loop_body item (casefold item) st c with
  | Ok (Some st') =>
      next_occurrence item c (last_index st) (last_index st')
      /\ score st' = Float.add (score st)
                       (match_score item c (last_index st) (last_index st'))
      /\ indices st' = indices st ++ [last_index st']
  | Ok None => forall j, last_index st < j -> ~ occurs_at item c j
  | Err _ => False
  end.
Proof.
  intros Hitem [d Hd] Hlast. unfold FuzzyFinder.loop_body.
  rewrite (casefold_simple item Hitem), Hd.
  pose proof (fold1_simple c d Hd) as Hf.
  destruct (find_single_spec (map fold1 item) d (last_index st + 1))
    as [[Hfind Hno] | (i & Hfind & Hi & Hget & Hno)]; [lia | |];
    rewrite Hfind.
  - simpl. intros j Hj Hocc. apply occurs_at_folded in Hocc.
    rewrite Hf in Hocc. apply (Hno j); [lia | exact Hocc].
  - destruct (Z.eqb_spec i (-1)); [lia |].
    pose proof Hget as Hget'. rewrite getitem_map in Hget'.
    destruct (getitem item i) as [x |] eqn:Ex; [| discriminate].
    simpl. repeat split.
    + lia.
    + apply occurs_at_folded. now rewrite Hf.
    + intros j Hj Hocc. apply occurs_at_folded in Hocc.
      rewrite Hf in Hocc. apply (Hno j); [lia | exact Hocc].
    + f_equal. unfold match_score. rewrite Ex.
      destruct (N.eqb_spec x c) as [-> | Hne]; simpl.
      * now rewrite bool_decide_eq_true_2.
      * rewrite bool_decide_eq_false_2 by congruence. reflexivity.
Qed.

(** The loop is the walk, or stops where the walk is stuck. *)
Lemma loop_spec item query st :
  folds_simply item -> folds_simply query -> -1 <= last_index st ->
  match loop item (casefold item) query st with
  | Ok (Some st') =>
      exists idx,
        walks item query (last_index st) (score st) idx
              (score st') (last_index st')
        /\ indices st' = indices st ++ idx
  | Ok None => stuck item query (last_index st)
  | Err _ => False
  end.
Proof.
  intros Hitem Hquery. revert st.
  induction Hquery as [| c query Hc _ IH]; intros st Hlast.
  - simpl. exists []. split; [constructor | now rewrite app_nil_r].
  - cbn [FuzzyFinder.loop].
    pose proof (loop_body_spec item st c Hitem Hc Hlast) as Hb.
    destruct (loop_body item (casefold item) st c) as [[st1 |] | e].
    + destruct Hb as (Hnext & Hscore & Hidx).
      assert (Hlast1 : -1 <= last_index st1)
        by (destruct Hnext as [Hlt _]; lia).
      specialize (IH st1 Hlast1).
      destruct (loop item (casefold item) query st1) as [[st2 |] | e].
      * destruct IH as (idx & Hw & Hidx2).
        exists (last_index st1 :: idx). split.
        -- econstructor; [exact Hnext |]. now rewrite <- Hscore.
        -- rewrite Hidx2, Hidx, <- app_assoc. reflexivity.
      * eapply stuck_later; eassumption.
      * exact IH.
    + now apply stuck_here.
    + exact Hb.
Qed.

(** ** The walk is unique *)

Lemma next_occurrence_unique item c last i i' :
  next_occurrence item c last i -> next_occurrence item c last i' -> i = i'.
Proof.
  intros (H1 & H2 & H3) (H1' & H2' & H3').
  destruct (Z.lt_trichotomy i i') as [Hlt | [Heq | Hgt]]; [| exact Heq |].
  - exfalso. apply (H3' i); [lia | exact H2].
  - exfalso. apply (H3 i'); [lia | exact H2'].
Qed.

Lemma walks_unique item query last raw idx raw' last' idx2 raw2 last2 :
  walks item query last raw idx raw' last' ->
  walks item query last raw idx2 raw2 last2 ->
  idx = idx2 /\ raw' = raw2 /\ last' = last2.
Proof.
  intros H. revert idx2 raw2 last2.
  induction H as [last raw | c query last i raw raw' idx last' Hn _ IH];
    intros idx2 raw2 last2 H2; inversion H2; subst.
  - repeat split.
  - match goal with
    | Hn' : next_occurrence _ _ _ ?i2 |- _ =>
        assert (i = i2) by (eapply next_occurrence_unique; eassumption)
    end.
    subst. match goal with
           | Hw : walks _ _ _ _ _ _ _ |- _ =>
               destruct (IH _ _ _ Hw) as (-> & -> & ->)
           end.
    repeat split.
Qed.

Lemma walks_not_stuck item query last raw idx raw' last' :
  walks item query last raw idx raw' last' -> ~ stuck item query last.
Proof.
  induction 1 as [last raw | c query last i raw raw' idx last' Hn _ IH];
    intros Hs; inversion Hs; subst.
  - destruct Hn as (Hlt & Hocc & _).
    match goal with
    | Hno : forall j, _ -> ~ _ |- _ => exact (Hno i Hlt Hocc)
    end.
  - match goal with
    | Hn' : next_occurrence _ _ _ ?i2 |- _ =>
        assert (i = i2) by (eapply next_occurrence_unique; eassumption)
    end.
    subst. auto.
Qed.

Lemma walks_length item query last raw idx raw' last' :
  walks item query last raw idx raw' last' -> length idx = length query.
Proof. induction 1; simpl; congruence. Qed.

(** ** What [_matches_query] returns *)

Lemma matches_query_spec query item :
  query <> [] -> folds_simply query -> folds_simply item ->
  (forall idx sc,
      _matches_query query item = Ok (Some (idx, sc))
      <-> matched query item idx sc)
  /\ (_matches_query query item = Ok None <-> stuck item query (-1)).
Proof.
  intros Hne Hquery Hitem.
  pose proof (loop_spec item query (mk_loop (Float.of_int 0) [] (-1))
                Hitem Hquery ltac:(simpl; lia)) as Hloop.
  unfold FuzzyFinder._matches_query.
  destruct (loop item (casefold item) query _) as [[st' |] | e].
  - destruct Hloop as (idx0 & Hw & Hidx). simpl in Hw, Hidx.
    assert (Hlen : length idx0 = length query)
      by exact (walks_length _ _ _ _ _ _ _ Hw).
    destruct (indices st') as [| i0 rest] eqn:Ei.
    { subst idx0. destruct query; [congruence | discriminate]. }
    rewrite Hidx. split; [intros idx sc; split |].
    + intros [= <- <-]. exists (score st'), (last_index st').
      now split.
    + intros (raw & last & Hw2 & ->).
      destruct (walks_unique _ _ _ _ _ _ _ _ _ _ Hw Hw2) as (-> & -> & ->).
      reflexivity.
    + split; [discriminate |].
      intros Hs. exfalso. exact (walks_not_stuck _ _ _ _ _ _ _ Hw Hs).
  - simpl in Hloop. split; [intros idx sc; split |].
    + discriminate.
    + intros (raw & last & Hw & _). exfalso.
      exact (walks_not_stuck _ _ _ _ _ _ _ Hw Hloop).
    + tauto.
  - contradiction.
Qed.

(** ** Longer queries *)

Lemma accepts_shorter query c item :
  query <> [] -> accepts (query ++ [c]) item -> accepts query item.
Proof.
  intros Hne [m Hm]. unfold accepts, FuzzyFinder._matches_query in *.
  rewrite loop_app in Hm.
  destruct (loop item (casefold item) query _) as [[st1 |] | e] eqn:E.
  - pose proof (loop_indices_length _ _ _ _ _ E) as Hlen. simpl in Hlen.
    destruct (indices st1) as [| i0 rest] eqn:Ei.
    + destruct query; [congruence | discriminate].
    + eexists. reflexivity.
  - discriminate.
  - discriminate.
Qed.

Lemma no_error_shorter query query' item m :
  _matches_query (query ++ query') item = Ok m ->
  exists m', _matches_query query item = Ok m'.
Proof.
  unfold FuzzyFinder._matches_query. rewrite loop_app.
  destruct (loop item (casefold item) query _) as [[st1 |] | e].
  - intros _. destruct (indices st1); eexists; reflexivity.
  - intros _. eexists; reflexivity.
  - discriminate.
Qed.

(** ** The list of results *)

Lemma insert_desc_In (x y : Float.t * str) (l : list (Float.t * str)) :
  In y (insert_desc x l) <-> y = x \/ In y l.
Proof.
  induction l as [| z l IH]; simpl.
  - intuition congruence.
  - destruct (Float.ltb (fst x) (fst z)); simpl; rewrite ?IH;
      intuition congruence.
Qed.

Lemma sorted_desc_In (y : Float.t * str) (l : list (Float.t * str)) :
  In y (sorted_desc l) <-> In y l.
Proof.
  induction l as [| x l IH]; simpl; [tauto |].
  rewrite insert_desc_In, IH. intuition congruence.
Qed.

Lemma matching_In query objects l :
  matching query objects = Ok l ->
  forall obj sc,
    In (sc, obj) l
    <-> In obj objects
        /\ exists idx, _matches_query query obj = Ok (Some (idx, sc)).
Proof.
  revert l. induction objects as [| o objects IH]; simpl; intros l.
  - intros [= <-] obj sc. simpl. tauto.
  - destruct (_matches_query query o) as [m | e] eqn:Em; [| discriminate].
    destruct (matching query objects) as [l0 | e]; [| discriminate].
    intros [= <-] obj sc. specialize (IH l0 eq_refl obj sc).
    destruct m as [[idx0 sc0] |]; simpl; rewrite IH.
    + split.
      * intros [[= <- <-] | [Hin Hm]]; [eauto | tauto].
      * intros [[<- | Hin] [idx Hm]]; [| eauto].
        left. rewrite Em in Hm. congruence.
    + split.
      * intros [Hin Hm]. tauto.
      * intros [[<- | Hin] [idx Hm]]; [| eauto].
        rewrite Em in Hm. discriminate.
Qed.

Lemma matching_Ok query objects :
  (exists l, matching query objects = Ok l)
  <-> forall obj, In obj objects -> exists m, _matches_query query obj = Ok m.
Proof.
  induction objects as [| o objects IH]; simpl.
  - split; [intros _ obj [] | eauto].
  - split.
    + intros [l Hl] obj Hin.
      destruct (_matches_query query o) as [m | e] eqn:Em; [| discriminate].
      destruct (matching query objects) as [l0 | e]; [| discriminate].
      destruct Hin as [<- | Hin]; [eauto |].
      apply (proj1 IH); eauto.
    + intros H. destruct (H o (or_introl eq_refl)) as [m Hm]. rewrite Hm.
      destruct (proj2 IH (fun obj Hin => H obj (or_intror Hin))) as [l0 Hl0].
      rewrite Hl0. eauto.
Qed.

Lemma results_nonempty query objects :
  query <> [] ->
  results query objects
  = match matching query objects with
    | Ok l => Ok (map snd (sorted_desc l))
    | Err e => Err e
    end.
Proof. destruct query; [congruence | reflexivity]. Qed.

Lemma results_In query objects l :
  query <> [] -> results query objects = Ok l ->
  forall obj, In obj l <-> In obj objects /\ accepts query obj.
Proof.
  intros Hne. rewrite results_nonempty by assumption.
  destruct (matching query objects) as [l0 | e] eqn:E; [| discriminate].
  intros [= <-] obj. rewrite in_map_iff. split.
  - intros ([sc o] & Heq & Hin). simpl in Heq. subst o.
    apply (proj1 (sorted_desc_In _ _)) in Hin.
    apply (proj1 (matching_In _ _ _ E _ _)) in Hin as [Hin [idx Hm]].
    split; [exact Hin |]. eexists. exact Hm.
  - intros [Hin [[idx sc] Hm]]. exists (sc, obj). split; [reflexivity |].
    apply sorted_desc_In. apply (matching_In _ _ _ E). eauto.
Qed.

(** [search_bar] in the application, when the line has changed: the query
    is recorded, and the sublist becomes the results for it, shown from
    the top. *)
Lemma search_bar_shows (self : FuzzyFinder.t) :
  _in_app self = true ->
  LineBuffer.line (_line_buffer self) <> _current_query self ->
  search_bar casefold_char self
  = match results (LineBuffer.line (_line_buffer self)) (objects self) with
    | Ok l =>
        Ret tt (set_start_index 0
                  (set_sublist (SequencePointer.__init__ l false)
                     (set_current_query (LineBuffer.line (_line_buffer self))
                        self)))
    | Err e =>
        Raise e (set_current_query (LineBuffer.line (_line_buffer self)) self)
    end.
Proof.
  intros Happ Hne. unfold FuzzyFinder.search_bar, bind, get, modify, raise.
  rewrite Happ. unfold str_eqb. rewrite bool_decide_eq_false_2 by exact Hne.
  simpl. now destruct (results _ (objects self)).
Qed.

(** C4, as amended.  For every query [q] that is not empty, every
    character [c] and every item: when [_matches_query(q + c, item)]
    returns a true value, so does [_matches_query(q, item)].  And for every
    query, empty or not, the results for [q + c] are among the results for
    [q]: when the finder shows the results for [q] and a character is added
    to the line, [search_bar] leaves a sublist whose items were all in the
    sublist before. *)
Theorem matching_is_monotone :
  (forall query c item,
      query <> [] -> accepts (query ++ [c]) item -> accepts query item)
  /\ (forall query c objects l',
         results (query ++ [c]) objects = Ok l' ->
         exists l,
           results query objects = Ok l
           /\ forall obj, In obj l' -> In obj l)
  /\ (forall (self self' : FuzzyFinder.t) c,
         _in_app self = true ->
         LineBuffer.line (_line_buffer self) = _current_query self ++ [c] ->
         results (_current_query self) (objects self)
         = Ok (SequencePointer.seq (_sublist self)) ->
         search_bar casefold_char self = Ret tt self' ->
         _current_query self' = _current_query self ++ [c]
         /\ results (_current_query self') (objects self')
            = Ok (SequencePointer.seq (_sublist self'))
         /\ forall obj,
             In obj (SequencePointer.seq (_sublist self')) ->
             In obj (SequencePointer.seq (_sublist self))).
Proof.
  assert (Hsub : forall query c objects l',
             results (query ++ [c]) objects = Ok l' ->
             exists l,
               results query objects = Ok l
               /\ forall obj, In obj l' -> In obj l).
  { intros query c objects l' Hl'.
    assert (Hne' : query ++ [c] <> []) by (destruct query; discriminate).
    pose proof (results_In _ _ _ Hne' Hl') as Hin'.
    destruct query as [| c0 query].
    - exists objects. split; [reflexivity |]. intros obj Hobj.
      now apply Hin' in Hobj.
    - assert (Hne : c0 :: query <> []) by discriminate.
      assert (Hok : exists l0, matching (c0 :: query) objects = Ok l0).
      { apply matching_Ok. intros obj Hobj.
        rewrite results_nonempty in Hl' by assumption.
        destruct (matching ((c0 :: query) ++ [c]) objects) as [l1 | e] eqn:E;
          [| discriminate].
        destruct (proj1 (matching_Ok _ _) (ex_intro _ l1 E) obj Hobj)
          as [m Hm].
        exact (no_error_shorter _ _ _ _ Hm). }
      destruct Hok as [l0 Hl0].
      exists (map snd (sorted_desc l0)). split.
      + rewrite results_nonempty by assumption. now rewrite Hl0.
      + intros obj Hobj. apply Hin' in Hobj as [Hobj Hacc].
        apply (results_In (c0 :: query) objects); [assumption | |].
        * rewrite results_nonempty by assumption. now rewrite Hl0.
        * split; [exact Hobj |]. now apply accepts_shorter in Hacc. }
  split; [exact accepts_shorter | split; [exact Hsub |]].
  intros self self' c Happ Hline Hshown Hbar.
  assert (Hne : LineBuffer.line (_line_buffer self) <> _current_query self).
  { rewrite Hline. intros H. apply (f_equal (@length _)) in H.
    rewrite length_app in H. simpl in H. lia. }
  rewrite (search_bar_shows self Happ Hne), Hline in Hbar.
  destruct (results (_current_query self ++ [c]) (objects self))
    as [l' | e] eqn:El'; [| discriminate].
  injection Hbar as <-. simpl. split; [reflexivity | split; [exact El' |]].
  destruct (Hsub _ _ _ _ El') as (l & Hl & Hin).
  rewrite Hshown in Hl. injection Hl as <-. exact Hin.
Qed.

End MatcherFacts.

(** ** The matcher looks at the case folding of the characters at hand *)

Section MatcherExt.

Import FuzzyFinder.

Variables cf cf' : char -> str.

Lemma casefold_ext (item : str) :
  (forall c, In c item -> cf c = cf' c) ->
  casefold cf item = casefold cf' item.
Proof.
  unfold casefold. induction item as [| x item IH]; intros H; simpl.
  - reflexivity.
  - rewrite (H x (or_introl eq_refl)), IH; [reflexivity |].
    intros c Hc. apply H. now right.
Qed.

Lemma loop_ext (item i_item query : str) (st : loop_state) :
  (forall c, In c query -> cf c = cf' c) ->
  loop cf item i_item query st = loop cf' item i_item query st.
Proof.
  revert st. induction query as [| x query IH]; intros st H; simpl.
  - reflexivity.
  - unfold loop_body. rewrite (H x (or_introl eq_refl)).
    destruct (_ =? -1); [reflexivity |].
    destruct (getitem item _); [| reflexivity].
    apply IH. intros c Hc. apply H. now right.
Qed.

Lemma matches_query_ext (query item : str) :
  (forall c, In c query -> cf c = cf' c) ->
  (forall c, In c item -> cf c = cf' c) ->
  _matches_query cf query item = _matches_query cf' query item.
Proof.
  intros Hq Hi. unfold _matches_query.
  now rewrite (casefold_ext item Hi), (loop_ext _ _ _ _ Hq).
Qed.

Lemma results_ext (query : str) (objects : list str) :
  (forall c, In c query -> cf c = cf' c) ->
  (forall obj c, In obj objects -> In c obj -> cf c = cf' c) ->
  results cf query objects = results cf' query objects.
Proof.
  intros Hq Ho. unfold results.
  assert (E : matching cf query objects = matching cf' query objects).
  { induction objects as [| o objects IH]; simpl; [reflexivity |].
    rewrite (matches_query_ext query o Hq)
      by (intros c Hc; apply (Ho o c); [now left | exact Hc]).
    rewrite IH; [reflexivity |].
    intros obj c Hobj Hc. apply (Ho obj c); [now right | exact Hc]. }
  now rewrite E.
Qed.

End MatcherExt.

Ltac ascii_chars H :=
  let c := fresh "c" in
  let Hc := fresh "Hc" in
  intros c Hc; apply H; simpl in Hc;
  repeat (destruct Hc as [<- | Hc]; [reflexivity |]);
  contradiction.

(** C3, as amended.  On a query that is not empty and an item whose
    characters, like those of the query, fold to one character each,
    [_matches_query] walks the query from left to right and takes
    for each character, case folded, its next occurrence in the folded item
    at an index greater than the last matched one; it returns [None]
    exactly when some character has no such occurrence; otherwise it
    returns the matched indices with the raw score divided by the last
    matched index plus one, where a position [i] with gap
    [g = i - last - 1] adds [0.5 + 0.05 * g] when the item has another case
    at [i] and [1 + 0.05 * g] when it has the same.  The empty query
    gets [None] on every item.  On ['apple'] and
    ['Apple'] the query ['Ap'] matches both at [0, 1], with the scores 0.75
    and 1.0, so that ['Apple'] comes first. *)
Theorem matches_query_walks_and_scores (casefold_char : char -> str) :
  (forall query item : str,
      query <> [] ->
      folds_simply casefold_char query -> folds_simply casefold_char item ->
      (forall (indices : list Z) (score : Float.t),
          FuzzyFinder._matches_query casefold_char query item
          = Ok (Some (indices, score))
          <-> matched casefold_char query item indices score)
      /\ (FuzzyFinder._matches_query casefold_char query item = Ok None
          <-> stuck casefold_char item query (-1)))
  /\ (forall item : str,
         FuzzyFinder._matches_query casefold_char [] item = Ok None)
  /\ (agrees_on_ascii casefold_char ->
      FuzzyFinder._matches_query casefold_char (lit "Ap") (lit "apple")
      = Ok (Some ([0; 1], Float.div (Float.of_int 3) (Float.of_int 4)))
      /\ FuzzyFinder._matches_query casefold_char (lit "Ap") (lit "Apple")
         = Ok (Some ([0; 1], Float.of_int 1))
      /\ Float.ltb (Float.div (Float.of_int 3) (Float.of_int 4))
           (Float.of_int 1) = true
      /\ FuzzyFinder.results casefold_char (lit "Ap")
           [lit "apple"; lit "Apple"]
         = Ok [lit "Apple"; lit "apple"]).
Proof.
  split; [exact (matches_query_spec casefold_char) |].
  split; [reflexivity |].
  intros Hascii.
  assert (Hq : forall c, In c (lit "Ap") -> casefold_char c = ascii_casefold c)
    by ascii_chars Hascii.
  assert (Ha : forall c, In c (lit "apple")
                         -> casefold_char c = ascii_casefold c)
    by ascii_chars Hascii.
  assert (HA : forall c, In c (lit "Apple")
                         -> casefold_char c = ascii_casefold c)
    by ascii_chars Hascii.
  rewrite (matches_query_ext _ _ _ _ Hq Ha), (matches_query_ext _ _ _ _ Hq HA).
  rewrite (results_ext casefold_char ascii_casefold (lit "Ap")
             [lit "apple"; lit "Apple"] Hq).
  - repeat split; vm_compute; reflexivity.
  - intros obj c [<- | [<- | []]] Hc; [now apply Ha | now apply HA].
Qed.

Lemma matches_query_walks_and_scores_witness :
  lit "Ap" <> []
  /\ folds_simply ascii_casefold (lit "Ap")
  /\ folds_simply ascii_casefold (lit "Apple")
  /\ matched ascii_casefold (lit "Ap") (lit "Apple") [0; 1] (Float.of_int 1)
  /\ agrees_on_ascii ascii_casefold
  /\ Float.ltb (Float.div (Float.of_int 3) (Float.of_int 4)) (Float.of_int 1)
     = true.
Proof.
  assert (H1 : lit "Ap" <> []) by discriminate.
  assert (Hf : forall s, folds_simply ascii_casefold s).
  { intros s. apply List.Forall_forall. intros c _. eexists. reflexivity. }
  assert (H4 : agrees_on_ascii ascii_casefold) by (intros c _; reflexivity).
  split; [exact H1 | split; [apply Hf | split; [apply Hf | split]]].
  - apply (proj1 (proj1 (matches_query_walks_and_scores ascii_casefold)
                    (lit "Ap") (lit "Apple") H1 (Hf _) (Hf _))
             [0; 1] (Float.of_int 1)).
    reflexivity.
  - split; [exact H4 |].
    exact (proj1 (proj2 (proj2 (proj2 (proj2
             (matches_query_walks_and_scores ascii_casefold)) H4)))).
Defined.

(** C3 fails as stated.  The empty query has no character without an
    occurrence: its walk ends at once, with no index and nothing scored,
    and the item is not to be rejected; [_matches_query] returns [None]
    all the same, by its guard [if indices:].  And where a character folds
    to two, the indices found in the folded item are not those of the
    item: with the sharp s, which folds to ['ss'], before an ['a'], the
    next occurrence of the query ['a'] is at the index 1 of the item, but
    it is found at 2 in the folded item ['ssa'], where the item has no
    character, and [_matches_query] raises [IndexError]. *)
Lemma empty_query_and_sharp_s_leave_the_walk :
  walks ascii_casefold (lit "apple") [] (-1) (Float.of_int 0) []
    (Float.of_int 0) (-1)
  /\ ~ stuck ascii_casefold (lit "apple") [] (-1)
  /\ FuzzyFinder._matches_query ascii_casefold [] (lit "apple") = Ok None
  /\ next_occurrence sharp_s_casefold [223%N; 97%N] 97%N (-1) 1
  /\ ~ stuck sharp_s_casefold [223%N; 97%N] [97%N] (-1)
  /\ FuzzyFinder._matches_query sharp_s_casefold [97%N] [223%N; 97%N]
     = Err IndexError.
Proof.
  assert (Hnext : next_occurrence sharp_s_casefold [223%N; 97%N] 97%N (-1) 1).
  { split; [lia | split; [reflexivity |]].
    intros j Hj Ho. assert (j = 0) by lia. subst j. discriminate Ho. }
  split; [constructor | split; [| split; [reflexivity | split; [exact Hnext |
    split; [| reflexivity]]]]].
  - intros H. inversion H.
  - intros H. inversion H as [c q l Hno | c q l i Hn Hs]; subst.
    + destruct Hnext as (_ & Ho & _). apply (Hno 1); [lia | exact Ho].
    + inversion Hs.
Qed.

Lemma matching_is_monotone_witness :
  lit "a" <> []
  /\ accepts ascii_casefold (lit "a" ++ [112%N]) (lit "apple")
  /\ accepts ascii_casefold (lit "a") (lit "apple").
Proof.
  assert (H1 : lit "a" <> []) by discriminate.
  assert (H2 : accepts ascii_casefold (lit "a" ++ [112%N]) (lit "apple"))
    by (eexists; reflexivity).
  split; [exact H1 | split; [exact H2 |]].
  exact (proj1 (matching_is_monotone ascii_casefold) _ _ _ H1 H2).
Defined.

(** C4 fails as stated: the empty query is never accepted, so that
    [_matches_query('a', 'a')] returns a match while
    [_matches_query('', 'a')] returns [None]. *)
Lemma empty_query_is_not_accepted :
  FuzzyFinder._matches_query ascii_casefold ([] ++ [97%N]) (lit "a")
  = Ok (Some ([0], Float.of_int 1))
  /\ accepts ascii_casefold ([] ++ [97%N]) (lit "a")
  /\ FuzzyFinder._matches_query ascii_casefold [] (lit "a") = Ok None
  /\ ~ accepts ascii_casefold [] (lit "a").
Proof.
  split; [reflexivity | split; [eexists; reflexivity | split]].
  - reflexivity.
  - intros [m Hm]. discriminate Hm.
Qed.

(** The literals of the matcher are the doubles nearest to 5/100 and to
    1/2. *)
Lemma float_literals :
  Float.lit_0_05 = Float.div (Float.of_int 5) (Float.of_int 100)
  /\ Float.lit_0_5 = Float.div (Float.of_int 1) (Float.of_int 2).
Proof. split; reflexivity. Qed.

(* ===================================================================== *)
(** * termutils.py: more on the LineBuffer                                *)
(* ===================================================================== *)

Section LineBufferMoves.

Import LineBuffer.
Implicit Types (self : LineBuffer.t) (burst : str) (c : char) (n : Z).

Variable re_search_left_end : str -> option Z.
Variable re_search_right_end : str -> option Z.

Local Abbreviation key := (key re_search_left_end re_search_right_end).

(** [cursor_left] and [cursor_right] with the cursor within the text. *)
Lemma cursor_left_right self n :
  0 <= n -> cursor_ok self ->
  (let '(moved, self') := cursor_left n self in
   moved = (len (_prompt self) <? _pos self)
   /\ _pos self' = Z.max (len (_prompt self)) (_pos self - n)
   /\ _line self' = _line self /\ _prompt self' = _prompt self
   /\ cursor_ok self')
  /\ (let '(moved, self') := cursor_right n self in
      moved = (_pos self <? len (_prompt self) + len (_line self))
      /\ _pos self' = Z.min (len (_prompt self) + len (_line self))
                        (_pos self + n)
      /\ _line self' = _line self /\ _prompt self' = _prompt self
      /\ cursor_ok self').
Proof.
  intros Hn [H1 H2]. unfold cursor_left, cursor_right, cursor_ok.
  rewrite len_app. split.
  - destruct (Z.gtb_spec (_pos self - len (_prompt self)) 0);
      destruct (Z.ltb_spec (len (_prompt self)) (_pos self)); simpl;
      repeat split; lia.
  - destruct (Z.gtb_spec
                (len (_prompt self) + len (_line self) - _pos self) 0);
      destruct (Z.ltb_spec (_pos self)
                  (len (_prompt self) + len (_line self))); simpl;
      repeat split; lia.
Qed.

(** X1.  With the cursor between the end of the prompt and the end of the
    text and [n >= 0], [cursor_left(n)] moves it [n] places to the left
    but not beyond the end of the prompt, [cursor_right(n)] [n] places to
    the right but not beyond the end of the text; each returns whether the
    cursor was off that bound, and neither changes the text. *)
Theorem cursor_moves_stay_in_text self n :
  0 <= n -> cursor_ok self ->
  (let '(moved, self') := cursor_left n self in
   moved = (len (_prompt self) <? _pos self)
   /\ _pos self' = Z.max (len (_prompt self)) (_pos self - n)
   /\ _line self' = _line self /\ _prompt self' = _prompt self
   /\ cursor_ok self')
  /\ (let '(moved, self') := cursor_right n self in
      moved = (_pos self <? len (_prompt self) + len (_line self))
      /\ _pos self' = Z.min (len (_prompt self) + len (_line self))
                        (_pos self + n)
      /\ _line self' = _line self /\ _prompt self' = _prompt self
      /\ cursor_ok self').
Proof. exact (cursor_left_right self n). Qed.

End LineBufferMoves.

Lemma cursor_moves_stay_in_text_witness :
  let self := LineBuffer.mk [] (lit "abc") 3 0 (lit "> ") true true true 4 in
  0 <= 5 /\ cursor_ok self
  /\ (let '(moved, self') := LineBuffer.cursor_left 5 self in
      moved = (len (LineBuffer._prompt self) <? LineBuffer._pos self)
      /\ LineBuffer._pos self'
         = Z.max (len (LineBuffer._prompt self)) (LineBuffer._pos self - 5)
      /\ LineBuffer._line self' = LineBuffer._line self
      /\ LineBuffer._prompt self' = LineBuffer._prompt self
      /\ cursor_ok self').
Proof.
  cbv zeta.
  assert (H1 : 0 <= 5) by lia.
  assert (H2 : cursor_ok
                 (LineBuffer.mk [] (lit "abc") 3 0 (lit "> ")
                    true true true 4))
    by (split; vm_compute; discriminate).
  split; [exact H1 | split; [exact H2 |]].
  exact (proj1 (cursor_moves_stay_in_text _ 5 H1 H2)).
Defined.

Section LineBufferEdits.

Import LineBuffer.
Implicit Types (self : LineBuffer.t) (burst : str) (c : char) (n : Z).

Variable re_search_left_end : str -> option Z.
Variable re_search_right_end : str -> option Z.

Local Abbreviation key := (key re_search_left_end re_search_right_end).

(** [key] on an alias of [BACKSPACE] and on an alias of [DEL]. *)
Lemma key_backspace burst self :
  In burst (Ctrl.codes Ctrl.BACKSPACE) ->
  key burst self
  = (let '(go, self1) := cursor_left 1 self in
     if go
     then Ret None
            (set_line
               (slice_to (_line self1) (_pos self1 - len (_prompt self1))
                  ++ slice_from (_line self1)
                       (_pos self1 - len (_prompt self1) + 1)) self1)
     else Ret None self1).
Proof.
  intros [<- | [<- | []]]; unfold LineBuffer.key, bind, get; simpl;
    destruct (cursor_left 1 self) as [[|] self1]; reflexivity.
Qed.

Lemma key_del burst self :
  In burst (Ctrl.codes Ctrl.DEL) ->
  key burst self
  = (if _pos self <? len (_prompt self ++ _line self)
     then Ret None
            (set_line
               (slice_to (_line self) (_pos self - len (_prompt self))
                  ++ slice_from (_line self)
                       (_pos self - len (_prompt self) + 1)) self)
     else Ret None self).
Proof.
  intros [<- | [<- | [<- | [<- | []]]]]; unfold LineBuffer.key, bind, get;
    simpl; destruct (_pos self <? len (_prompt self ++ _line self));
    reflexivity.
Qed.

Lemma len_firstn_skipn (l : str) (i : Z) :
  0 <= i < len l ->
  len (firstn (Z.to_nat i) l ++ skipn (Z.to_nat (i + 1)) l) = len l - 1.
Proof.
  intros H. rewrite len_app. unfold len in *.
  rewrite length_firstn, length_skipn. lia.
Qed.

(** X2.  With the cursor within the text: [key] on an alias of
    [BACKSPACE] removes the character before the cursor and moves the
    cursor one place to the left, and changes nothing when the cursor is
    at the end of the prompt; [key] on an alias of [DEL] removes the
    character at the cursor and leaves the cursor, and changes nothing
    when the cursor is at the end of the text.  Both return [None] and
    leave the cursor within the text. *)
Theorem backspace_and_del_remove_one self burst :
  cursor_ok self ->
  let tp := _pos self - len (_prompt self) in
  (In burst (Ctrl.codes Ctrl.BACKSPACE) ->
   exists self',
     key burst self = Ret None self'
     /\ cursor_ok self'
     /\ (if len (_prompt self) <? _pos self
         then _pos self' = _pos self - 1
              /\ _prompt self' = _prompt self
              /\ _line self'
                 = firstn (Z.to_nat (tp - 1)) (_line self)
                     ++ skipn (Z.to_nat tp) (_line self)
         else self' = self))
  /\ (In burst (Ctrl.codes Ctrl.DEL) ->
      exists self',
        key burst self = Ret None self'
        /\ cursor_ok self'
        /\ (if _pos self <? len (_prompt self) + len (_line self)
            then _pos self' = _pos self
                 /\ _prompt self' = _prompt self
                 /\ _line self'
                    = firstn (Z.to_nat tp) (_line self)
                        ++ skipn (Z.to_nat (tp + 1)) (_line self)
            else self' = self)).
Proof.
  intros [H1 H2]. cbv zeta. split; intros Hb.
  - rewrite (key_backspace burst self Hb). unfold cursor_left.
    destruct (Z.ltb_spec (len (_prompt self)) (_pos self)) as [Hlt | Hge].
    + destruct (Z.gtb_spec (_pos self - len (_prompt self)) 0); [| lia].
      eexists. split; [reflexivity |]. simpl.
      rewrite slice_to_in_range, slice_from_in_range by lia.
      replace (_pos self - Z.min 1 (_pos self - len (_prompt self))
               - len (_prompt self))
        with (_pos self - len (_prompt self) - 1) by lia.
      replace (_pos self - len (_prompt self) - 1 + 1)
        with (_pos self - len (_prompt self)) by lia.
      split; [| repeat split; lia].
      unfold cursor_ok. simpl.
      pose proof (len_firstn_skipn (_line self)
                    (_pos self - len (_prompt self) - 1) ltac:(lia)) as Hl.
      replace (_pos self - len (_prompt self) - 1 + 1)
        with (_pos self - len (_prompt self)) in Hl by lia.
      rewrite Hl. lia.
    + destruct (Z.gtb_spec (_pos self - len (_prompt self)) 0); [lia |].
      exists self. repeat split; assumption.
  - rewrite (key_del burst self Hb), len_app.
    destruct (Z.ltb_spec (_pos self) (len (_prompt self) + len (_line self)))
      as [Hlt | Hge].
    + eexists. split; [reflexivity |]. simpl.
      rewrite slice_to_in_range, slice_from_in_range by lia.
      split; [| repeat split].
      unfold cursor_ok. simpl.
      rewrite (len_firstn_skipn (_line self)
                 (_pos self - len (_prompt self))) by lia.
      lia.
    + exists self. repeat split; assumption.
Qed.

(** X3.  With an empty prompt and the cursor within the text, typing a
    printable character and then BACKSPACE gives back the line buffer as
    it was. *)
Theorem insert_then_backspace self c :
  printable c -> _prompt self = [] ->
  0 <= _pos self <= len (_line self) ->
  exists self1,
    key [c] self = Ret None self1
    /\ _line self1
       = firstn (Z.to_nat (_pos self)) (_line self) ++ [c]
           ++ skipn (Z.to_nat (_pos self)) (_line self)
    /\ key [127%N] self1 = Ret None self.
Proof.
  intros (H32 & H46 & H127) Hprompt Hpos.
  assert (Hkey : key [c] self = Ret None (insert [c] self)).
  { apply key_plain. intros m Hm. apply printable_is_no_key; try assumption.
    intros ->. simpl in Hm. intuition discriminate. }
  assert (Hacc : insert_accepts [c] = true)
    by (apply insert_accepts_iff; right; now exists c).
  rewrite Hkey, (insert_accepted [c] self Hacc).
  eexists. split; [reflexivity |]. simpl.
  rewrite slice_to_in_range, slice_from_in_range by lia.
  split; [reflexivity |].
  rewrite key_backspace by (left; reflexivity).
  unfold cursor_left. simpl. rewrite Hprompt. simpl.
  change (@len N []) with 0.
  destruct (Z.gtb_spec (_pos self + 1 - 0) 0); [| lia]. simpl.
  rewrite Hprompt. change (@len N []) with 0.
  replace (_pos self + 1 - Z.min 1 (_pos self + 1 - 0))
    with (_pos self) by lia.
  rewrite Z.sub_0_r.
  set (l1 := firstn (Z.to_nat (_pos self)) (_line self)).
  set (l2 := skipn (Z.to_nat (_pos self)) (_line self)).
  assert (Hl1 : len l1 = _pos self)
    by (unfold l1, len in *; rewrite length_firstn; lia).
  assert (E1 : slice_to (l1 ++ c :: l2) (_pos self) = l1).
  { rewrite slice_to_in_range
      by (rewrite len_app; pose proof (len_nonneg (c :: l2)); lia).
    rewrite <- Hl1. unfold len. rewrite Nat2Z.id.
    now rewrite firstn_app, Nat.sub_diag, firstn_all, app_nil_r. }
  assert (E2 : slice_from (l1 ++ c :: l2) (_pos self + 1) = l2).
  { rewrite slice_from_in_range
      by (rewrite len_app; unfold len in *; simpl; lia).
    replace (Z.to_nat (_pos self + 1)) with (length l1 + 1)%nat
      by (unfold len in Hl1; lia).
    rewrite skipn_app.
    replace (length l1 + 1 - length l1)%nat with 1%nat by lia.
    rewrite skipn_all2 by lia. reflexivity. }
  change ([c] ++ l2) with (c :: l2). rewrite E1, E2.
  clear Hl1 E1 E2. subst l1 l2. rewrite firstn_skipn.
  destruct self. simpl in *. subst. reflexivity.
Qed.


(** [key] on a burst that [insert] leaves out and that is the alias of a
    cursor key only. *)
Lemma key_cursor burst self :
  In burst (Ctrl.codes Ctrl.L_ARROW ++ Ctrl.codes Ctrl.R_ARROW
              ++ Ctrl.codes Ctrl.HOME ++ Ctrl.codes Ctrl.END) ->
  key burst self
  = Ret None (if __cursor_movement self
              then cursor_keys re_search_left_end re_search_right_end
                     burst self
              else self).
Proof.
  intros H. simpl in H.
  repeat (destruct H as [<- | H];
          [unfold LineBuffer.key, bind, get, modify, ret; simpl;
           destruct (__cursor_movement self), (__use_history self),
             (__send_with_enter self); reflexivity |]).
  contradiction.
Qed.

(** X5.  In a line buffer that moves its cursor, with the cursor within
    the text: the left arrow moves the cursor one place to the left and
    the right arrow one place to the right, without leaving the text,
    [HOME] puts it at the end of the prompt and [END] at the end of the
    text.  None of these keys changes the text, and in a line buffer that
    does not move its cursor they change nothing at all. *)
Theorem cursor_keys_move self burst :
  cursor_ok self ->
  In burst (Ctrl.codes Ctrl.L_ARROW ++ Ctrl.codes Ctrl.R_ARROW
              ++ Ctrl.codes Ctrl.HOME ++ Ctrl.codes Ctrl.END) ->
  exists self',
    key burst self = Ret None self'
    /\ _line self' = _line self
    /\ _prompt self' = _prompt self
    /\ cursor_ok self'
    /\ (__cursor_movement self = false -> self' = self)
    /\ (__cursor_movement self = true ->
        (In burst (Ctrl.codes Ctrl.L_ARROW) ->
         _pos self' = Z.max (len (_prompt self)) (_pos self - 1))
        /\ (In burst (Ctrl.codes Ctrl.R_ARROW) ->
            _pos self'
            = Z.min (len (_prompt self) + len (_line self)) (_pos self + 1))
        /\ (In burst (Ctrl.codes Ctrl.HOME) ->
            _pos self' = len (_prompt self))
        /\ (In burst (Ctrl.codes Ctrl.END) ->
            _pos self' = len (_prompt self) + len (_line self))).
Proof.
  intros Hok Hb. rewrite (key_cursor burst self Hb).
  pose proof (len_nonneg (_line self)) as Hlen.
  pose proof (cursor_left_right self 1 ltac:(lia) Hok) as [HL1 HR1].
  pose proof (cursor_left_right self (len (_line self)) Hlen Hok)
    as [HLn HRn].
  destruct (cursor_left 1 self) as [vl1 sl1] eqn:EL1.
  destruct (cursor_right 1 self) as [vr1 sr1] eqn:ER1.
  destruct (cursor_left (len (_line self)) self) as [vln sln] eqn:ELn.
  destruct (cursor_right (len (_line self)) self) as [vrn srn] eqn:ERn.
  destruct HL1 as (_ & HL1p & HL1l & HL1q & HL1o).
  destruct HR1 as (_ & HR1p & HR1l & HR1q & HR1o).
  destruct HLn as (_ & HLnp & HLnl & HLnq & HLno).
  destruct HRn as (_ & HRnp & HRnl & HRnq & HRno).
  destruct Hok as [Hlo Hhi].
  destruct (__cursor_movement self) eqn:Ecm.
  - simpl in Hb.
    repeat (destruct Hb as [<- | Hb];
            [unfold cursor_keys; simpl; rewrite ?EL1, ?ER1, ?ELn, ?ERn;
             simpl; eexists; split; [reflexivity |];
             split; [assumption |]; split; [assumption |];
             split; [assumption |]; split; [discriminate |];
             intros _; repeat split; simpl; intros Hin;
             repeat (destruct Hin as [Hin | Hin]; try discriminate Hin);
             try contradiction; lia |]).
    contradiction.
  - exists self. repeat split; try assumption; discriminate.
Qed.

End LineBufferEdits.

Section LineBufferHistory.

Import LineBuffer.
Implicit Types (self : LineBuffer.t) (burst : str) (h : list str).

Variable re_search_left_end : str -> option Z.
Variable re_search_right_end : str -> option Z.

Local Abbreviation key := (key re_search_left_end re_search_right_end).

(** [h[-j]] counts from the end. *)
Lemma getitem_from_end {A : Type} (l : list A) (j : Z) :
  1 <= j <= len l ->
  getitem l (- j) = nth_error l (length l - Z.to_nat j).
Proof.
  intros H. unfold getitem.
  destruct (Z.ltb_spec (- j) 0); [| lia].
  destruct (Z.leb_spec 0 (- j + len l)); [| lia].
  destruct (Z.ltb_spec (- j + len l) (len l)); [| lia]. simpl.
  f_equal. unfold len in *. lia.
Qed.

Lemma last_nth_error {A : Type} (l : list A) :
  last l = nth_error l (length l - 1).
Proof.
  induction l as [| a [| b l] IH]; try reflexivity.
  change (last (a :: b :: l)) with (last (b :: l)). rewrite IH.
  simpl. now rewrite Nat.sub_0_r.
Qed.

Lemma last_snoc {A : Type} (l : list A) (x : A) : last (l ++ [x]) = Some x.
Proof.
  rewrite last_nth_error, length_app. simpl.
  replace (length l + 1 - 1)%nat with (length l) by lia.
  now rewrite nth_error_app2, Nat.sub_diag by lia.
Qed.

Lemma no_repeat_snoc h (x : str) :
  no_repeat h -> last h <> Some x -> no_repeat (h ++ [x]).
Proof.
  induction h as [| a [| b h] IH]; intros Hn Hl.
  - exact I.
  - simpl. split; [| exact I]. intros ->. now apply Hl.
  - destruct Hn as [Hab Hn]. split; [exact Hab |]. now apply IH.
Qed.

(** [key] on an alias of [ENTER]. *)
Lemma key_enter burst self :
  In burst (Ctrl.codes Ctrl.ENTER) ->
  key burst self
  = (if __send_with_enter self
     then match enter_send self with
          | Ret r self' => Ret (Some r) self'
          | Raise e self' => Raise e self'
          | Pending self' => Pending self'
          end
     else Ret None self).
Proof.
  intros H. simpl in H.
  repeat (destruct H as [<- | H];
          [unfold LineBuffer.key, bind, get, modify, ret; simpl;
           destruct (__cursor_movement self), (__use_history self),
             (__send_with_enter self); try reflexivity;
           simpl; destruct (enter_send _); reflexivity |]).
  contradiction.
Qed.

(** X6.  In a line buffer that sends with ENTER and shows its live line
    ([history_pos] 0), [key] on an alias of [ENTER] returns the text,
    empties the line and puts the cursor at the end of the prompt.  The
    text is the last entry of the history afterwards: it is added unless
    it is the last entry already, so that a history without two equal
    entries in a row stays one. *)
Theorem enter_commits_line self burst :
  In burst (Ctrl.codes Ctrl.ENTER) ->
  __send_with_enter self = true -> _history_pos self = 0 ->
  exists self',
    key burst self = Ret (Some (_line self)) self'
    /\ _line self' = []
    /\ _pos self' = len (_prompt self)
    /\ _prompt self' = _prompt self
    /\ _history_pos self' = 0
    /\ last (_local_history self') = Some (_line self)
    /\ (last (_local_history self) = Some (_line self) ->
        _local_history self' = _local_history self)
    /\ (last (_local_history self) <> Some (_line self) ->
        _local_history self' = _local_history self ++ [_line self])
    /\ (no_repeat (_local_history self) -> no_repeat (_local_history self')).
Proof.
  intros Hb Hsend Hhp. rewrite (key_enter burst self Hb), Hsend.
  unfold enter_send, bind, get, modify, ret, history_append, history_pop.
  rewrite Hhp. cbn [Z.eqb negb].
  destruct (last (_local_history self)) as [l |] eqn:El.
  - unfold str_eqb. destruct (decide (_line self = l)) as [E | Hne];
      [subst l |].
    + rewrite bool_decide_eq_true_2 by reflexivity. simpl.
      eexists. split; [reflexivity |]. simpl.
      repeat split; try assumption; try reflexivity; try tauto;
        congruence.
    + rewrite bool_decide_eq_false_2 by assumption. simpl.
      eexists. split; [reflexivity |]. simpl.
      repeat split; try assumption; try reflexivity.
      * apply last_snoc.
      * congruence.
      * intros Hn. apply no_repeat_snoc; [exact Hn |]. congruence.
  - simpl. eexists. split; [reflexivity |]. simpl.
    repeat split; try assumption; try reflexivity.
    + apply last_snoc.
    + discriminate.
    + intros Hn. apply no_repeat_snoc; [exact Hn |]. congruence.
Qed.

(** [history_up] from the live line, on a history that is not empty. *)
Lemma history_up_first self (e : str) :
  _history_pos self = 0 -> last (_local_history self) = Some e ->
  history_up self
  = Ret tt (set_pos (len e + len (_prompt self))
              (set_line e
                 (set_history_pos 1
                    (set_history (_local_history self ++ [_line self])
                       self)))).
Proof.
  intros Hhp Hlast.
  unfold history_up, bind, get, modify, ret, history_append, history_getitem.
  rewrite Hhp. simpl.
  assert (Hlen : (1 <= length (_local_history self))%nat).
  { destruct (_local_history self); [discriminate | simpl; lia]. }
  assert (E : getitem (_local_history self ++ [_line self]) (-2) = Some e).
  { rewrite (getitem_from_end _ 2)
      by (rewrite len_app; unfold len; simpl; lia).
    rewrite length_app. simpl.
    replace (length (_local_history self) + 1 - Z.to_nat 2)%nat
      with (length (_local_history self) - 1)%nat by lia.
    rewrite nth_error_app1 by lia. now rewrite <- last_nth_error. }
  rewrite Hhp. change (- (0 + 1) - 1) with (-2). now rewrite E.
Qed.

(** X7.  From the live line, on a history that is not empty, [history_up]
    shows the last entry, with the cursor at its end, after it has put the
    live line at the end of the history; [history_down] then gives the
    live line back and takes it off the history again: the line buffer is
    as it was, but for the cursor, which stands at the end of the text. *)
Theorem history_up_then_down self (e : str) :
  _history_pos self = 0 -> last (_local_history self) = Some e ->
  exists self1,
    history_up self = Ret tt self1
    /\ _line self1 = e
    /\ _history_pos self1 = 1
    /\ _local_history self1 = _local_history self ++ [_line self]
    /\ cursor_at_end self1
    /\ history_down self1
       = Ret tt (set_pos (len (_line self) + len (_prompt self)) self).
Proof.
  intros Hhp Hlast. rewrite (history_up_first self e Hhp Hlast).
  eexists. split; [reflexivity |]. simpl.
  repeat split.
  - unfold cursor_at_end. simpl. lia.
  - unfold history_down, bind, get, modify, ret, history_pop. simpl.
    rewrite last_snoc. simpl. rewrite removelast_last.
    destruct self. simpl in *. subst. reflexivity.
Qed.

(** [key] on an alias of the up arrow. *)
Lemma key_up burst self :
  In burst (Ctrl.codes Ctrl.U_ARROW) ->
  key burst self
  = (if __use_history self
     then match history_up self with
          | Ret _ self' => Ret None self'
          | Raise e self' => Raise e self'
          | Pending self' => Pending self'
          end
     else Ret None self).
Proof.
  intros H. simpl in H.
  repeat (destruct H as [<- | H];
          [unfold LineBuffer.key, bind, get, modify, ret;
           cbn - [history_up];
           destruct (__cursor_movement self), (__use_history self),
             (__send_with_enter self); cbn - [history_up];
           try reflexivity; destruct (history_up self); reflexivity |]).
  contradiction.
Qed.

(** X8.  On an empty history [history_up] fails: it raises [IndexError]
    once it has put the live line into the history and counted one step
    up; so does the up arrow in a new line buffer that keeps a history. *)
Theorem history_up_on_empty_history self burst :
  _history_pos self = 0 -> _local_history self = [] ->
  history_up self
  = Raise IndexError (set_history_pos 1 (set_history [_line self] self))
  /\ (In burst (Ctrl.codes Ctrl.U_ARROW) -> __use_history self = true ->
      exists self',
        key burst self = Raise IndexError self'
        /\ _local_history self' = [_line self]
        /\ _history_pos self' = 1).
Proof.
  intros Hhp Hh.
  assert (Hup : history_up self
                = Raise IndexError
                    (set_history_pos 1 (set_history [_line self] self))).
  { unfold history_up, bind, get, modify, ret, history_append,
      history_getitem.
    rewrite Hhp, Hh. simpl. rewrite Hhp, Hh. reflexivity. }
  split; [exact Hup |].
  intros Hb Huse. rewrite (key_up burst self Hb), Huse, Hup.
  eexists. split; [reflexivity |]. split; reflexivity.
Qed.

(** [history_up] once an entry is shown: one entry further, or nothing
    when the oldest entry is shown. *)
Lemma history_up_further self :
  1 <= _history_pos self ->
  history_up self
  = (if _history_pos self <? len (_local_history self) - 1
     then match nth_error (_local_history self)
                  (length (_local_history self)
                   - Z.to_nat (_history_pos self + 2)) with
          | Some l =>
              Ret tt (set_pos (len l + len (_prompt self))
                        (set_line l
                           (set_history_pos (_history_pos self + 1) self)))
          | None => Raise IndexError
                      (set_history_pos (_history_pos self + 1) self)
          end
     else Ret tt self).
Proof.
  intros Hhp.
  unfold history_up, bind, get, modify, ret, history_append, history_getitem.
  destruct (Z.eqb_spec (_history_pos self) 0); [lia |]. cbn [orb].
  destruct (Z.ltb_spec (_history_pos self) (len (_local_history self) - 1));
    [| reflexivity].
  cbn [_history_pos set_history_pos _local_history].
  replace (- (_history_pos self + 1) - 1)
    with (- (_history_pos self + 2)) by lia.
  rewrite getitem_from_end by lia.
  now destruct (nth_error _ _).
Qed.

Lemma history_ups_walk (h : list str) (l0 : str) (k : nat) :
  forall self (j : nat),
    _local_history self = h ++ [l0] ->
    _history_pos self = Z.of_nat j -> (1 <= j <= length h)%nat ->
    nth_error h (length h - j) = Some (_line self) ->
    exists self',
      history_ups k self = Ret tt self'
      /\ _local_history self' = h ++ [l0]
      /\ _history_pos self' = Z.of_nat (Nat.min (j + k) (length h))
      /\ nth_error h (length h - Nat.min (j + k) (length h))
         = Some (_line self')
      /\ _prompt self' = _prompt self.
Proof.
  induction k as [| k IH]; intros self j Hh Hhp Hj Hline.
  - exists self. rewrite Nat.add_0_r, Nat.min_l by lia.
    repeat split; assumption.
  - cbn [history_ups]. rewrite history_up_further by lia.
    rewrite Hh, len_app, Hhp. change (len [l0]) with 1.
    destruct (Z.ltb_spec (Z.of_nat j) (len h + 1 - 1)) as [Hlt | Hge].
    + unfold len in Hlt. rewrite length_app. simpl.
      replace (length h + 1 - Z.to_nat (Z.of_nat j + 2))%nat
        with (length h - S j)%nat by lia.
      rewrite nth_error_app1 by lia.
      destruct (nth_error h (length h - S j)) as [l |] eqn:El.
      * destruct (IH (set_pos (len l + len (_prompt self))
                        (set_line l
                           (set_history_pos (Z.of_nat j + 1) self)))
                    (S j))
          as (self' & Hrun & Hh' & Hhp' & Hline' & Hprompt);
          simpl; try assumption; try lia; try (rewrite Hhp; lia).
        exists self'. rewrite Hrun.
        replace (j + S k)%nat with (S j + k)%nat by lia.
        repeat split; assumption.
      * exfalso. apply nth_error_None in El. lia.
    + unfold len in Hge.
      destruct (IH self j Hh Hhp Hj Hline)
        as (self' & Hrun & Hh' & Hhp' & Hline' & Hprompt).
      exists self'. rewrite Hrun.
      rewrite Nat.min_r in * by lia.
      repeat split; assumption.
Qed.

(** X9.  From the live line, on a history [h] of [n >= 1] entries, the up
    arrow pressed [k >= 1] times shows the entry [k] places from the end
    of [h], and the oldest entry once [k] exceeds [n]; the history is [h]
    with the live line after it throughout. *)
Theorem history_up_walks_back self (k : nat) :
  _history_pos self = 0 -> _local_history self <> [] ->
  (1 <= k)%nat ->
  let h := _local_history self in
  exists self',
    history_ups k self = Ret tt self'
    /\ _local_history self' = h ++ [_line self]
    /\ _history_pos self' = Z.of_nat (Nat.min k (length h))
    /\ nth_error h (length h - Nat.min k (length h)) = Some (_line self').
Proof.
  intros Hhp Hne Hk. cbv zeta.
  destruct k as [| k]; [lia |].
  destruct (last (_local_history self)) as [e |] eqn:El.
  2: { destruct (_local_history self) as [| a l]; [congruence |].
       rewrite last_nth_error in El. apply nth_error_None in El.
       simpl in El. lia. }
  cbn [history_ups]. rewrite (history_up_first self e Hhp El).
  assert (Hlen : (1 <= length (_local_history self))%nat).
  { destruct (_local_history self); [congruence | simpl; lia]. }
  destruct (history_ups_walk (_local_history self) (_line self) k
              (set_pos (len e + len (_prompt self))
                 (set_line e
                    (set_history_pos 1
                       (set_history (_local_history self ++ [_line self])
                          self)))) 1)
    as (self' & Hrun & Hh' & Hhp' & Hline' & _);
    try reflexivity; try lia.
  { simpl. now rewrite <- last_nth_error. }
  exists self'. split; [exact Hrun |]. now repeat split.
Qed.

End LineBufferHistory.

(** ** The properties above on a line buffer *)

Lemma backspace_and_del_remove_one_witness :
  let self := LineBuffer.mk [] (lit "abc") 4 0 (lit "> ") true true true 4 in
  cursor_ok self
  /\ In [127%N] (Ctrl.codes Ctrl.BACKSPACE)
  /\ exists self',
      LineBuffer.key (fun _ => None) (fun _ => None) [127%N] self
      = Ret None self'
      /\ cursor_ok self'.
Proof.
  cbv zeta.
  assert (H1 : cursor_ok
                 (LineBuffer.mk [] (lit "abc") 4 0 (lit "> ")
                    true true true 4))
    by (split; vm_compute; discriminate).
  assert (H2 : In [127%N] (Ctrl.codes Ctrl.BACKSPACE))
    by (left; reflexivity).
  split; [exact H1 | split; [exact H2 |]].
  destruct (proj1 (backspace_and_del_remove_one
                     (fun _ => None) (fun _ => None) _ [127%N] H1) H2)
    as (self' & Hk & Hok & _).
  exists self'. split; [exact Hk | exact Hok].
Defined.

Lemma insert_then_backspace_witness :
  let self := LineBuffer.mk [] (lit "ac") 1 0 [] true true true 4 in
  printable 98
  /\ exists self1,
      LineBuffer.key (fun _ => None) (fun _ => None) [98%N] self
      = Ret None self1
      /\ LineBuffer.key (fun _ => None) (fun _ => None) [127%N] self1
         = Ret None self.
Proof.
  cbv zeta.
  assert (H1 : printable 98)
    by (split; [vm_compute; discriminate | split; discriminate]).
  split; [exact H1 |].
  destruct (insert_then_backspace (fun _ => None) (fun _ => None)
              (LineBuffer.mk [] (lit "ac") 1 0 [] true true true 4)
              98%N H1 eq_refl)
    as (self1 & Hk & _ & Hb).
  { split; vm_compute; discriminate. }
  exists self1. split; [exact Hk | exact Hb].
Defined.


Lemma cursor_keys_move_witness :
  let self := LineBuffer.mk [] (lit "abc") 4 0 (lit "> ") true true true 4 in
  let home := [27; 91; 72]%N in
  cursor_ok self
  /\ In home (Ctrl.codes Ctrl.HOME)
  /\ exists self',
      LineBuffer.key (fun _ => None) (fun _ => None) home self
      = Ret None self'
      /\ LineBuffer._pos self' = 2.
Proof.
  cbv zeta.
  assert (H1 : cursor_ok
                 (LineBuffer.mk [] (lit "abc") 4 0 (lit "> ")
                    true true true 4))
    by (split; vm_compute; discriminate).
  assert (H2 : In [27; 91; 72]%N (Ctrl.codes Ctrl.HOME))
    by (left; reflexivity).
  split; [exact H1 | split; [exact H2 |]].
  destruct (cursor_keys_move (fun _ => None) (fun _ => None) _
              [27; 91; 72]%N H1)
    as (self' & Hk & _ & _ & _ & _ & Hm).
  { apply in_or_app. right. apply in_or_app. right. apply in_or_app.
    left. exact H2. }
  exists self'. split; [exact Hk |].
  exact (proj1 (proj2 (proj2 (Hm eq_refl))) H2).
Defined.

Lemma enter_commits_line_witness :
  let self := LineBuffer.mk [lit "ls"] (lit "cd") 4 0 (lit "> ")
                true true true 4 in
  In [13%N] (Ctrl.codes Ctrl.ENTER)
  /\ exists self',
      LineBuffer.key (fun _ => None) (fun _ => None) [13%N] self
      = Ret (Some (lit "cd")) self'
      /\ LineBuffer._local_history self' = [lit "ls"; lit "cd"].
Proof.
  cbv zeta.
  assert (H1 : In [13%N] (Ctrl.codes Ctrl.ENTER)) by (left; reflexivity).
  split; [exact H1 |].
  destruct (enter_commits_line (fun _ => None) (fun _ => None)
              (LineBuffer.mk [lit "ls"] (lit "cd") 4 0 (lit "> ")
                 true true true 4) [13%N] H1 eq_refl eq_refl)
    as (self' & Hk & _ & _ & _ & _ & _ & _ & Hadd & _).
  exists self'. split; [exact Hk |].
  apply Hadd. discriminate.
Defined.

Lemma history_up_then_down_witness :
  let self := LineBuffer.mk [lit "ls"] (lit "cd") 4 0 (lit "> ")
                true true true 4 in
  exists self1,
    LineBuffer.history_up self = Ret tt self1
    /\ LineBuffer._line self1 = lit "ls"
    /\ LineBuffer.history_down self1 = Ret tt self.
Proof.
  cbv zeta.
  destruct (history_up_then_down
              (LineBuffer.mk [lit "ls"] (lit "cd") 4 0 (lit "> ")
                 true true true 4) (lit "ls") eq_refl eq_refl)
    as (self1 & Hu & Hl & _ & _ & _ & Hd).
  exists self1. split; [exact Hu | split; [exact Hl | exact Hd]].
Defined.

Lemma history_up_on_empty_history_witness :
  let self := LineBuffer.mk [] (lit "cd") 2 0 [] true true true 4 in
  LineBuffer.history_up self
  = Raise IndexError
      (LineBuffer.set_history_pos 1 (LineBuffer.set_history [lit "cd"] self)).
Proof.
  cbv zeta.
  exact (proj1 (history_up_on_empty_history (fun _ => None) (fun _ => None)
                  (LineBuffer.mk [] (lit "cd") 2 0 [] true true true 4)
                  [] eq_refl eq_refl)).
Defined.

Lemma history_up_walks_back_witness :
  let self := LineBuffer.mk [lit "a"; lit "b"] (lit "cd") 2 0 []
                true true true 4 in
  exists self',
    history_ups 3 self = Ret tt self'
    /\ LineBuffer._local_history self' = [lit "a"; lit "b"; lit "cd"]
    /\ LineBuffer._history_pos self' = 2
    /\ Some (lit "a") = Some (LineBuffer._line self').
Proof.
  cbv zeta.
  destruct (history_up_walks_back
              (LineBuffer.mk [lit "a"; lit "b"] (lit "cd") 2 0 []
                 true true true 4) 3 eq_refl)
    as (self' & Hr & Hh & Hp & Hl); [discriminate | lia |].
  exists self'. split; [exact Hr | split; [exact Hh | split; [exact Hp |]]].
  exact Hl.
Defined.

(* ===================================================================== *)
(** * termutils.py: more on the TermInReader                              *)
(* ===================================================================== *)

(** The aliases of a key are listed once each, so that the lists of
    [Ctrl.codes] stand for the sets of the source. *)
Lemma codes_NoDup (m : Ctrl.t) : NoDup (Ctrl.codes m).
Proof.
  destruct m; apply (bool_decide_unpack _); vm_compute; exact I.
Qed.

Section RecorderBindings.

Import TermInReader.
Implicit Types (r : recorder) (f : action) (code key : str).

Lemma bind_str_lookup code f r key :
  bindings (bind_str code f r) !! key
  = if decide (key = code)
    then Some (default [] (bindings r !! key) ++ [f])
    else bindings r !! key.
Proof.
  unfold bind_str. simpl. destruct (decide (key = code)) as [-> | Hne].
  - apply lookup_insert_eq.
  - now apply lookup_insert_ne.
Qed.

Lemma bind_all_lookup (cs : list str) f r key :
  NoDup cs ->
  bindings (fold_left (fun r c => bind_str c f r) cs r) !! key
  = if decide (key ∈ cs)
    then Some (default [] (bindings r !! key) ++ [f])
    else bindings r !! key.
Proof.
  intros Hnd. revert r.
  induction Hnd as [| c cs Hc _ IH]; intros r; simpl.
  - destruct (decide (key ∈ [])) as [H | _]; [| reflexivity].
    now apply elem_of_nil in H.
  - rewrite IH, bind_str_lookup.
    destruct (decide (key = c)) as [-> | Hne].
    + destruct (decide (c ∈ cs)); [contradiction |].
      destruct (decide (c ∈ c :: cs)) as [_ | H]; [reflexivity |].
      exfalso. apply H. now left.
    + destruct (decide (key ∈ cs)) as [Hin | Hnin].
      * destruct (decide (key ∈ c :: cs)) as [_ | H]; [reflexivity |].
        exfalso. apply H. now right.
      * destruct (decide (key ∈ c :: cs)) as [H | _]; [| reflexivity].
        apply elem_of_cons in H as [H | H]; contradiction.
Qed.

Lemma bind_all_fields (cs : list str) f r :
  let r' := fold_left (fun r c => bind_str c f r) cs r in
  hooks r' = hooks r /\ __func r' = __func r /\ normal r' = normal r
  /\ _old_settings r' = _old_settings r /\ _which r' = _which r.
Proof.
  revert r. induction cs as [| c cs IH]; intros r; simpl.
  - now repeat split.
  - destruct (IH (bind_str c f r)) as (H1 & H2 & H3 & H4 & H5).
    now repeat split.
Qed.

Variable U : Type.
Variable call_action : action -> M (world U) unit.

Lemma call_all_app (fs fs' : list action) (w : world U) :
  call_all U call_action (fs ++ fs') w
  = match call_all U call_action fs w with
    | Ret _ w' => call_all U call_action fs' w'
    | r => r
    end.
Proof.
  revert w. induction fs as [| f fs IH]; intros w; simpl.
  - reflexivity.
  - unfold bind. destruct (call_action f w) as [[] w' | e w' | w'];
      [apply IH | reflexivity ..].
Qed.

(** X10.  [bind] on a key puts the action behind those that each alias of
    the key is bound to already, and leaves every other burst, and the
    rest of the recorder, as they were; so that on an alias of the key the
    actions bound before fire first, in their order, and the new one
    last, unless one of them raises. *)
Theorem bind_appends_to_every_alias (m : Ctrl.t) f r key :
  let r' := bind_ctrl m f r in
  (In key (Ctrl.codes m) ->
   bindings r' !! key = Some (default [] (bindings r !! key) ++ [f]))
  /\ (~ In key (Ctrl.codes m) -> bindings r' !! key = bindings r !! key)
  /\ hooks r' = hooks r /\ __func r' = __func r /\ normal r' = normal r
  /\ _old_settings r' = _old_settings r /\ _which r' = _which r
  /\ (forall (fs : list action) (w : world U),
         call_all U call_action (fs ++ [f]) w
         = match call_all U call_action fs w with
           | Ret _ w' => call_action f w'
           | r => r
           end).
Proof.
  cbv zeta. unfold bind_ctrl.
  pose proof (bind_all_lookup (Ctrl.codes m) f r key (codes_NoDup m)) as Hl.
  split; [| split].
  - intros Hin. rewrite Hl.
    destruct (decide (key ∈ Ctrl.codes m)) as [_ | H]; [reflexivity |].
    exfalso. apply H. now apply list_elem_of_In.
  - intros Hnin. rewrite Hl.
    destruct (decide (key ∈ Ctrl.codes m)) as [H | _]; [| reflexivity].
    exfalso. apply Hnin. now apply list_elem_of_In.
  - destruct (bind_all_fields (Ctrl.codes m) f r) as (H1 & H2 & H3 & H4 & H5).
    repeat split; try assumption.
    intros fs w. rewrite call_all_app.
    destruct (call_all U call_action fs w) as [[] w' | e w' | w'];
      try reflexivity.
    simpl. unfold bind. now destruct (call_action f w') as [[] ? | ? ? | ?].
Qed.

End RecorderBindings.

Section RecorderHooks.

Import TermInReader.

Variable U : Type.
Implicit Types (w : world U) (self : nat) (r : recorder).

Lemma getitem_in_range {A : Type} (l : list A) (i : Z) :
  0 <= i < len l -> exists x, getitem l i = Some x.
Proof.
  intros H. rewrite getitem_nonneg by lia.
  destruct (nth_error l (Z.to_nat i)) as [x |] eqn:E; [eauto |].
  apply nth_error_None in E. unfold len in H. lia.
Qed.

(** X11.  On a recorder with hooks, [switch_hook(advance)] makes the hook
    at index [(_which + advance) mod len(hooks)] the active one, for every
    [advance], negative ones too; the index stays within the hooks, and
    two calls in a row amount to one call with the sum of their advances.
    On a recorder without hooks it raises [ZeroDivisionError], after
    [_which] has been advanced: the recorder is left with
    [_which + advance], and nothing else of the world has changed. *)
Theorem switch_hook_cycles w self r (advance : Z) :
  __instances w !! self = Some r ->
  (hooks r <> [] ->
   let which := (_which r + advance) mod len (hooks r) in
   exists f,
     0 <= which < len (hooks r)
     /\ getitem (hooks r) which = Some f
     /\ switch_hook self advance w
        = Ret tt (update self (set_hook which (Some f)) w)
     /\ forall advance' : Z,
         let which' := (_which r + (advance + advance')) mod len (hooks r) in
         exists f' w'',
           getitem (hooks r) which' = Some f'
           /\ switch_hook self advance'
                (update self (set_hook which (Some f)) w)
              = Ret tt w''
           /\ obj w'' self = set_hook which' (Some f') r)
  /\ (hooks r = [] ->
      switch_hook self advance w
      = Raise ZeroDivisionError
          (update self (set_hook (_which r + advance) (__func r)) w)
      /\ obj (update self (set_hook (_which r + advance) (__func r)) w) self
         = set_hook (_which r + advance) (__func r) r).
Proof.
  intros Hr. split.
  - intros Hne. cbv zeta.
    assert (Hlen : 0 < len (hooks r))
      by (destruct (hooks r); [congruence | unfold len; simpl; lia]).
    assert (Hin : forall a, 0 <= a mod len (hooks r) < len (hooks r))
      by (intros a; apply Z.mod_pos_bound; lia).
    assert (Hstep : forall w0 r0 a,
               __instances w0 !! self = Some r0 -> hooks r0 = hooks r ->
               forall f0,
                 getitem (hooks r) ((_which r0 + a) mod len (hooks r))
                 = Some f0 ->
                 switch_hook self a w0
                 = Ret tt (update self
                             (set_hook ((_which r0 + a) mod len (hooks r))
                                (Some f0)) w0)).
    { intros w0 r0 a Hr0 Hh0 f0 Hf0.
      unfold switch_hook, bind, get, modify, raise.
      rewrite (obj_registered U w0 self r0 Hr0), Hh0.
      destruct (Z.eqb_spec (len (hooks r)) 0); [lia |].
      now rewrite Hf0. }
    destruct (getitem_in_range (hooks r)
                ((_which r + advance) mod len (hooks r)) (Hin _))
      as [f Hf].
    exists f. split; [apply Hin | split; [exact Hf | split]].
    + now apply (Hstep w r advance Hr eq_refl).
    + intros advance'. cbv zeta.
      destruct (getitem_in_range (hooks r)
                  ((_which r + (advance + advance')) mod len (hooks r))
                  (Hin _)) as [f' Hf'].
      exists f'. eexists. split; [exact Hf' | split].
      * apply (Hstep _ (set_hook ((_which r + advance) mod len (hooks r))
                          (Some f) r) advance').
        -- unfold update. simpl. now rewrite lookup_alter_eq, Hr.
        -- reflexivity.
        -- simpl. rewrite Zplus_mod_idemp_l, <- Z.add_assoc. exact Hf'.
      * unfold obj, update. simpl.
        rewrite !lookup_alter_eq, Hr. simpl.
        now rewrite Zplus_mod_idemp_l, <- Z.add_assoc.
  - intros Hnil. split.
    + unfold switch_hook, bind, get, modify, raise.
      rewrite (obj_registered U w self r Hr), Hnil. reflexivity.
    + unfold obj, update. simpl. now rewrite lookup_alter_eq, Hr.
Qed.

End RecorderHooks.

Section RecorderEnds.

Import TermInReader.

Variables ECHO ICANON : Z.
Variables VMIN VTIME : nat.
Variable setraw : termios_attr -> termios_attr.
Variable U : Type.
Variable call_action : action -> M (world U) unit.
Variable call_hook : hook -> str -> M (world U) unit.

Implicit Types (w : world U) (self : nat).

Local Abbreviation new_settings :=
  (new_settings ECHO ICANON VMIN VTIME setraw U).
Local Abbreviation end_ := (end_ U).
Local Abbreviation record := (record U call_action call_hook).
Local Abbreviation start :=
  (start ECHO ICANON VMIN VTIME setraw U call_action call_hook).

(** However [end] ends, the recorder is normal afterwards. *)
Lemma end_leaves_normal w self :
  match end_ self w with
  | Ret _ w' | Raise _ w' => normal (obj w' self) = true
  | Pending _ => False
  end.
Proof.
  unfold TermInReader.end_, bind, get, try_finally, modify, ret, raise.
  destruct (normal (obj w self)) eqn:En; simpl; [exact En |].
  destruct (has_termios w); simpl; [| apply normal_update_true].
  destruct (stdin_closed w); simpl; [apply normal_update_true |].
  destruct (_old_settings (obj w self)); simpl; apply normal_update_true.
Qed.

(** X12.  Whenever [start] returns, the recorder is back in its original
    line discipline ([normal]); so it is when [start] raises once the
    recorder has gone into raw mode.  And [end] on a recorder that has
    ended changes nothing. *)
Theorem start_leaves_recorder_normal :
  (forall w self ready reads w',
      start self ready reads w = Ret tt w' -> normal (obj w' self) = true)
  /\ (forall w self ready reads w1 e w',
         TermInReader.conflicting U self w = false ->
         new_settings self w = Ret tt w1 ->
         start self ready reads w = Raise e w' ->
         normal (obj w' self) = true)
  /\ (forall w self w', end_ self w = Ret tt w' -> end_ self w' = Ret tt w').
Proof.
  assert (Hbody : forall w1 self ready reads,
             match try_finally
                     (try_except_pass caught_by_start
                        (record self ready reads))
                     (end_ self) w1 with
             | Ret _ w' | Raise _ w' => normal (obj w' self) = true
             | Pending _ => True
             end).
  { intros w1 self ready reads. unfold try_finally, try_except_pass.
    destruct (record self ready reads w1) as [v w2 | e w2 | w2].
    - pose proof (end_leaves_normal w2 self) as H.
      now destruct (end_ self w2).
    - destruct (caught_by_start e);
        pose proof (end_leaves_normal w2 self) as H;
        now destruct (end_ self w2).
    - exact I. }
  split; [| split].
  - intros w self ready reads w'. unfold TermInReader.start, bind, get.
    destruct (TermInReader.conflicting U self w); [discriminate |].
    destruct (new_settings self w) as [[] w1 | e w1 | w1];
      try discriminate.
    intros H. pose proof (Hbody w1 self ready reads) as Hb.
    rewrite H in Hb. exact Hb.
  - intros w self ready reads w1 e w' Hc Hn.
    unfold TermInReader.start, bind, get. rewrite Hc, Hn.
    intros H. pose proof (Hbody w1 self ready reads) as Hb.
    rewrite H in Hb. exact Hb.
  - intros w self w' H.
    pose proof (end_leaves_normal w self) as Hn. rewrite H in Hn.
    unfold TermInReader.end_, bind, get. now rewrite Hn.
Qed.

End RecorderEnds.

Lemma start_leaves_recorder_normal_witness :
  let w := TermInReader.__init__ 1 [] linux_world in
  exists w',
    linux_start 1 false [] w = Ret tt w'
    /\ TermInReader.normal (TermInReader.obj w' 1) = true.
Proof.
  cbv zeta. eexists. split; [reflexivity |].
  exact (proj1 (start_leaves_recorder_normal 8 2 6 5 linux_setraw nat
                  counting no_hook)
           (TermInReader.__init__ 1 [] linux_world) 1%nat false [] _
           eq_refl).
Defined.

Lemma switch_hook_cycles_witness :
  let w := TermInReader.__init__ 1 [10; 11; 12]%nat linux_world in
  let w0 := TermInReader.__init__ 1 [] linux_world in
  TermInReader.__instances w !! 1%nat
  = Some (TermInReader.fresh [10; 11; 12]%nat)
  /\ [10; 11; 12]%nat <> []
  /\ (exists f,
         0 <= (0 + -1) mod 3 < 3
         /\ getitem [10; 11; 12]%nat ((0 + -1) mod 3) = Some f
         /\ TermInReader.switch_hook 1 (-1) w
            = Ret tt (TermInReader.update 1
                        (TermInReader.set_hook ((0 + -1) mod 3) (Some f)) w))
  /\ TermInReader.__instances w0 !! 1%nat = Some (TermInReader.fresh [])
  /\ TermInReader.switch_hook 1 1 w0
     = Raise ZeroDivisionError
         (TermInReader.update 1 (TermInReader.set_hook (0 + 1) None) w0).
Proof.
  cbv zeta.
  assert (H0 : TermInReader.__instances
                 (TermInReader.__init__ 1 [] linux_world) !! 1%nat
               = Some (TermInReader.fresh [])) by reflexivity.
  assert (H1 : TermInReader.__instances
                 (TermInReader.__init__ 1 [10; 11; 12]%nat linux_world)
               !! 1%nat
               = Some (TermInReader.fresh [10; 11; 12]%nat)) by reflexivity.
  assert (H2 : [10; 11; 12]%nat <> []) by discriminate.
  split; [exact H1 | split; [exact H2 |]].
  split.
  - destruct (proj1 (switch_hook_cycles nat _ 1%nat _ (-1) H1) H2)
      as (f & Hr & Hf & Hs & _).
    exists f. split; [exact Hr | split; [exact Hf | exact Hs]].
  - split; [exact H0 |].
    exact (proj1 (proj2 (switch_hook_cycles nat _ 1%nat _ 1 H0) eq_refl)).
Defined.

Lemma bind_appends_to_every_alias_witness :
  let r := TermInReader.bind_ctrl Ctrl.ENTER 1%nat (TermInReader.fresh []) in
  In [13%N] (Ctrl.codes Ctrl.ENTER)
  /\ TermInReader.bindings (TermInReader.bind_ctrl Ctrl.ENTER 2%nat r)
     !! [13%N]
     = Some (default [] (TermInReader.bindings r !! [13%N]) ++ [2%nat]).
Proof.
  cbv zeta.
  assert (H1 : In [13%N] (Ctrl.codes Ctrl.ENTER)) by (left; reflexivity).
  split; [exact H1 |].
  exact (proj1 (bind_appends_to_every_alias nat counting Ctrl.ENTER 2%nat
                  _ [13%N]) H1).
Defined.

(* ===================================================================== *)
(** * XTermApplication: what [close] undoes                               *)
(* ===================================================================== *)

Section ApplicationModes.

Import XTermApplication.

Lemma obey_all_app (cs cs' : list csi) (s : screen) :
  obey_all (cs ++ cs') s = obey_all cs' (obey_all cs s).
Proof. apply fold_left_app. Qed.

Lemma obey_twice (c c' : csi) (s : screen) :
  assigns c = assigns c' -> obey (obey s c) c' = obey s c'.
Proof.
  destruct c, c'; simpl; intros E; try discriminate; try reflexivity;
    injection E as ->; now rewrite insert_insert_eq.
Qed.

Lemma obey_swap (c c' : csi) (s : screen) :
  assigns c <> assigns c' -> obey (obey s c) c' = obey (obey s c') c.
Proof.
  destruct c, c'; simpl; intros E; try reflexivity; try congruence;
    (rewrite insert_insert_ne; [reflexivity | congruence]).
Qed.

(** A sequence is without effect when a later one assigns the same mode. *)
Lemma obey_absorbed (c : csi) (cs : list csi) (s : screen) :
  In (assigns c) (map assigns cs) ->
  obey_all cs (obey s c) = obey_all cs s.
Proof.
  revert s. induction cs as [| c' cs IH]; intros s Hin; [destruct Hin |].
  simpl. destruct (decide (assigns c = assigns c')) as [E | E].
  - now rewrite obey_twice.
  - rewrite obey_swap by exact E. apply IH.
    destruct Hin as [Hin | Hin]; [congruence | exact Hin].
Qed.

Lemma obey_all_absorbed (cs cs' : list csi) (s : screen) :
  incl (map assigns cs) (map assigns cs') ->
  obey_all (cs ++ cs') s = obey_all cs' s.
Proof.
  revert s. induction cs as [| c cs IH]; intros s Hin; [reflexivity |].
  simpl. rewrite IH by (intros x Hx; apply Hin; now right).
  apply obey_absorbed. apply Hin. now left.
Qed.

Lemma written_target_write (s : str) (self : t) :
  written (target_write s self) = written self ++ s.
Proof.
  unfold written, target_write. simpl. rewrite concat_app. simpl.
  now rewrite app_nil_r.
Qed.

Lemma written_write_if (b : bool) (c : csi) (self : t) :
  written (write_if b (render c) self)
  = written self ++ flat_map render (only_if b c).
Proof.
  destruct b; simpl.
  - rewrite written_target_write. now rewrite app_nil_r.
  - now rewrite app_nil_r.
Qed.

Lemma baseline_rendered : baseline = flat_map render baseline_csi.
Proof. reflexivity. Qed.

Lemma written_set_in_app (b : bool) (self : t) :
  written (set_in_app b self) = written self.
Proof. reflexivity. Qed.

Lemma written_region (top bottom : Z) (self : t) :
  written (target_write (Ctrl.esc "[" ++ str_of_int top ++ lit ";"
                           ++ str_of_int bottom ++ lit "r") self)
  = written self ++ flat_map render [Region top bottom].
Proof. rewrite written_target_write. simpl. now rewrite app_nil_r. Qed.

Lemma open_written (self : t) :
  written (open self)
  = written self ++ flat_map render (open_csi (_config self)).
Proof.
  unfold open, open_csi. cbn [fold_left]. unfold flush.
  rewrite written_set_in_app.
  set (c := _config self).
  repeat rewrite flat_map_app.
  change (Ctrl.esc "[?1003h") with (render (DecSet 1003)).
  change (Ctrl.esc "[?1035h") with (render (DecSet 1035)).
  change (Ctrl.esc "[?1034h") with (render (DecSet 1034)).
  change (Ctrl.esc "[?1014h") with (render (DecSet 1014)).
  change (Ctrl.esc "[?4l") with (render (DecReset 4)).
  change (Ctrl.esc "[?25l") with (render (DecReset 25)).
  change (Ctrl.esc "[?7l") with (render (DecReset 7)).
  change (Ctrl.esc "[?1015h") with (render (DecSet 1015)).
  change (Ctrl.esc "[?1007h") with (render (DecSet 1007)).
  change (Ctrl.esc "[?1006h") with (render (DecSet 1006)).
  change (Ctrl.esc "[?1005h") with (render (DecSet 1005)).
  change (Ctrl.esc "[?1049h") with (render (DecSet 1049)).
  change (Ctrl.esc "[?1h") with (flat_map render [DecSet 1]).
  rewrite baseline_rendered.
  repeat rewrite written_write_if.
  destruct (scrolling_region c) as [[top bottom] |].
  - rewrite written_region. repeat rewrite written_write_if.
    repeat rewrite written_target_write.
    repeat rewrite <- app_assoc. reflexivity.
  - repeat rewrite written_write_if.
    repeat rewrite written_target_write.
    change (flat_map render []) with (@nil N).
    repeat rewrite <- app_assoc. reflexivity.
Qed.

Lemma restore_defaults_written (self : t) :
  written (restore_defaults self)
  = written self ++ flat_map render (restore_csi (_config self)).
Proof.
  unfold restore_defaults, restore_csi. cbn [fold_left].
  set (c := _config self).
  repeat rewrite flat_map_app.
  change (Ctrl.esc "[?1049l") with (render (DecReset 1049)).
  change (Ctrl.esc "[?1035l") with (render (DecReset 1035)).
  change (Ctrl.esc "[?1034l") with (render (DecReset 1034)).
  change (Ctrl.esc "[?1014l") with (render (DecReset 1014)).
  change (Ctrl.esc "[?4h") with (render (DecSet 4)).
  change (Ctrl.esc "[;r") with (render RegionReset).
  change (Ctrl.esc "[?1007l") with (render (DecReset 1007)).
  rewrite baseline_rendered.
  repeat rewrite written_write_if.
  repeat rewrite written_target_write.
  replace (flat_map render
             match scrolling_region c with
             | Some _ => [RegionReset]
             | None => []
             end)
    with (flat_map render
            (only_if match scrolling_region c with
                     | Some _ => true
                     | None => false
                     end RegionReset))
    by now destruct (scrolling_region c).
  repeat rewrite <- app_assoc. reflexivity.
Qed.

Lemma write_if_fields (b : bool) (s : str) (self : t) :
  _config (write_if b s self) = _config self
  /\ _in_app (write_if b s self) = _in_app self
  /\ _recorder (write_if b s self) = _recorder self
  /\ _safe_exceptions (write_if b s self) = _safe_exceptions self.
Proof. now destruct b. Qed.

Ltac write_if_fields :=
  repeat first
    [ rewrite (proj1 (write_if_fields _ _ _))
    | rewrite (proj1 (proj2 (write_if_fields _ _ _)))
    | rewrite (proj1 (proj2 (proj2 (write_if_fields _ _ _))))
    | rewrite (proj2 (proj2 (proj2 (write_if_fields _ _ _))))
    | progress change (_config (target_write ?s ?x)) with (_config x)
    | progress change (_recorder (target_write ?s ?x)) with (_recorder x)
    | progress change (_safe_exceptions (target_write ?s ?x))
        with (_safe_exceptions x) ].

Lemma restore_defaults_fields (self : t) :
  _config (restore_defaults self) = _config self
  /\ _in_app (restore_defaults self) = _in_app self
  /\ _recorder (restore_defaults self) = _recorder self
  /\ _safe_exceptions (restore_defaults self) = _safe_exceptions self.
Proof.
  unfold restore_defaults. cbn [fold_left].
  repeat split; write_if_fields; reflexivity.
Qed.

Lemma open_fields (self : t) :
  _config (open self) = _config self
  /\ _in_app (open self) = true
  /\ _recorder (open self) = _recorder self
  /\ _safe_exceptions (open self) = _safe_exceptions self.
Proof.
  unfold open. cbn [fold_left]. unfold flush.
  repeat split; try reflexivity;
    unfold set_in_app; cbn [_config _recorder _safe_exceptions];
    write_if_fields;
    destruct (scrolling_region (_config self)) as [[? ?] |];
    write_if_fields; reflexivity.
Qed.

Lemma assigns_only_if (b : bool) (c : csi) (x : option Z) :
  In x (map assigns (only_if b c)) <-> b = true /\ x = assigns c.
Proof.
  destruct b; simpl; split; intros H.
  - destruct H as [<- | []]. now split.
  - left. symmetry. apply H.
  - destruct H.
  - destruct H as [H _]. discriminate H.
Qed.

(** Every mode that [open] assigns is assigned by [restore_defaults]. *)
Lemma open_assigns_restored (c : _XtermAppConfig) :
  incl (map assigns (open_csi c)) (map assigns (restore_csi c)).
Proof.
  intros x. unfold open_csi, restore_csi.
  repeat rewrite map_app. repeat rewrite in_app_iff.
  repeat rewrite assigns_only_if.
  destruct (scrolling_region c) as [[top bottom] |]; cbn;
    intuition (subst; cbn; auto 10).
Qed.

Lemma obey_all_modes (cs : list csi) (s : screen) (n : Z) :
  modes (obey_all cs s) !! n = final_mode n cs (modes s !! n).
Proof.
  revert s. induction cs as [| c cs IH]; intros s; [reflexivity |].
  change (obey_all (c :: cs) s) with (obey_all cs (obey s c)).
  rewrite IH. destruct c as [m | m | top bottom |]; simpl;
    try reflexivity; destruct (Z.eqb_spec m n) as [-> | Hne].
  - now rewrite lookup_insert_eq.
  - now rewrite lookup_insert_ne.
  - now rewrite lookup_insert_eq.
  - now rewrite lookup_insert_ne.
Qed.

Lemma obey_all_region (cs : list csi) (s : screen) :
  region (obey_all cs s) = final_region cs (region s).
Proof.
  revert s. induction cs as [| c cs IH]; intros s; [reflexivity |].
  change (obey_all (c :: cs) s) with (obey_all cs (obey s c)).
  rewrite IH. now destruct c.
Qed.

Ltac by_flags c :=
  destruct (alternate_scroll c), (scrolling_region c) as [[? ?] |],
    (smooth_scroll c), (fast_scroll c), (meta_key c), (alt_numlock c),
    (alternate_buffer c); reflexivity.

(** X13.  Whatever [open] sets, [restore_defaults] sets again: the
    terminal that obeys the sequences of [open] and then those of
    [restore_defaults] ends where it would have ended on the second
    alone.  There auto-wrap and the cursor are on, cursor-key mode and
    every mouse mode are off, and each optional mode of the
    configuration is back at its default, as is the scrolling region;
    what the configuration does not use is as it was before [open]. *)
Theorem restore_defaults_undoes_open (self : t) (s : screen) :
  let c := _config self in
  let s' := obey_all (open_csi c ++ restore_csi c) s in
  written (restore_defaults (open self))
  = written self ++ flat_map render (open_csi c ++ restore_csi c)
  /\ s' = obey_all (restore_csi c) s
  /\ modes s' !! 7 = Some true
  /\ modes s' !! 25 = Some true
  /\ modes s' !! 1 = Some false
  /\ modes s' !! 1003 = Some false
  /\ modes s' !! 1005 = Some false
  /\ modes s' !! 1006 = Some false
  /\ modes s' !! 1015 = Some false
  /\ modes s' !! 1007
     = (if alternate_scroll c then Some false else modes s !! 1007)
  /\ modes s' !! 4 = (if smooth_scroll c then modes s !! 4 else Some true)
  /\ modes s' !! 1014
     = (if fast_scroll c then Some false else modes s !! 1014)
  /\ modes s' !! 1034 = (if meta_key c then Some false else modes s !! 1034)
  /\ modes s' !! 1035
     = (if alt_numlock c then Some false else modes s !! 1035)
  /\ modes s' !! 1049
     = (if alternate_buffer c then Some false else modes s !! 1049)
  /\ region s' = match scrolling_region c with
                 | Some _ => None
                 | None => region s
                 end.
Proof.
  intros c s'.
  assert (Hs : s' = obey_all (restore_csi c) s).
  { apply obey_all_absorbed, open_assigns_restored. }
  split; [| split; [exact Hs |]].
  - rewrite restore_defaults_written, open_written.
    rewrite (proj1 (open_fields self)). fold c.
    rewrite flat_map_app. now rewrite app_assoc.
  - rewrite Hs. repeat rewrite obey_all_modes. rewrite obey_all_region.
    unfold restore_csi. repeat split; by_flags c.
Qed.

End ApplicationModes.

Section ApplicationCloses.

Import TermInReader XTermApplication.

Variable stty_sane : termios_attr -> termios_attr.

Implicit Types (w : world t).

Local Abbreviation close := (XTermApplication.close stty_sane).
Local Abbreviation __exit__ := (XTermApplication.__exit__ stty_sane).

Lemma close_returns w :
  holds_saved (_recorder (app w)) w ->
  close w
  = Ret tt (set_tty (stty_sane (tty (restored (_recorder (app w)) w)))
              (set_app (fun a => restore_defaults (set_in_app false a))
                 (restored (_recorder (app w)) w))).
Proof.
  intros Hs. unfold XTermApplication.close, bind, get, modify.
  rewrite (end_restores _ _ _ Hs). reflexivity.
Qed.

(** X14.  Leaving the context of an application whose recorder can be
    ended: the recorder is back in its original line discipline, the
    application is out of its context, the sequences of
    [restore_defaults] and nothing else have gone to the target,
    [stty sane] has run on the restored terminal, and a [write] from then
    on is dropped.  The exception of the block is swallowed exactly when
    there is none or it is one of the safe ones. *)
Theorem exit_closes_application w (exc : option exn) :
  let self := app w in
  holds_saved (_recorder self) w ->
  exists w',
    __exit__ exc w
    = Ret match exc with
          | None => true
          | Some e => _safe_exceptions self e
          end w'
    /\ in_application_context (app w') = false
    /\ normal (obj w' (_recorder self)) = true
    /\ tty w' = stty_sane (tty (restored (_recorder self) w))
    /\ written (app w')
       = written self ++ flat_map render (restore_csi (_config self))
    /\ forall s, write s (app w') = app w'.
Proof.
  intros self Hs. unfold XTermApplication.__exit__, bind, get, ret.
  rewrite (close_returns w Hs). fold self.
  eexists. split; [| split; [| split; [| split; [| split]]]].
  - cbn [app set_tty set_app].
    rewrite (proj2 (proj2 (proj2 (restore_defaults_fields _)))).
    rewrite restored_app. reflexivity.
  - cbn [app set_tty set_app]. unfold in_application_context.
    now rewrite (proj1 (proj2 (restore_defaults_fields _))).
  - apply restored_normal.
  - reflexivity.
  - cbn [app set_tty set_app]. rewrite restore_defaults_written.
    rewrite restored_app. reflexivity.
  - intros s. cbn [app set_tty set_app]. unfold write,
      in_application_context.
    now rewrite (proj1 (proj2 (restore_defaults_fields _))).
Qed.

(** X15.  [close] on an application whose recorder is in raw mode with no
    attributes saved (one that [record] was called on, not [start]):
    the [TypeError] of [end] comes out of [close], and [close] has done
    nothing else; the application is still in its context, nothing has
    been written, [stty sane] has not run.  The recorder is normal. *)
Theorem close_raises_with_nothing_saved w :
  let r := _recorder (app w) in
  normal (obj w r) = false ->
  has_termios w = true ->
  stdin_closed w = false ->
  _old_settings (obj w r) = None ->
  exists e w',
    close w = Raise e w'
    /\ e = TypeError "tcsetattr, arg 3: must be 7 element list"
    /\ w' = update r (set_normal true) w
    /\ app w' = app w
    /\ tty w' = tty w
    /\ normal (obj w' r) = true.
Proof.
  intros r Hn Ht Hc Ho.
  unfold XTermApplication.close, TermInReader.end_, bind, get,
    try_finally, modify, raise, ret.
  fold r. rewrite Hn, Ht, Hc, Ho. simpl.
  eexists _, _. split; [reflexivity |].
  split; [reflexivity |]. split; [reflexivity |].
  split; [reflexivity |]. split; [reflexivity |].
  apply normal_update_true.
Qed.

End ApplicationCloses.

Lemma exit_closes_application_witness :
  holds_saved 1 (linux_app_world (Some linux_cooked))
  /\ exists w',
      XTermApplication.__exit__ linux_sane (Some KeyboardInterrupt)
        (linux_app_world (Some linux_cooked))
      = Ret true w'
      /\ XTermApplication.in_application_context (TermInReader.app w')
         = false
      /\ TermInReader.tty w' = linux_sane linux_cooked
      /\ TermInReader.iflag (TermInReader.tty w') = 9474
      /\ TermInReader.lflag (TermInReader.tty w') = 35387.
Proof.
  assert (Hs : holds_saved 1 (linux_app_world (Some linux_cooked))).
  { intros _ _ _. discriminate. }
  split; [exact Hs |].
  destruct (exit_closes_application linux_sane
              (linux_app_world (Some linux_cooked))
              (Some KeyboardInterrupt) Hs)
    as (w' & Hr & Hc & _ & Ht & _).
  exists w'. split; [exact Hr | split; [exact Hc |]].
  rewrite Ht. repeat split.
Defined.

Lemma close_raises_with_nothing_saved_witness :
  exists e w',
    XTermApplication.close linux_sane (linux_app_world None) = Raise e w'
    /\ XTermApplication.in_application_context (TermInReader.app w')
       = true
    /\ TermInReader.tty w' = linux_setraw linux_cooked.
Proof.
  destruct (close_raises_with_nothing_saved linux_sane
              (linux_app_world None) eq_refl eq_refl eq_refl eq_refl)
    as (e & w' & Hr & _ & _ & Ha & Ht & _).
  exists e, w'. split; [exact Hr |].
  split; [now rewrite Ha | now rewrite Ht].
Defined.

(* ===================================================================== *)
(** * LineBuffer: the cursor stays within the text                        *)
(* ===================================================================== *)

Section LineBufferCursor.

Import LineBuffer.
Implicit Types (self : LineBuffer.t) (char : str).

Variable re_search_left_end : str -> option Z.
Variable re_search_right_end : str -> option Z.

Local Abbreviation key := (key re_search_left_end re_search_right_end).
Local Abbreviation cursor_keys :=
  (cursor_keys re_search_left_end re_search_right_end).

Lemma slice_to_from {A : Type} (l : list A) (i : Z) :
  slice_to l i ++ slice_from l i = l.
Proof. apply firstn_skipn. Qed.

Lemma len_slice_to_from {A : Type} (l : list A) (i : Z) :
  len (slice_to l i) + len (slice_from l i) = len l.
Proof. rewrite <- len_app. now rewrite slice_to_from. Qed.

Lemma len_slice_prefix {A : Type} (l : list A) (i : Z) :
  0 <= i <= len l -> len (slice l 0 i) = i.
Proof.
  intros H. unfold slice, slice_bound.
  destruct (Z.ltb_spec 0 0); [lia |].
  destruct (Z.ltb_spec i 0); [lia |].
  rewrite (Z.min_l 0) by apply len_nonneg. rewrite (Z.min_l i) by lia.
  rewrite Z.sub_0_r. change (Z.to_nat 0) with 0%nat.
  change (skipn 0 l) with l. unfold len in *. rewrite length_firstn. lia.
Qed.

Lemma insert_accepts_nonempty char :
  insert_accepts char = true -> 1 <= len char.
Proof.
  destruct char as [| c char]; [| unfold len; simpl; lia].
  intros H. vm_compute in H. discriminate H.
Qed.

Lemma insert_cursor_ok char self :
  cursor_ok self -> cursor_ok (insert char self).
Proof.
  intros [H1 H2]. unfold insert.
  destruct (insert_accepts char) eqn:E; [| now split].
  apply insert_accepts_nonempty in E.
  unfold cursor_ok. simpl. rewrite !len_app.
  pose proof (len_slice_to_from (_line self) (_pos self)). lia.
Qed.

Lemma cursor_left_ok self n :
  0 <= n -> cursor_ok self -> cursor_ok (snd (cursor_left n self)).
Proof.
  intros Hn Hok. pose proof (proj1 (cursor_left_right self n Hn Hok)) as H.
  destruct (cursor_left n self). apply H.
Qed.

Lemma cursor_right_ok self n :
  0 <= n -> cursor_ok self -> cursor_ok (snd (cursor_right n self)).
Proof.
  intros Hn Hok. pose proof (proj2 (cursor_left_right self n Hn Hok)) as H.
  destruct (cursor_right n self). apply H.
Qed.

Lemma cursor_keys_cursor_ok char self :
  ends_within re_search_left_end -> ends_within re_search_right_end ->
  cursor_ok self -> cursor_ok (cursor_keys char self).
Proof.
  intros Hl Hr Hok. pose proof (len_nonneg (_line self)) as Hlen.
  unfold LineBuffer.cursor_keys.
  repeat match goal with
         | |- context [if ?b then _ else _] => destruct b
         end;
    try (apply cursor_left_ok; [lia | exact Hok]);
    try (apply cursor_right_ok; [lia | exact Hok]);
    try exact Hok.
  - apply cursor_left_ok; [| exact Hok].
    destruct (re_search_left_end _) as [e |] eqn:E; [| exact Hlen].
    apply Hl in E. rewrite len_slice_prefix in E by (destruct Hok; lia).
    lia.
  - apply cursor_right_ok; [| exact Hok].
    destruct (re_search_right_end _) as [e |] eqn:E; [| exact Hlen].
    apply Hr in E. lia.
Qed.

Lemma history_up_cursor_ok self :
  cursor_ok self -> cursor_ok (state_of (history_up self)).
Proof.
  intros Hok.
  unfold history_up, bind, get, modify, ret, history_append,
    history_getitem.
  destruct ((_history_pos self =? 0)
            || (_history_pos self <? len (_local_history self) - 1));
    [| exact Hok].
  destruct (_history_pos self =? 0); simpl;
    match goal with
    | |- context [getitem ?l ?i] => destruct (getitem l i)
    end; simpl; try exact Hok;
    unfold cursor_ok; simpl; pose proof (len_nonneg l); lia.
Qed.

Lemma history_down_cursor_ok self :
  cursor_ok self -> cursor_ok (state_of (history_down self)).
Proof.
  intros Hok.
  unfold history_down, bind, get, modify, ret, history_pop,
    history_getitem.
  destruct (_history_pos self >? 0); [| exact Hok]. simpl.
  destruct (_history_pos self - 1 =? 0); simpl.
  - destruct (last (_local_history self)) as [l |]; simpl;
      [| exact Hok].
    unfold cursor_ok. simpl. pose proof (len_nonneg l). lia.
  - match goal with
    | |- context [getitem ?l ?i] => destruct (getitem l i) as [l' |]
    end; simpl; [| exact Hok].
    unfold cursor_ok. simpl. pose proof (len_nonneg l'). lia.
Qed.

Lemma enter_send_cursor_ok self :
  cursor_ok self -> cursor_ok (state_of (enter_send self)).
Proof.
  intros Hok.
  assert (Hdone : forall s p, p = len (_prompt s) ->
                         cursor_ok (set_pos p (set_line [] s))).
  { intros s p ->. unfold cursor_ok. simpl. change (@len N []) with 0.
    lia. }
  unfold enter_send, bind, get, modify, ret, history_pop, history_append.
  destruct (match last (_local_history self) with
            | Some l => negb (str_eqb (_line self) l)
            | None => true
            end); simpl; [| now apply Hdone].
  destruct (negb (_history_pos self =? 0)); simpl; [| now apply Hdone].
  destruct (last (_local_history self)); simpl;
    [now apply Hdone | exact Hok].
Qed.

(** X16.  Whatever burst [key] is given, and however the call ends, a
    cursor that lies within the text of the line buffer lies within the
    text afterwards.  (The two searches of the word jumps are taken to
    give the end of a match within the string searched.) *)
Theorem key_keeps_cursor_in_text char self :
  ends_within re_search_left_end -> ends_within re_search_right_end ->
  cursor_ok self -> cursor_ok (state_of (key char self)).
Proof.
  intros Hl Hr Hok. unfold LineBuffer.key, bind, get, modify, ret.
  destruct (Ctrl.eq char Ctrl.DEL || Ctrl.eq char Ctrl.BACKSPACE).
  - assert (Hcut : forall s,
               cursor_ok s ->
               _pos s < len (_prompt s) + len (_line s) ->
               cursor_ok
                 (set_line
                    (slice_to (_line s) (_pos s - len (_prompt s))
                       ++ slice_from (_line s)
                            (_pos s - len (_prompt s) + 1)) s)).
    { intros s [H1 H2] Hlt. unfold cursor_ok. simpl.
      rewrite slice_to_in_range, slice_from_in_range by lia.
      rewrite (len_firstn_skipn (_line s) (_pos s - len (_prompt s)))
        by lia.
      lia. }
    destruct (Ctrl.eq char Ctrl.DEL
              && (_pos self <? len (_prompt self ++ _line self))) eqn:Ed.
    + apply andb_prop in Ed as [_ Ed]. apply Z.ltb_lt in Ed.
      rewrite len_app in Ed. simpl. now apply Hcut.
    + destruct (Ctrl.eq char Ctrl.BACKSPACE); [| exact Hok].
      pose proof (proj1 (cursor_left_right self 1 ltac:(lia) Hok)) as H.
      destruct (cursor_left 1 self) as [go self1].
      destruct H as (Hgo & Hpos & Hline & Hprompt & Hok1).
      destruct go; simpl; [| exact Hok1].
      apply Hcut; [exact Hok1 |].
      symmetry in Hgo. apply Z.ltb_lt in Hgo. destruct Hok.
      rewrite Hpos, Hline, Hprompt. lia.
  - destruct (Ctrl.eq char Ctrl.TAB); [now apply insert_cursor_ok |].
    assert (H1 : cursor_ok (insert char self))
      by now apply insert_cursor_ok.
    set (s1 := insert char self) in *. clearbody s1.
    assert (H2 : cursor_ok (if __cursor_movement self
                            then cursor_keys char s1 else s1))
      by (destruct (__cursor_movement self);
          [now apply cursor_keys_cursor_ok | exact H1]).
    destruct (__cursor_movement self); simpl;
      match type of H2 with cursor_ok ?s => set (s2 := s) in * end;
      clearbody s2;
      (destruct (__use_history self); simpl;
       [ destruct (Ctrl.eq char Ctrl.U_ARROW);
         [ pose proof (history_up_cursor_ok s2 H2) as H3;
           destruct (history_up s2) as [[] s3 | e s3 | s3]
         | destruct (Ctrl.eq char Ctrl.D_ARROW);
           [ pose proof (history_down_cursor_ok s2 H2) as H3;
             destruct (history_down s2) as [[] s3 | e s3 | s3]
           | pose proof H2 as H3; simpl ] ]
       | pose proof H2 as H3 ]);
      simpl in *; try exact H3;
      (destruct (__send_with_enter self && Ctrl.eq char Ctrl.ENTER);
       simpl; [| assumption]);
      match goal with
      | |- context [enter_send ?s] =>
          let H := fresh in
          assert (H : cursor_ok s) by assumption;
          apply enter_send_cursor_ok in H;
          destruct (enter_send s); simpl in *; exact H
      end.
Qed.

End LineBufferCursor.

Lemma key_keeps_cursor_in_text_witness :
  let self := LineBuffer.mk [] (lit "abc") 4 0 (lit "> ") true true true 4 in
  ends_within (fun _ => None)
  /\ cursor_ok self
  /\ cursor_ok
       (state_of (LineBuffer.key (fun _ => None) (fun _ => None)
                    [27; 91; 65]%N self)).
Proof.
  cbv zeta.
  assert (H0 : ends_within (fun _ => None)) by (intros s e; discriminate).
  assert (H1 : cursor_ok
                 (LineBuffer.mk [] (lit "abc") 4 0 (lit "> ")
                    true true true 4))
    by (split; vm_compute; discriminate).
  split; [exact H0 | split; [exact H1 |]].
  exact (key_keeps_cursor_in_text (fun _ => None) (fun _ => None)
           [27; 91; 65]%N _ H0 H0 H1).
Defined.

(* ===================================================================== *)
(** * utils.py: more on the SequencePointer                               *)
(* ===================================================================== *)

Section SequencePointerMoves.

Import SequencePointer.

Context {T : Type}.
Implicit Types (self : SequencePointer.t T) (n : Z).

(** X17.  On a list that cycles, with the pointer in the list and a step
    of at most one turn, [previous(n)] undoes [next(n)] and [next(n)]
    undoes [previous(n)]. *)
Theorem next_and_previous_cancel self n :
  __cycle self = true ->
  0 <= _pointer self < len (seq self) ->
  0 <= n <= len (seq self) ->
  previous (next self n) n = self /\ next (previous self n) n = self.
Proof.
  destruct self as [l p cy]. simpl. intros -> Hp Hn.
  unfold previous, next, with_pointer. simpl. split.
  - destruct (Z.gtb_spec (p + n + 1) (len l)); simpl.
    + destruct (Z.ltb_spec (p + n - len l - n) 0); [| lia].
      f_equal. lia.
    + destruct (Z.ltb_spec (p + n - n) 0); [lia |]. f_equal. lia.
  - destruct (Z.ltb_spec (p - n) 0); simpl.
    + destruct (Z.gtb_spec (len l + (p - n) + n + 1) (len l)); [| lia].
      f_equal. lia.
    + destruct (Z.gtb_spec (p - n + n + 1) (len l)); [lia |].
      f_equal. lia.
Qed.

(** X18.  On a list that does not cycle, with the pointer in the list,
    [next(n)] for [n >= 0] leaves the list at its end ([at_end]) exactly
    when the step reaches the last item or goes beyond it, and a list at
    its end stays there under [next]; a list that cycles is never at its
    end. *)
Theorem at_end_after_next self n :
  0 <= _pointer self < len (seq self) -> 0 <= n ->
  (__cycle self = false ->
   at_end (next self n) = (len (seq self) - 1 <=? _pointer self + n)
   /\ (at_end self = true -> next self n = self))
  /\ (__cycle self = true -> at_end (next self n) = false).
Proof.
  destruct self as [l p cy]. simpl. intros Hp Hn.
  unfold at_end, next, with_pointer. simpl. split; intros ->; simpl.
  - split.
    + destruct (Z.gtb_spec (p + n + 1) (len l)); simpl.
      * rewrite Z.eqb_refl. symmetry. apply Z.leb_le. lia.
      * destruct (Z.eqb_spec (p + n) (len l - 1));
          destruct (Z.leb_spec (len l - 1) (p + n)); try reflexivity; lia.
    + intros He. apply Z.eqb_eq in He.
      destruct (Z.gtb_spec (p + n + 1) (len l)); f_equal; lia.
  - now destruct (_ >? _).
Qed.

End SequencePointerMoves.

Lemma next_and_previous_cancel_witness :
  let self := SequencePointer.mk [lit "a"; lit "b"; lit "c"] 2 true in
  SequencePointer.previous (SequencePointer.next self 2) 2 = self
  /\ SequencePointer.next (SequencePointer.previous self 3) 3 = self.
Proof.
  cbv zeta. split.
  - exact (proj1 (next_and_previous_cancel
                    (SequencePointer.mk [lit "a"; lit "b"; lit "c"] 2 true)
                    2 eq_refl ltac:(vm_compute; split; congruence)
                    ltac:(vm_compute; split; congruence))).
  - exact (proj2 (next_and_previous_cancel
                    (SequencePointer.mk [lit "a"; lit "b"; lit "c"] 2 true)
                    3 eq_refl ltac:(vm_compute; split; congruence)
                    ltac:(vm_compute; split; congruence))).
Defined.

Lemma at_end_after_next_witness :
  let self := SequencePointer.mk [lit "a"; lit "b"; lit "c"] 0 false in
  SequencePointer.at_end (SequencePointer.next self 5) = true
  /\ SequencePointer.at_end (SequencePointer.next self 1) = false.
Proof.
  cbv zeta. split.
  - exact (proj1 (proj1 (at_end_after_next
                    (SequencePointer.mk [lit "a"; lit "b"; lit "c"] 0 false)
                    5 ltac:(vm_compute; split; congruence)
                    ltac:(vm_compute; congruence)) eq_refl)).
  - exact (proj1 (proj1 (at_end_after_next
                    (SequencePointer.mk [lit "a"; lit "b"; lit "c"] 0 false)
                    1 ltac:(vm_compute; split; congruence)
                    ltac:(vm_compute; congruence)) eq_refl)).
Defined.

(* ===================================================================== *)
(** * apps.py: the indices of a match and their highlighting              *)
(* ===================================================================== *)

Lemma find_at_occurs (s sub : str) (i0 : Z) :
  find_at s sub i0 = -1
  \/ exists k : nat,
       find_at s sub i0 = i0 + Z.of_nat k
       /\ (k <= length s)%nat
       /\ startswith (skipn k s) sub = true.
Proof.
  revert i0. induction s as [| x s IH]; intros i0; cbn [find_at].
  - destruct (startswith [] sub) eqn:E; [| now left].
    right. exists 0%nat. repeat split; [lia | simpl; lia | exact E].
  - destruct (startswith (x :: s) sub) eqn:E.
    + right. exists 0%nat. repeat split; [lia | simpl; lia | exact E].
    + destruct (IH (i0 + 1)) as [H | (k & Hf & Hk & Hs)]; [now left |].
      right. exists (S k). repeat split; [lia | simpl; lia | exact Hs].
Qed.

(** [s.find(sub, start)] from a start that is not negative: -1, or an
    index from [start] on at which [sub] occurs. *)
Lemma find_occurs (s sub : str) (start : Z) :
  0 <= start ->
  find s sub start = -1
  \/ (start <= find s sub start /\ occurs s sub (find s sub start)).
Proof.
  intros Hs. unfold find, occurs.
  destruct (Z.ltb_spec start 0); [lia |].
  destruct (Z.ltb_spec (len s) start) as [Hlong | Hin]; [now left |].
  destruct (find_at_occurs (skipn (Z.to_nat start) s) sub start)
    as [Hno | (k & Hf & Hk & Ho)]; [now left |].
  right. rewrite Hf. rewrite length_skipn in Hk. unfold len in *.
  split; [lia |]. split; [lia |].
  rewrite skipn_skipn in Ho.
  now replace (Z.to_nat (start + Z.of_nat k))
    with (k + Z.to_nat start)%nat by lia.
Qed.

Lemma increasing_snoc (l : list Z) (x : Z) :
  increasing l -> (forall y, In y l -> y < x) -> increasing (l ++ [x]).
Proof.
  induction l as [| a [| b l] IH]; intros Hi Hx.
  - exact I.
  - simpl. split; [apply Hx; now left | exact I].
  - destruct Hi as [Hab Hi]. split; [exact Hab |].
    apply IH; [exact Hi |]. intros y Hy. apply Hx. now right.
Qed.

Lemma increasing_cons (a : Z) (l : list Z) :
  increasing (a :: l) -> increasing l /\ forall y, In y l -> a < y.
Proof.
  revert a. induction l as [| b l IH]; intros a Hi.
  - split; [exact I | intros y []].
  - destruct Hi as [Hab Hi]. split; [exact Hi |].
    intros y [<- | Hy]; [exact Hab |].
    destruct (IH b Hi) as [_ Hb]. specialize (Hb y Hy). lia.
Qed.

Section MatchIndices.

Import FuzzyFinder.

Variable casefold_char : char -> str.

Local Abbreviation casefold := (casefold casefold_char).
Local Abbreviation loop_body := (loop_body casefold_char).
Local Abbreviation loop := (loop casefold_char).
Local Abbreviation _matches_query := (_matches_query casefold_char).

Implicit Types (item query : str) (st : loop_state) (c : char).

Local Abbreviation match_at := (match_at casefold_char).

Lemma loop_body_match item st c st' :
  -1 <= last_index st ->
  loop_body item (casefold item) st c = Ok (Some st') ->
  last_index st < last_index st'
  /\ indices st' = indices st ++ [last_index st']
  /\ match_at item c (last_index st').
Proof.
  intros Hl. unfold FuzzyFinder.loop_body.
  destruct (find_occurs (casefold item) (casefold_char c)
              (last_index st + 1)) as [E | [Hge Ho]]; [lia | |].
  - rewrite E. discriminate.
  - destruct (Z.eqb_spec (find (casefold item) (casefold_char c)
                            (last_index st + 1)) (-1)); [discriminate |].
    destruct (getitem item _) as [d |] eqn:Eg; [| discriminate].
    intros [= <-]. simpl. split; [lia |]. split; [reflexivity |].
    split; [| exact Ho].
    rewrite getitem_nonneg in Eg by lia.
    assert (Z.to_nat (find (casefold item) (casefold_char c)
                        (last_index st + 1)) < length item)%nat
      by (apply nth_error_Some; congruence).
    unfold len. lia.
Qed.

Lemma loop_match item query :
  forall st st',
    -1 <= last_index st ->
    increasing (indices st) ->
    (forall y, In y (indices st) -> y <= last_index st) ->
    loop item (casefold item) query st = Ok (Some st') ->
    exists new,
      indices st' = indices st ++ new
      /\ Forall2 (match_at item) query new
      /\ increasing (indices st')
      /\ (forall y, In y (indices st') -> y <= last_index st')
      /\ last_index st <= last_index st'.
Proof.
  induction query as [| c query IH]; intros st st' Hl Hi Hb; simpl.
  - intros [= <-]. exists []. rewrite app_nil_r.
    repeat split; try assumption; [constructor | lia].
  - destruct (loop_body item (casefold item) st c) as [[st1 |] | e] eqn:E;
      try discriminate.
    destruct (loop_body_match item st c st1 Hl E) as (Hlt & Hind & Hm).
    intros Hloop.
    destruct (IH st1 st') as (new & Hnew & Hf & Hi' & Hb' & Hle);
      try assumption; try lia.
    + rewrite Hind. apply increasing_snoc; [exact Hi |].
      intros y Hy. specialize (Hb y Hy). lia.
    + intros y. rewrite Hind, in_app_iff. simpl.
      intros [Hy | [<- | []]]; [specialize (Hb y Hy) |]; lia.
    + exists (last_index st1 :: new).
      split; [now rewrite Hnew, Hind, <- app_assoc |].
      split; [constructor; assumption |].
      split; [exact Hi' |]. split; [exact Hb' | lia].
Qed.

(** The indices of a match. *)
Lemma matches_query_indices query item (indices : list Z)
    (score : Float.t) :
  _matches_query query item = Ok (Some (indices, score)) ->
  query <> []
  /\ Forall2 (match_at item) query indices
  /\ increasing indices.
Proof.
  unfold FuzzyFinder._matches_query.
  destruct (loop item (casefold item) query
              (mk_loop (Float.of_int 0) [] (-1)))
    as [[st |] | e] eqn:E; try discriminate.
  destruct (loop_match item query (mk_loop (Float.of_int 0) [] (-1)) st)
    as (new & Hnew & Hf & Hi & _);
    [simpl; lia | exact I | intros y [] | exact E |].
  simpl in Hnew. subst new.
  destruct (FuzzyFinder.indices st) as [| i l] eqn:Ei; [discriminate |].
  intros [= <- _]. split; [| split; assumption].
  intros ->. inversion Hf.
Qed.

(** X19.  Whatever the case folding, the indices that [_matches_query]
    returns are one for each character of the query, which is not empty,
    in the order of the query and each greater than the one before; each
    lies in the item, and the folded character of the query occurs at it
    in the folded item. *)
Theorem matched_indices_increase query item (indices : list Z)
    (score : Float.t) :
  _matches_query query item = Ok (Some (indices, score)) ->
  query <> []
  /\ Forall2 (match_at item) query indices
  /\ increasing indices.
Proof. exact (matches_query_indices query item indices score). Qed.

End MatchIndices.

Lemma matched_indices_increase_witness :
  FuzzyFinder._matches_query ascii_casefold (lit "Ap") (lit "apple")
  = Ok (Some ([0; 1], Float.div (Float.of_int 3) (Float.of_int 4)))
  /\ increasing [0; 1].
Proof.
  assert (H : FuzzyFinder._matches_query ascii_casefold (lit "Ap")
                (lit "apple")
              = Ok (Some ([0; 1],
                          Float.div (Float.of_int 3) (Float.of_int 4))))
    by (vm_compute; reflexivity).
  split; [exact H |].
  exact (proj2 (proj2 (matched_indices_increase ascii_casefold _ _ _ _ H))).
Defined.

(** ** Highlighting *)

Section Highlighting.

Import FuzzyFinder.

Implicit Types (item : str) (marks : list Z) (c : char) (k i : Z).

Lemma marked_from_none k item marks :
  (forall x, In x marks -> x < k \/ k + len item <= x) ->
  marked_from k item marks = item.
Proof.
  revert k. induction item as [| c item IH]; intros k H; [reflexivity |].
  cbn [marked_from].
  replace (existsb (Z.eqb k) marks) with false.
  - simpl. f_equal. apply IH. intros x Hx. specialize (H x Hx).
    unfold len in *. simpl in H. lia.
  - symmetry. apply not_true_is_false. intros He.
    apply existsb_exists in He as (x & Hx & Hk). apply Z.eqb_eq in Hk.
    subst x. specialize (H k Hx). unfold len in H. simpl in H. lia.
Qed.

Lemma marked_from_app k (l1 l2 : str) marks :
  marked_from k (l1 ++ l2) marks
  = marked_from k l1 marks ++ marked_from (k + len l1) l2 marks.
Proof.
  revert k. induction l1 as [| c l1 IH]; intros k.
  - simpl. now rewrite Z.add_0_r.
  - cbn [marked_from app]. rewrite IH, <- app_assoc.
    do 2 f_equal. unfold len. simpl length. f_equal. lia.
Qed.

Lemma marked_from_small k item x marks :
  x < k -> marked_from k item (x :: marks) = marked_from k item marks.
Proof.
  revert k. induction item as [| c item IH]; intros k H; [reflexivity |].
  cbn [marked_from existsb].
  destruct (Z.eqb_spec k x); [lia |]. simpl orb.
  now rewrite IH by lia.
Qed.

(** An item split at an index that it holds. *)
Lemma split_at item i c :
  getitem item i = Some c -> 0 <= i ->
  item = firstn (Z.to_nat i) item ++ [c] ++ skipn (Z.to_nat (i + 1)) item
  /\ len (firstn (Z.to_nat i) item) = i.
Proof.
  intros Hg Hi. rewrite getitem_nonneg in Hg by exact Hi.
  assert (Hlt : (Z.to_nat i < length item)%nat)
    by (apply nth_error_Some; congruence).
  split.
  - rewrite <- (firstn_skipn (Z.to_nat i) item) at 1. f_equal.
    replace (Z.to_nat (i + 1)) with (S (Z.to_nat i)) by lia.
    clear Hi. revert Hg Hlt. generalize (Z.to_nat i). clear i.
    induction item as [| d item IH]; intros [| n] Hg Hlt; simpl in *;
      try lia.
    + now injection Hg as ->.
    + apply IH; [exact Hg | lia].
  - unfold len. rewrite length_firstn. lia.
Qed.

Lemma format_at_split (l1 l2 : str) c :
  format_at (l1 ++ [c] ++ l2) (len l1)
  = Ok (l1 ++ Ctrl.esc "[1;36m" ++ [c] ++ Ctrl.esc "[22;39m" ++ l2).
Proof.
  pose proof (len_nonneg l1) as Hl. unfold format_at.
  rewrite getitem_nonneg by exact Hl. unfold len at 1. rewrite Nat2Z.id.
  rewrite nth_error_app2, Nat.sub_diag by lia. cbn [nth_error app].
  rewrite slice_to_in_range, slice_from_in_range
    by (rewrite len_app; unfold len in *; simpl; lia).
  unfold len. rewrite Nat2Z.id.
  rewrite firstn_app, Nat.sub_diag, firstn_all. cbn [firstn].
  rewrite app_nil_r.
  replace (Z.to_nat (Z.of_nat (length l1) + 1)) with (length l1 + 1)%nat
    by lia.
  rewrite skipn_app, skipn_all2 by lia.
  replace (length l1 + 1 - length l1)%nat with 1%nat by lia.
  reflexivity.
Qed.

(** One more mark, to the left of those there are. *)
Lemma format_at_marked item i marks :
  0 <= i < len item ->
  (forall x, In x marks -> i < x) ->
  format_at (marked item marks) i = Ok (marked item (i :: marks))
  /\ len (marked item (i :: marks)) = len (marked item marks) + 15.
Proof.
  intros Hi Hm.
  destruct (getitem item i) as [c |] eqn:Eg.
  2: { rewrite getitem_nonneg in Eg by lia.
       apply nth_error_None in Eg. unfold len in Hi. lia. }
  destruct (split_at item i c Eg ltac:(lia)) as [Hsplit Hlen].
  set (l1 := firstn (Z.to_nat i) item) in *.
  set (l2 := skipn (Z.to_nat (i + 1)) item) in *.
  assert (E1 : marked item marks
               = l1 ++ [c] ++ marked_from (i + 1) l2 marks).
  { unfold marked. rewrite Hsplit at 1.
    rewrite marked_from_app, marked_from_none
      by (intros x Hx; specialize (Hm x Hx); lia).
    rewrite Hlen, Z.add_0_l. cbn [app marked_from].
    replace (existsb (Z.eqb i) marks) with false; [reflexivity |].
    symmetry. apply not_true_is_false. intros He.
    apply existsb_exists in He as (x & Hx & Hk). apply Z.eqb_eq in Hk.
    subst x. specialize (Hm i Hx). lia. }
  assert (E2 : marked item (i :: marks)
               = l1 ++ Ctrl.esc "[1;36m" ++ [c] ++ Ctrl.esc "[22;39m"
                   ++ marked_from (i + 1) l2 marks).
  { unfold marked. rewrite Hsplit at 1.
    rewrite marked_from_app, marked_from_none
      by (intros x [<- | Hx]; [| specialize (Hm x Hx)]; lia).
    rewrite Hlen, Z.add_0_l. cbn [app marked_from existsb].
    rewrite Z.eqb_refl. cbn [orb].
    rewrite marked_from_small by lia. now rewrite <- !app_assoc. }
  rewrite E1, E2. split.
  - pose proof (format_at_split l1 (marked_from (i + 1) l2 marks) c) as H.
    rewrite Hlen in H. exact H.
  - rewrite !len_app. unfold len. simpl. lia.
Qed.

Lemma format_each_app (l1 l2 : list Z) item :
  format_each (l1 ++ l2) item
  = match format_each l1 item with
    | Ok item' => format_each l2 item'
    | Err e => Err e
    end.
Proof.
  revert item. induction l1 as [| i l1 IH]; intros item; [reflexivity |].
  simpl. destruct (format_at item i); [apply IH | reflexivity].
Qed.

Lemma format_each_marked item marks :
  increasing marks -> (forall x, In x marks -> 0 <= x < len item) ->
  format_each (rev marks) item = Ok (marked item marks)
  /\ len (marked item marks) = len item + 15 * len marks.
Proof.
  induction marks as [| i marks IH]; intros Hi Hr.
  - simpl. unfold marked. rewrite marked_from_none by (intros x []).
    split; [reflexivity |]. change (@len Z []) with 0. lia.
  - apply increasing_cons in Hi as [Hi Hlt].
    destruct IH as [IH1 IH2]; [exact Hi | |].
    { intros x Hx. apply Hr. now right. }
    destruct (format_at_marked item i marks) as [H1 H2];
      [apply Hr; now left | exact Hlt |].
    simpl rev. rewrite format_each_app, IH1. cbn [format_each].
    rewrite H1, H2, IH2. split; [reflexivity |].
    unfold len. simpl length. lia.
Qed.

Variable casefold_char : char -> str.

(** What [_format_item] makes of an item that matches the query in use. *)
Lemma format_item_marked (self : FuzzyFinder.t) item
    (indices : list Z) (score : Float.t) :
  _matches_query casefold_char (_current_query self) item
  = Ok (Some (indices, score)) ->
  _format_item casefold_char self item = Ok (marked item indices)
  /\ len (marked item indices) = len item + 15 * len (_current_query self).
Proof.
  intros Hm.
  destruct (matches_query_indices casefold_char _ _ _ _ Hm)
    as (Hne & Hf & Hi).
  destruct (format_each_marked item indices Hi) as [H1 H2].
  { intros x Hx. apply (Forall2_flip) in Hf.
    revert Hx. clear - Hf. induction Hf as [| i c l q Hic _ IH].
    - intros [].
    - intros [<- | Hx]; [apply Hic | now apply IH]. }
  split.
  - unfold FuzzyFinder._format_item.
    destruct (_current_query self) as [| c q]; [congruence |].
    now rewrite Hm.
  - rewrite H2. apply Forall2_length in Hf. unfold len. lia.
Qed.

(** X20.  [_format_item] on an item that the current query matches: the
    loop runs through the matched indices from the last to the first, so
    that no index is off by the sequences put in before; what comes out
    is the item with exactly the matched characters between the
    sequences for bold cyan and for normal, 15 characters longer for
    each of them. *)
Theorem format_item_marks_the_match (self : FuzzyFinder.t) item
    (indices : list Z) (score : Float.t) :
  _matches_query casefold_char (_current_query self) item
  = Ok (Some (indices, score)) ->
  _format_item casefold_char self item = Ok (marked item indices)
  /\ len (marked item indices) = len item + 15 * len (_current_query self).
Proof. apply format_item_marked. Qed.

End Highlighting.

Lemma format_item_marks_the_match_witness :
  let self := FuzzyFinder.set_current_query (lit "pl")
                (FuzzyFinder.__init__ [lit "apple"] 24) in
  exists score,
    FuzzyFinder._matches_query ascii_casefold (lit "pl") (lit "apple")
    = Ok (Some ([1; 3], score))
    /\ FuzzyFinder._format_item ascii_casefold self (lit "apple")
       = Ok (lit "a" ++ Ctrl.esc "[1;36mp" ++ Ctrl.esc "[22;39mp"
               ++ Ctrl.esc "[1;36ml" ++ Ctrl.esc "[22;39me").
Proof.
  cbv zeta.
  destruct (FuzzyFinder._matches_query ascii_casefold (lit "pl")
              (lit "apple")) as [[[ind sc] |] | e] eqn:E;
    try (exfalso; vm_compute in E; discriminate E).
  assert (Hind : ind = [1; 3])
    by (vm_compute in E; now injection E as <- _).
  subst ind. exists sc. split; [reflexivity |].
  exact (proj1 (format_item_marks_the_match ascii_casefold
                  (FuzzyFinder.set_current_query (lit "pl")
                     (FuzzyFinder.__init__ [lit "apple"] 24))
                  (lit "apple") [1; 3] sc E)).
Defined.

(* ===================================================================== *)
(** * apps.py: the hook of the FuzzyFinder                                *)
(* ===================================================================== *)

Lemma count_from_nonneg (fuel : nat) (s sub : str) :
  0 <= count_from fuel s sub.
Proof.
  revert s. induction fuel as [| fuel IH]; intros s; simpl.
  - destruct (startswith s sub); lia.
  - destruct (startswith s sub).
    + destruct sub as [| c sub].
      * destruct s as [| d s]; [lia |]. specialize (IH s). lia.
      * specialize (IH (skipn (length (c :: sub)) s)). lia.
    + destruct s as [| d s]; [lia | apply IH].
Qed.

Lemma count_nonneg (s sub : str) : 0 <= count s sub.
Proof. apply count_from_nonneg. Qed.

(** One character holds no report of the wheel. *)
Lemma count_single (c : char) (sub : str) :
  (2 <= length sub)%nat -> count [c] sub = 0.
Proof.
  destruct sub as [| d1 [| d2 sub]]; simpl; try lia. intros _.
  unfold count. simpl. destruct (d1 =? c)%N; reflexivity.
Qed.

Section FinderHook.

Import FuzzyFinder.

Variable casefold_char : char -> str.
Variable re_search_left_end : str -> option Z.
Variable re_search_right_end : str -> option Z.

Variable columns : positive.

Local Abbreviation handle_key :=
  (FuzzyFinderUI.handle_key casefold_char re_search_left_end
     re_search_right_end columns).
Local Abbreviation results := (results casefold_char).
Local Abbreviation _matches_query := (_matches_query casefold_char).
Local Abbreviation _format_item := (_format_item casefold_char).
Local Abbreviation folds_simply := (folds_simply casefold_char).
Local Abbreviation highlight := (FuzzyFinderUI.highlight casefold_char columns).
Local Abbreviation writelines :=
  (FuzzyFinderUI.writelines casefold_char columns).
Local Abbreviation _format_normal_line :=
  (FuzzyFinderUI._format_normal_line casefold_char).
Local Abbreviation format_lines :=
  (FuzzyFinderUI.format_lines casefold_char columns).
Local Abbreviation renders := (renders casefold_char).
Local Abbreviation readable := (readable casefold_char).

Implicit Types (self : FuzzyFinder.t) (n : Z) (key : str) (c : char).

(** A move of the pointer leaves everything but the sublist and the start
    of the window. *)
Lemma scroll_fields self n :
  (objects (scroll_up n self) = objects self
   /\ _maxlines (scroll_up n self) = _maxlines self
   /\ _current_query (scroll_up n self) = _current_query self
   /\ _line_buffer (scroll_up n self) = _line_buffer self
   /\ _value (scroll_up n self) = _value self
   /\ _in_app (scroll_up n self) = _in_app self
   /\ _sublist (scroll_up n self) = _sublist self)
  /\ (objects (scroll_down n self) = objects self
      /\ _maxlines (scroll_down n self) = _maxlines self
      /\ _current_query (scroll_down n self) = _current_query self
      /\ _line_buffer (scroll_down n self) = _line_buffer self
      /\ _value (scroll_down n self) = _value self
      /\ _in_app (scroll_down n self) = _in_app self
      /\ _sublist (scroll_down n self) = _sublist self).
Proof.
  unfold scroll_up, scroll_down. split.
  - now destruct (_ >? _).
  - now destruct (_ <? _).
Qed.

Lemma move_fields self n :
  (objects (next_item n self) = objects self
   /\ _maxlines (next_item n self) = _maxlines self
   /\ _current_query (next_item n self) = _current_query self
   /\ _line_buffer (next_item n self) = _line_buffer self
   /\ _value (next_item n self) = _value self
   /\ _in_app (next_item n self) = _in_app self
   /\ SequencePointer.seq (_sublist (next_item n self))
      = SequencePointer.seq (_sublist self))
  /\ (objects (previous_item n self) = objects self
      /\ _maxlines (previous_item n self) = _maxlines self
      /\ _current_query (previous_item n self) = _current_query self
      /\ _line_buffer (previous_item n self) = _line_buffer self
      /\ _value (previous_item n self) = _value self
      /\ _in_app (previous_item n self) = _in_app self
      /\ SequencePointer.seq (_sublist (previous_item n self))
         = SequencePointer.seq (_sublist self)).
Proof.
  split.
  - unfold next_item. destruct (negb _); [| now repeat split].
    cbv zeta.
    match goal with
    | |- context [if ?b then _ else _] => destruct b
    end.
    + match goal with
      | |- context [scroll_down ?k ?s] =>
          destruct (proj2 (scroll_fields s k))
            as (-> & -> & -> & -> & -> & -> & ->)
      end.
      simpl. now rewrite next_seq.
    + simpl. now rewrite next_seq.
  - unfold previous_item. destruct (negb _); [| now repeat split].
    cbv zeta.
    match goal with
    | |- context [if ?b then _ else _] => destruct b
    end.
    + unfold scroll_to_view.
      destruct (negb _); [| simpl; now rewrite previous_seq].
      match goal with
      | |- context [if ?b then _ else _] => destruct b
      end.
      * match goal with
        | |- context [scroll_up ?k ?s] =>
            destruct (proj1 (scroll_fields s k))
              as (-> & -> & -> & -> & -> & -> & ->)
        end.
        simpl. now rewrite previous_seq.
      * match goal with
        | |- context [scroll_down ?k ?s] =>
            destruct (proj2 (scroll_fields s k))
              as (-> & -> & -> & -> & -> & -> & ->)
        end.
        simpl. now rewrite previous_seq.
    + simpl. now rewrite previous_seq.
Qed.


(** ** What the matcher and the formatting can raise *)

Lemma loop_error item i_item query st e :
  loop casefold_char item i_item query st = Err e -> e = IndexError.
Proof.
  revert st. induction query as [| c query IH]; intros st; simpl.
  - discriminate.
  - destruct (loop_body casefold_char item i_item st c) as [[st' |] | e']
      eqn:E; try discriminate.
    + apply IH.
    + intros [= <-]. unfold loop_body in E.
      destruct (_ =? -1); [discriminate |].
      destruct (getitem item _); [discriminate |]. congruence.
Qed.

Lemma matches_query_error query item e :
  _matches_query query item = Err e -> e = IndexError.
Proof.
  unfold FuzzyFinder._matches_query.
  destruct (loop _ _ _ _ _) as [[st |] | e'] eqn:E.
  - destruct (indices st); discriminate.
  - discriminate.
  - intros [= <-]. exact (loop_error _ _ _ _ _ E).
Qed.

(** The matcher raises nothing on strings that fold character by
    character. *)
Lemma matches_query_simple query item :
  folds_simply query -> folds_simply item ->
  exists m, _matches_query query item = Ok m.
Proof.
  intros Hq Hi. unfold FuzzyFinder._matches_query.
  pose proof (loop_spec casefold_char item query
                (mk_loop (Float.of_int 0) [] (-1)) Hi Hq) as H.
  simpl in H. specialize (H ltac:(lia)).
  destruct (loop _ _ _ _ _) as [[st |] | e]; [| eauto | contradiction].
  destruct (indices st); eauto.
Qed.

(** [_format_item] raises what the matcher raises, and nothing else. *)
Lemma format_item_error self item e :
  _format_item self item = Err e ->
  _matches_query (_current_query self) item = Err e.
Proof.
  unfold FuzzyFinder._format_item.
  destruct (_current_query self) as [| c q] eqn:Eq; [discriminate |].
  destruct (_matches_query (c :: q) item) as [[[idx sc] |] | e'] eqn:Em;
    [| discriminate | congruence].
  assert (Hm : FuzzyFinder._matches_query casefold_char (_current_query self)
                 item = Ok (Some (idx, sc))) by (now rewrite Eq).
  destruct (format_item_marked casefold_char self item idx sc Hm) as [Hf _].
  unfold FuzzyFinder._format_item in Hf. rewrite Eq, Em in Hf.
  rewrite Hf. discriminate.
Qed.

Lemma format_item_simple self item :
  folds_simply (_current_query self) -> folds_simply item ->
  exists s, _format_item self item = Ok s.
Proof.
  intros Hq Hi.
  destruct (_format_item self item) as [s | e] eqn:E; [eauto |].
  apply format_item_error in E.
  destruct (matches_query_simple _ _ Hq Hi) as [m Hm]. congruence.
Qed.

Lemma getitem_In {A : Type} (l : list A) (i : Z) (x : A) :
  getitem l i = Some x -> In x l.
Proof.
  unfold getitem. destruct (_ && _); [apply nth_error_In | discriminate].
Qed.

Lemma trim_folds_simply item w :
  folds_simply (lit ".") -> folds_simply item ->
  folds_simply (trim item w 0).
Proof.
  intros Hd Hi. unfold trim. destruct (_ && _); [| exact Hi].
  apply Forall_app. split; [now apply Forall_take |].
  apply Forall_app. split; [| now apply Forall_drop].
  apply Forall_inv in Hd. repeat constructor; exact Hd.
Qed.

Lemma format_normal_line_error self item w e :
  _format_normal_line self item w = Err e -> e = IndexError.
Proof.
  unfold FuzzyFinderUI._format_normal_line.
  destruct (_format_item self _) as [s | e'] eqn:E; [discriminate |].
  intros [= <-]. apply format_item_error in E.
  exact (matches_query_error _ _ _ E).
Qed.

Lemma format_normal_line_simple self item w :
  folds_simply (_current_query self) -> folds_simply (lit ".") ->
  folds_simply item ->
  exists s, _format_normal_line self item w = Ok s.
Proof.
  intros Hq Hd Hi. unfold FuzzyFinderUI._format_normal_line.
  destruct (format_item_simple self (trim item (w - 5) 0) Hq
              (trim_folds_simply item (w - 5) Hd Hi)) as [s ->].
  eauto.
Qed.

Lemma format_lines_error self lines e :
  format_lines self lines = Err e -> e = IndexError.
Proof.
  induction lines as [| line lines IH]; simpl; [discriminate |].
  destruct (_format_normal_line self line _) as [s | e'] eqn:E.
  - destruct (format_lines self lines); [discriminate |].
    intros [= <-]. now apply IH.
  - intros [= <-]. exact (format_normal_line_error _ _ _ _ E).
Qed.

Lemma format_lines_simple self lines :
  folds_simply (_current_query self) -> folds_simply (lit ".") ->
  Forall folds_simply lines ->
  exists l, format_lines self lines = Ok l.
Proof.
  intros Hq Hd. induction 1 as [| line lines Hl _ [l IH]]; simpl; [eauto |].
  destruct (format_normal_line_simple self line (Z.pos columns) Hq Hd Hl)
    as [s ->].
  rewrite IH. eauto.
Qed.

(** ** The rendering leaves the state *)

Lemma footer_returns self : FuzzyFinderUI.footer self = Ret tt self.
Proof.
  unfold FuzzyFinderUI.footer, FuzzyFinderUI.contextprotected, bind, get, ret.
  now destruct (_in_app self).
Qed.

Lemma clear_returns self : FuzzyFinderUI.clear self = Ret tt self.
Proof.
  unfold FuzzyFinderUI.clear, FuzzyFinderUI.contextprotected, bind, get, ret.
  now destruct (_in_app self).
Qed.

Lemma write_ends (text : res str) self :
  (forall e, text = Err e -> e = IndexError) ->
  ends_in (FuzzyFinderUI.write text self) self.
Proof.
  intros H. unfold FuzzyFinderUI.write, ret, raise.
  destruct text as [s | e]; [now left |].
  right. now rewrite (H e eq_refl).
Qed.

Lemma highlight_ends self i unhighlight :
  ends_in (highlight i unhighlight self) self.
Proof.
  unfold FuzzyFinderUI.highlight, FuzzyFinderUI.contextprotected,
    FuzzyFinderUI.sublist_getitem, bind, get, ret, raise.
  destruct (_in_app self); [| now left].
  destruct (i <? _); [| now left].
  destruct (getitem _ i) as [item |]; [| now right].
  destruct unhighlight; apply write_ends.
  - apply format_normal_line_error.
  - intros e E. apply format_item_error in E.
    exact (matches_query_error _ _ _ E).
Qed.

Lemma highlight_returns self i unhighlight :
  0 <= i -> readable self ->
  highlight i unhighlight self = Ret tt self.
Proof.
  intros Hi (Hq & Hd & Hl).
  unfold FuzzyFinderUI.highlight, FuzzyFinderUI.contextprotected,
    FuzzyFinderUI.sublist_getitem, bind, get, ret, raise.
  destruct (_in_app self); [| reflexivity].
  destruct (Z.ltb_spec i (len (SequencePointer.seq (_sublist self))));
    [| reflexivity].
  destruct (getitem_in_range (SequencePointer.seq (_sublist self)) i)
    as [item Hitem]; [lia |].
  rewrite Hitem.
  assert (Hf : folds_simply item).
  { apply getitem_In in Hitem.
    exact (proj1 (List.Forall_forall _ _) Hl item Hitem). }
  destruct unhighlight; unfold FuzzyFinderUI.write.
  - now destruct (format_normal_line_simple self item (Z.pos columns)
                    Hq Hd Hf) as [s ->].
  - now destruct (format_item_simple self item Hq Hf) as [s ->].
Qed.

Lemma writelines_ends self : ends_in (writelines self) self.
Proof.
  unfold FuzzyFinderUI.writelines, FuzzyFinderUI.contextprotected, bind, get,
    ret.
  destruct (_in_app self); [| now left].
  rewrite footer_returns.
  destruct (_ =? 0); [left; apply clear_returns |].
  apply write_ends. intros e.
  destruct (format_lines self _) as [l | e'] eqn:E; [discriminate |].
  intros [= <-]. exact (format_lines_error _ _ _ E).
Qed.

Lemma writelines_returns self :
  readable self -> writelines self = Ret tt self.
Proof.
  intros (Hq & Hd & Hl).
  unfold FuzzyFinderUI.writelines, FuzzyFinderUI.contextprotected, bind, get,
    ret.
  destruct (_in_app self); [| reflexivity].
  rewrite footer_returns.
  destruct (_ =? 0); [apply clear_returns |].
  unfold FuzzyFinderUI.write.
  destruct (format_lines_simple self
              (slice (SequencePointer.seq (_sublist self))
                 (_start_index self) (_start_index self + _maxlines self))
              Hq Hd) as [l ->]; [| reflexivity].
  unfold slice. now apply Forall_take, Forall_drop.
Qed.

(** ** The methods with their rendering, and without *)

Lemma scroll_up_ends n self :
  ends_in (FuzzyFinderUI.scroll_up casefold_char columns n self)
    (scroll_up n self).
Proof.
  unfold FuzzyFinderUI.scroll_up, FuzzyFinder.scroll_up, bind, get, modify,
    ret.
  destruct (_ >? 0); [apply writelines_ends | now left].
Qed.

Lemma scroll_down_ends n self :
  ends_in (FuzzyFinderUI.scroll_down casefold_char columns n self)
    (scroll_down n self).
Proof.
  unfold FuzzyFinderUI.scroll_down, FuzzyFinder.scroll_down, bind, get,
    modify, ret.
  cbv zeta. destruct (_ <? _); [apply writelines_ends | now left].
Qed.

Lemma scroll_to_view_ends self :
  ends_in (FuzzyFinderUI.scroll_to_view casefold_char columns self)
    (scroll_to_view self).
Proof.
  unfold FuzzyFinderUI.scroll_to_view, FuzzyFinder.scroll_to_view, bind, get,
    ret.
  cbv zeta. destruct (negb _); [| now left].
  destruct (_ <? 0); [apply scroll_up_ends | apply scroll_down_ends].
Qed.

Lemma scroll_up_returns n self :
  readable self ->
  FuzzyFinderUI.scroll_up casefold_char columns n self
  = Ret tt (scroll_up n self).
Proof.
  intros Hr.
  unfold FuzzyFinderUI.scroll_up, FuzzyFinder.scroll_up, bind, get, modify,
    ret.
  destruct (_ >? 0); [now apply writelines_returns | reflexivity].
Qed.

Lemma scroll_down_returns n self :
  readable self ->
  FuzzyFinderUI.scroll_down casefold_char columns n self
  = Ret tt (scroll_down n self).
Proof.
  intros Hr.
  unfold FuzzyFinderUI.scroll_down, FuzzyFinder.scroll_down, bind, get,
    modify, ret.
  cbv zeta. destruct (_ <? _); [now apply writelines_returns | reflexivity].
Qed.

Lemma scroll_to_view_returns self :
  readable self ->
  FuzzyFinderUI.scroll_to_view casefold_char columns self
  = Ret tt (scroll_to_view self).
Proof.
  intros Hr.
  unfold FuzzyFinderUI.scroll_to_view, FuzzyFinder.scroll_to_view, bind, get,
    ret.
  cbv zeta. destruct (negb _); [| reflexivity].
  destruct (_ <? 0);
    [now apply scroll_up_returns | now apply scroll_down_returns].
Qed.

(** A scroll shows the same list for the same query. *)
Lemma scroll_readable self n :
  readable self ->
  readable (scroll_up n self) /\ readable (scroll_down n self)
  /\ readable (scroll_to_view self).
Proof.
  intros Hr.
  destruct (scroll_fields self n) as [(_ & _ & Hq1 & _ & _ & _ & Hs1)
                                        (_ & _ & Hq2 & _ & _ & _ & Hs2)].
  assert (H1 : forall k, readable (scroll_up k self)).
  { intros k.
    destruct (proj1 (scroll_fields self k)) as (_ & _ & Hq & _ & _ & _ & Hs).
    red. now rewrite Hq, Hs. }
  assert (H2 : forall k, readable (scroll_down k self)).
  { intros k.
    destruct (proj2 (scroll_fields self k)) as (_ & _ & Hq & _ & _ & _ & Hs).
    red. now rewrite Hq, Hs. }
  split; [apply H1 | split; [apply H2 |]].
  unfold FuzzyFinder.scroll_to_view. cbv zeta.
  destruct (negb _); [| exact Hr].
  destruct (_ <? 0); [apply H1 | apply H2].
Qed.

Lemma next_item_ends n self :
  ends_in (FuzzyFinderUI.next_item casefold_char columns n self)
    (next_item n self)
  \/ FuzzyFinderUI.next_item casefold_char columns n self
     = Raise IndexError self.
Proof.
  unfold FuzzyFinderUI.next_item, FuzzyFinder.next_item, bind, get, modify.
  destruct (negb _); [| left; now left].
  destruct (highlight_ends self (SequencePointer.pointer (_sublist self))
              true) as [-> | ->]; [| now right].
  left. cbv zeta.
  set (self1 := set_sublist (SequencePointer.next (_sublist self) n) self).
  destruct (_ >=? _).
  - match goal with
    | |- context [FuzzyFinderUI.scroll_down _ _ ?k self1] =>
        destruct (scroll_down_ends k self1) as [-> | ->]; [| now right];
        destruct (highlight_ends (scroll_down k self1)
                    (SequencePointer.pointer (_sublist self1)) false)
          as [-> | ->]; [| now right]
    end.
    rewrite footer_returns. now left.
  - unfold ret.
    destruct (highlight_ends self1
                (SequencePointer.pointer (_sublist self1)) false)
      as [-> | ->]; [| now right].
    rewrite footer_returns. now left.
Qed.

Lemma previous_item_ends n self :
  ends_in (FuzzyFinderUI.previous_item casefold_char columns n self)
    (previous_item n self)
  \/ FuzzyFinderUI.previous_item casefold_char columns n self
     = Raise IndexError self.
Proof.
  unfold FuzzyFinderUI.previous_item, FuzzyFinder.previous_item, bind, get,
    modify.
  destruct (negb _); [| left; now left].
  destruct (highlight_ends self (SequencePointer.pointer (_sublist self))
              true) as [-> | ->]; [| now right].
  left. cbv zeta.
  set (self1 := set_sublist (SequencePointer.previous (_sublist self) n)
                  self).
  destruct (_ <? _).
  - destruct (scroll_to_view_ends self1) as [-> | ->]; [| now right].
    destruct (highlight_ends (scroll_to_view self1)
                (SequencePointer.pointer (_sublist self1)) false)
      as [-> | ->]; [| now right].
    rewrite footer_returns. now left.
  - unfold ret.
    destruct (highlight_ends self1
                (SequencePointer.pointer (_sublist self1)) false)
      as [-> | ->]; [| now right].
    rewrite footer_returns. now left.
Qed.

Lemma next_pointer_nonneg (l : SequencePointer.t str) n :
  SequencePointer.__cycle l = false -> 0 <= SequencePointer.pointer l ->
  0 <= n -> SequencePointer.seq l <> [] ->
  0 <= SequencePointer.pointer (SequencePointer.next l n).
Proof.
  intros Hc Hp Hn Hl. unfold SequencePointer.next, SequencePointer.pointer in *.
  assert (0 < len (SequencePointer.seq l)).
  { unfold len. destruct (SequencePointer.seq l); [congruence | simpl; lia]. }
  destruct (_ >? _); simpl; [rewrite Hc |]; lia.
Qed.

Lemma previous_pointer_nonneg (l : SequencePointer.t str) n :
  SequencePointer.__cycle l = false ->
  0 <= SequencePointer.pointer (SequencePointer.previous l n).
Proof.
  intros Hc. unfold SequencePointer.previous, SequencePointer.pointer.
  destruct (Z.ltb_spec (SequencePointer._pointer l - n) 0); simpl;
    [rewrite Hc |]; lia.
Qed.

Lemma readable_same self s :
  _current_query s = _current_query self ->
  SequencePointer.seq (_sublist s) = SequencePointer.seq (_sublist self) ->
  readable self -> readable s.
Proof. intros Hq Hs Hr. red. now rewrite Hq, Hs. Qed.

Lemma next_item_returns n self :
  renders self -> 0 <= n ->
  FuzzyFinderUI.next_item casefold_char columns n self
  = Ret tt (next_item n self)
  /\ renders (next_item n self).
Proof.
  intros (Hc & Hp & Hr) Hn.
  unfold FuzzyFinderUI.next_item, FuzzyFinder.next_item, bind, get, modify.
  destruct (Z.eqb_spec (len (SequencePointer.seq (_sublist self))) 0)
    as [E | E]; cbn [negb]; cbv beta iota.
  { split; [reflexivity | exact (conj Hc (conj Hp Hr))]. }
  rewrite (highlight_returns self _ true Hp Hr). cbv zeta.
  set (self1 := set_sublist (SequencePointer.next (_sublist self) n) self).
  assert (Hne : SequencePointer.seq (_sublist self) <> [])
    by (intros E0; rewrite E0 in E; now apply E).
  assert (Hp1 : 0 <= SequencePointer.pointer (_sublist self1))
    by (now apply next_pointer_nonneg).
  assert (Hc1 : SequencePointer.__cycle (_sublist self1) = false)
    by (unfold self1; simpl; now rewrite next_cycle).
  assert (Hr1 : readable self1).
  { apply (readable_same self); [reflexivity | | exact Hr].
    unfold self1. simpl. apply next_seq. }
  destruct (_ >=? _).
  - match goal with
    | |- context [FuzzyFinderUI.scroll_down _ _ ?k self1] =>
        rewrite (scroll_down_returns k self1 Hr1);
        pose proof (proj1 (proj2 (scroll_readable self1 k Hr1))) as Hr2;
        destruct (proj2 (scroll_fields self1 k))
          as (_ & _ & _ & _ & _ & _ & Hs2);
        rewrite (highlight_returns (scroll_down k self1) _ false Hp1 Hr2)
    end.
    rewrite footer_returns. split; [reflexivity |].
    split; [| split]; try rewrite Hs2; assumption.
  - unfold ret. rewrite (highlight_returns self1 _ false Hp1 Hr1).
    rewrite footer_returns. split; [reflexivity |].
    split; [| split]; assumption.
Qed.

Lemma previous_item_returns n self :
  renders self ->
  FuzzyFinderUI.previous_item casefold_char columns n self
  = Ret tt (previous_item n self)
  /\ renders (previous_item n self).
Proof.
  intros (Hc & Hp & Hr).
  unfold FuzzyFinderUI.previous_item, FuzzyFinder.previous_item, bind, get,
    modify.
  destruct (negb _); [| split; [reflexivity | exact (conj Hc (conj Hp Hr))]].
  rewrite (highlight_returns self _ true Hp Hr). cbv zeta.
  set (self1 := set_sublist (SequencePointer.previous (_sublist self) n)
                  self).
  assert (Hp1 : 0 <= SequencePointer.pointer (_sublist self1))
    by (now apply previous_pointer_nonneg).
  assert (Hc1 : SequencePointer.__cycle (_sublist self1) = false)
    by (unfold self1; simpl; now rewrite previous_cycle).
  assert (Hr1 : readable self1).
  { apply (readable_same self); [reflexivity | | exact Hr].
    unfold self1. simpl. apply previous_seq. }
  destruct (_ <? _).
  - rewrite (scroll_to_view_returns self1 Hr1).
    pose proof (proj2 (proj2 (scroll_readable self1 0 Hr1))) as Hr2.
    assert (Hs2 : _sublist (scroll_to_view self1) = _sublist self1).
    { unfold FuzzyFinder.scroll_to_view. cbv zeta.
      destruct (negb _); [| reflexivity].
      destruct (_ <? 0);
        [apply (proj1 (scroll_fields self1 _))
        | apply (proj2 (scroll_fields self1 _))]. }
    rewrite (highlight_returns (scroll_to_view self1) _ false Hp1 Hr2).
    rewrite footer_returns. split; [reflexivity |].
    split; [| split]; try rewrite Hs2; assumption.
  - unfold ret. rewrite (highlight_returns self1 _ false Hp1 Hr1).
    rewrite footer_returns. split; [reflexivity |].
    split; [| split]; assumption.
Qed.

(** [search_bar] with its rendering does what [search_bar] does without,
    or its rendering raises in the state that it has reached. *)
Lemma search_bar_ends self :
  FuzzyFinderUI.search_bar casefold_char columns self
  = search_bar casefold_char self
  \/ exists s',
      search_bar casefold_char self = Ret tt s'
      /\ FuzzyFinderUI.search_bar casefold_char columns self
         = Raise IndexError s'.
Proof.
  unfold FuzzyFinderUI.search_bar, FuzzyFinderUI.contextprotected,
    FuzzyFinder.search_bar, bind, get, modify, raise.
  destruct (_in_app self); [| now left].
  destruct (negb _); [| now left].
  destruct (LineBuffer.line (_line_buffer self)) as [| c q] eqn:Eq.
  - cbn [FuzzyFinder.results].
    match goal with
    | |- context [writelines ?s] =>
        destruct (writelines_ends s) as [-> | ->];
        [destruct (highlight_ends s 0 false) as [-> | ->] |]
    end; [now left | right; eauto | right; eauto].
  - cbn [FuzzyFinder.results].
    destruct (matching casefold_char (c :: q) (objects self)) as [l | e];
      [| now left].
    rewrite clear_returns.
    match goal with
    | |- context [writelines ?s] =>
        destruct (writelines_ends s) as [-> | ->];
        [destruct (highlight_ends s 0 false) as [-> | ->] |]
    end; [now left | right; eauto | right; eauto].
Qed.

Lemma search_bar_returns self s' :
  search_bar casefold_char self = Ret tt s' -> readable s' ->
  FuzzyFinderUI.search_bar casefold_char columns self = Ret tt s'.
Proof.
  unfold FuzzyFinderUI.search_bar, FuzzyFinderUI.contextprotected,
    FuzzyFinder.search_bar, bind, get, modify, raise.
  destruct (_in_app self); [| trivial].
  destruct (negb _); [| trivial].
  destruct (LineBuffer.line (_line_buffer self)) as [| c q] eqn:Eq.
  - cbn [FuzzyFinder.results]. intros [= <-] Hr.
    rewrite (writelines_returns _ Hr).
    now rewrite (highlight_returns _ 0 false (Z.le_refl 0) Hr).
  - cbn [FuzzyFinder.results].
    destruct (matching casefold_char (c :: q) (objects self)) as [l | e];
      [| discriminate].
    intros [= <-] Hr. rewrite clear_returns.
    rewrite (writelines_returns _ Hr).
    now rewrite (highlight_returns _ 0 false (Z.le_refl 0) Hr).
Qed.

(** Nothing is searched, and nothing is rendered, for a line that has
    not changed. *)
Lemma search_bar_unchanged self :
  LineBuffer.line (_line_buffer self) = _current_query self ->
  FuzzyFinderUI.search_bar casefold_char columns self = Ret tt self.
Proof.
  intros H.
  unfold FuzzyFinderUI.search_bar, FuzzyFinderUI.contextprotected, bind, get,
    ret.
  destruct (_in_app self); [| reflexivity].
  now rewrite H, str_eqb_refl.
Qed.

(** X21.  A burst that holds reports of the mouse wheel is not typed.  In
    a finder whose list is the one for its line, [handle_key] moves the
    pointer up by the number of the reports of wheel up in the burst,
    then down by the number of those of wheel down, and searches
    nothing.  It returns in that state, or [IndexError] comes out of
    what it renders, in that state, in the state before the call, or
    with the pointer moved up only.  It returns whenever the list does
    not cycle, the pointer is not negative and every character of the
    query, of the listed items and of the full stop folds to one
    character.  In the state with the pointer moved, the line buffer and
    the items of the list are as before, and a pointer that was shown is
    shown. *)
Theorem wheel_burst_moves_pointer key self :
  let up := count key (Ctrl.esc "[M`") in
  let down := count key (Ctrl.esc "[Ma") in
  up <> 0 \/ down <> 0 ->
  LineBuffer.line (_line_buffer self) = _current_query self ->
  let self' := next_item down (previous_item up self) in
  (ends_in (handle_key key self) self'
   \/ handle_key key self = Raise IndexError self
   \/ handle_key key self = Raise IndexError (previous_item up self))
  /\ (renders self -> handle_key key self = Ret tt self')
  /\ _line_buffer self' = _line_buffer self
  /\ SequencePointer.seq (_sublist self')
     = SequencePointer.seq (_sublist self)
  /\ (1 <= _maxlines self -> viewport_ok self -> viewport_ok self').
Proof.
  intros up down Hwheel Hsync self'.
  destruct (proj1 (move_fields (previous_item up self) down))
    as (Ho & Hm & Hq & Hb & Hv & Ha & Hs).
  destruct (proj2 (move_fields self up))
    as (Ho' & Hm' & Hq' & Hb' & Hv' & Ha' & Hs').
  fold self' in Ho, Hm, Hq, Hb, Hv, Ha, Hs.
  assert (Hcond : (up =? down) && (down =? 0) = false).
  { apply andb_false_iff.
    destruct (Z.eqb_spec up down), (Z.eqb_spec down 0); auto. lia. }
  assert (Hsb : FuzzyFinderUI.search_bar casefold_char columns self'
                = Ret tt self').
  { apply search_bar_unchanged. congruence. }
  split; [| split; [| split; [congruence | split; [congruence |]]]].
  - unfold FuzzyFinderUI.handle_key, bind. fold up down.
    destruct (previous_item_ends up self) as [[-> | ->] | ->];
      [| right; right; reflexivity | right; left; reflexivity].
    destruct (next_item_ends down (previous_item up self))
      as [[-> | ->] | ->];
      [| left; right; reflexivity | right; right; reflexivity].
    rewrite Hcond. unfold ret. fold self'. rewrite Hsb. left. now left.
  - intros Hren. unfold FuzzyFinderUI.handle_key, bind. fold up down.
    destruct (previous_item_returns up self Hren) as [-> Hren1].
    destruct (next_item_returns down (previous_item up self) Hren1
                (count_nonneg _ _)) as [-> _].
    rewrite Hcond. unfold ret. fold self'. exact Hsb.
  - intros Hmax Hok.
    destruct (previous_item_viewport self up Hmax (count_nonneg _ _) Hok)
      as [Hok1 _].
    apply next_item_viewport; [lia | apply count_nonneg | exact Hok1].
Qed.

Lemma key_printable c (b : LineBuffer.t) :
  printable c ->
  LineBuffer.key re_search_left_end re_search_right_end [c] b
  = Ret None
      (LineBuffer.set_pos (LineBuffer._pos b + 1)
         (LineBuffer.set_line
            (slice_to (LineBuffer._line b) (LineBuffer._pos b) ++ [c]
               ++ slice_from (LineBuffer._line b) (LineBuffer._pos b)) b)).
Proof.
  intros (H32 & H46 & H127).
  rewrite key_plain.
  - rewrite insert_accepted; [reflexivity |].
    apply insert_accepts_iff. right. now exists c.
  - intros m Hm. apply printable_is_no_key; try assumption.
    intros ->. simpl in Hm. intuition discriminate.
Qed.

(** X22.  A character of code at least 0x20 other than the full stop and
    ['\x7f'] (which are aliases of [DEL] and of [BACKSPACE]) is typed
    into a finder that is in its context, whose list is the one for its
    line and whose cursor is at the end of the line.  When [handle_key]
    returns, the character has gone to the end of the line, and the
    finder shows the results for the new line from the top, with the
    pointer on the first; they are all among the objects of the finder.
    It returns whenever the list does not cycle, the pointer is not
    negative and every character of the query, of the listed items, of
    the objects, of the full stop and the character typed fold to one
    character each. *)
Theorem typed_character_searches c self :
  printable c ->
  _in_app self = true ->
  LineBuffer.line (_line_buffer self) = _current_query self ->
  cursor_at_end (_line_buffer self) ->
  let query := _current_query self ++ [c] in
  (forall self',
      handle_key [c] self = Ret tt self' ->
      exists l b,
        results query (objects self) = Ok l
        /\ self' = mk (objects self) (SequencePointer.__init__ l false) 0
                     (_maxlines self) query b (_value self) true
        /\ LineBuffer.line b = query
        /\ cursor_at_end b
        /\ forall obj, In obj l -> In obj (objects self))
  /\ (renders self -> folds_simply [c] ->
      Forall folds_simply (objects self) ->
      exists self', handle_key [c] self = Ret tt self').
Proof.
  intros Hc Happ Hsync Hend query.
  set (b := LineBuffer.set_pos (LineBuffer._pos (_line_buffer self) + 1)
              (LineBuffer.set_line query (_line_buffer self))).
  set (s2 := next_item 0 (previous_item 0 self)).
  destruct (proj1 (move_fields (previous_item 0 self) 0))
    as (Ho & Hm & Hq & Hb & Hv & Ha & Hs).
  destruct (proj2 (move_fields self 0))
    as (Ho' & Hm' & Hq' & Hb' & Hv' & Ha' & Hs').
  fold s2 in Ho, Hm, Hq, Hb, Hv, Ha, Hs.
  assert (Hkey : LineBuffer.key re_search_left_end re_search_right_end [c]
                   (_line_buffer self) = Ret None b).
  { rewrite (key_printable c _ Hc). unfold b, query.
    unfold LineBuffer.line in Hsync. unfold cursor_at_end in Hend.
    destruct (slice_beyond (LineBuffer._line (_line_buffer self))
                (LineBuffer._pos (_line_buffer self))) as [E1 E2].
    { pose proof (len_nonneg (LineBuffer._prompt (_line_buffer self))).
      lia. }
    rewrite E1, E2, app_nil_r, Hsync. reflexivity. }
  set (s3 := set_line_buffer b s2).
  assert (Hq0 : query <> [])
    by (unfold query; now destruct (_current_query self)).
  assert (Hne : LineBuffer.line (_line_buffer s3) <> _current_query s3).
  { simpl. rewrite Hq, Hq'. unfold query. intros E.
    apply (f_equal (@length N)) in E. rewrite length_app in E.
    simpl in E. lia. }
  assert (Hold : search_bar casefold_char s3
                 = match results query (objects self) with
                   | Ok l =>
                       Ret tt (mk (objects self)
                                 (SequencePointer.__init__ l false) 0
                                 (_maxlines self) query b (_value self) true)
                   | Err e => Raise e (set_current_query query s3)
                   end).
  { rewrite search_bar_shows; [| simpl; congruence | exact Hne].
    simpl. rewrite Ho, Ho'.
    destruct (results query (objects self)) as [l | e]; [| reflexivity].
    unfold set_start_index, set_sublist, set_current_query,
      set_line_buffer. simpl.
    rewrite Ho, Ho', Hm, Hm', Hv, Hv', Ha, Ha', Happ. reflexivity. }
  assert (Hrun : forall o,
             FuzzyFinderUI.previous_item casefold_char columns 0 self
             = Ret tt (previous_item 0 self) ->
             FuzzyFinderUI.next_item casefold_char columns 0
               (previous_item 0 self) = Ret tt s2 ->
             FuzzyFinderUI.search_bar casefold_char columns s3 = o ->
             handle_key [c] self = o).
  { intros o H1 H2 H3. unfold FuzzyFinderUI.handle_key, bind.
    rewrite !count_single by (vm_compute; lia). rewrite H1, H2.
    change ((0 =? 0) && (0 =? 0)) with true. cbv iota beta.
    unfold FuzzyFinderUI.line_buffer_key. rewrite Hb, Hb', Hkey.
    exact H3. }
  split.
  - intros self' Hret.
    assert (H1 : FuzzyFinderUI.previous_item casefold_char columns 0 self
                 = Ret tt (previous_item 0 self)).
    { destruct (previous_item_ends 0 self) as [[H | H] | H]; [exact H | |];
        exfalso; revert Hret; unfold FuzzyFinderUI.handle_key, bind;
        rewrite !count_single by (vm_compute; lia); now rewrite H. }
    assert (H2 : FuzzyFinderUI.next_item casefold_char columns 0
                   (previous_item 0 self) = Ret tt s2).
    { destruct (next_item_ends 0 (previous_item 0 self))
        as [[H | H] | H]; [exact H | |];
        exfalso; revert Hret; unfold FuzzyFinderUI.handle_key, bind;
        rewrite !count_single by (vm_compute; lia); rewrite H1;
        now rewrite H. }
    rewrite (Hrun _ H1 H2 eq_refl) in Hret.
    destruct (search_bar_ends s3) as [E | (s' & _ & E)];
      [| rewrite E in Hret; discriminate].
    rewrite E, Hold in Hret.
    destruct (results query (objects self)) as [l | e] eqn:Er;
      [| discriminate].
    injection Hret as <-. exists l, b.
    split; [reflexivity | split; [reflexivity | split; [reflexivity |]]].
    split.
    + unfold cursor_at_end in *. unfold b, query. simpl.
      rewrite len_app. change (len [c]) with 1.
      unfold LineBuffer.line in Hsync. rewrite <- Hsync. lia.
    + intros obj Hin.
      apply (proj1 (results_In casefold_char query (objects self) l Hq0 Er
                      obj)) in Hin.
      apply Hin.
  - intros Hren Hfc Hfo.
    destruct (previous_item_returns 0 self Hren) as [H1 Hren1].
    destruct (next_item_returns 0 (previous_item 0 self) Hren1
                (Z.le_refl 0)) as [H2 _].
    fold s2 in H2.
    destruct Hren as (_ & _ & Hfq & Hfd & _).
    assert (Hfquery : folds_simply query)
      by (apply Forall_app; split; assumption).
    destruct (proj2 (matching_Ok casefold_char query (objects self)))
      as [l0 Hl0].
    { intros obj Hin. apply matches_query_simple; [exact Hfquery |].
      exact (proj1 (List.Forall_forall _ _) Hfo obj Hin). }
    assert (Er : results query (objects self)
                 = Ok (map snd (sorted_desc l0))).
    { rewrite results_nonempty by exact Hq0. now rewrite Hl0. }
    rewrite Er in Hold.
    eexists. apply (Hrun _ H1 H2).
    apply (search_bar_returns _ _ Hold).
    split; [exact Hfquery | split; [exact Hfd |]]. simpl.
    apply List.Forall_forall. intros obj Hin.
    apply (proj1 (results_In casefold_char query (objects self) _ Hq0 Er
                    obj)) in Hin.
    exact (proj1 (List.Forall_forall _ _) Hfo obj (proj1 Hin)).
Qed.

End FinderHook.

(** What is rendered can raise where the search has not.  The item is
    four sharp s, 67 ['a'], an ['x'] and ten ['b'], on a terminal of 80
    columns, and ['x'] is typed.  The search finds the ['x'] at 75 in the
    folded item, where the item has a ['b'], and keeps the item; the line
    that [writelines] formats is the item trimmed to 75 characters, in
    which nothing is at 75. *)
Lemma rendering_raises_on_trimmed_item :
  let item := repeat 223%N 4 ++ repeat 97%N 67 ++ [120%N] ++ repeat 98%N 10 in
  let self := FuzzyFinder.mk [item] (SequencePointer.__init__ [item] false)
                0 10 [] (LineBuffer.__init__ false true false 4) None true in
  (exists score,
      FuzzyFinder._matches_query sharp_s_casefold [120%N] item
      = Ok (Some ([75], score)))
  /\ FuzzyFinder._matches_query sharp_s_casefold [120%N] (trim item 75 0)
     = Err IndexError
  /\ exists s,
      FuzzyFinderUI.handle_key sharp_s_casefold (fun _ => None)
        (fun _ => None) 80 [120%N] self
      = Raise IndexError s
      /\ FuzzyFinder._current_query s = [120%N]
      /\ SequencePointer.seq (FuzzyFinder._sublist s) = [item].
Proof.
  cbv zeta. split; [| split].
  - eexists. vm_compute. reflexivity.
  - vm_compute. reflexivity.
  - eexists. split; [vm_compute; reflexivity | split; reflexivity].
Qed.

Lemma wheel_burst_moves_pointer_witness :
  let objects := [lit "a"; lit "b"; lit "c"] in
  let self := FuzzyFinder.mk objects (SequencePointer.__init__ objects false)
                0 10 [] (LineBuffer.__init__ false true false 4) None true in
  (count (Ctrl.esc "[Ma") (Ctrl.esc "[M`") <> 0
   \/ count (Ctrl.esc "[Ma") (Ctrl.esc "[Ma") <> 0)
  /\ renders ascii_casefold self
  /\ exists self',
      FuzzyFinderUI.handle_key ascii_casefold (fun _ => None) (fun _ => None)
        80 (Ctrl.esc "[Ma") self
      = Ret tt self'
      /\ SequencePointer.pointer (FuzzyFinder._sublist self') = 1.
Proof.
  cbv zeta.
  assert (H1 : count (Ctrl.esc "[Ma") (Ctrl.esc "[M`") <> 0
               \/ count (Ctrl.esc "[Ma") (Ctrl.esc "[Ma") <> 0)
    by (right; vm_compute; discriminate).
  assert (H3 : renders ascii_casefold
                 (FuzzyFinder.mk [lit "a"; lit "b"; lit "c"]
                    (SequencePointer.__init__ [lit "a"; lit "b"; lit "c"]
                       false)
                    0 10 [] (LineBuffer.__init__ false true false 4) None
                    true)).
  { split; [reflexivity | split; [simpl; lia |]].
    split; [constructor |].
    split; repeat constructor; eexists; reflexivity. }
  split; [exact H1 | split; [exact H3 |]].
  pose proof (proj1 (proj2 (wheel_burst_moves_pointer ascii_casefold
                              (fun _ => None) (fun _ => None) 80
                              (Ctrl.esc "[Ma")
                              (FuzzyFinder.mk [lit "a"; lit "b"; lit "c"]
                                 (SequencePointer.__init__
                                    [lit "a"; lit "b"; lit "c"] false)
                                 0 10 [] (LineBuffer.__init__ false true
                                            false 4) None true)
                              H1 eq_refl)) H3) as H.
  eexists. split; [exact H | vm_compute; reflexivity].
Defined.

Lemma typed_character_searches_witness :
  let objects := [lit "apple"; lit "kiwi"] in
  let self := FuzzyFinder.mk objects (SequencePointer.__init__ objects false)
                0 10 [] (LineBuffer.__init__ false true false 4) None true in
  printable 97
  /\ renders ascii_casefold self
  /\ exists self',
      FuzzyFinderUI.handle_key ascii_casefold (fun _ => None) (fun _ => None)
        80 [97%N] self
      = Ret tt self'
      /\ SequencePointer.seq (FuzzyFinder._sublist self') = [lit "apple"].
Proof.
  cbv zeta.
  assert (H1 : printable 97)
    by (split; [vm_compute; discriminate | split; discriminate]).
  assert (H3 : renders ascii_casefold
                 (FuzzyFinder.mk [lit "apple"; lit "kiwi"]
                    (SequencePointer.__init__ [lit "apple"; lit "kiwi"]
                       false)
                    0 10 [] (LineBuffer.__init__ false true false 4) None
                    true)).
  { split; [reflexivity | split; [simpl; lia |]].
    split; [constructor |].
    split; repeat constructor; eexists; reflexivity. }
  assert (H4 : folds_simply ascii_casefold [97%N])
    by (repeat constructor; eexists; reflexivity).
  assert (H5 : Forall (folds_simply ascii_casefold)
                 [lit "apple"; lit "kiwi"])
    by (repeat constructor; eexists; reflexivity).
  split; [exact H1 | split; [exact H3 |]].
  pose proof (typed_character_searches ascii_casefold
                (fun _ => None) (fun _ => None) 80 97%N
                (FuzzyFinder.mk [lit "apple"; lit "kiwi"]
                   (SequencePointer.__init__ [lit "apple"; lit "kiwi"] false)
                   0 10 [] (LineBuffer.__init__ false true false 4) None
                   true)
                H1 eq_refl eq_refl eq_refl) as [Hstate Hret].
  destruct (Hret H3 H4 H5) as [self' Hself'].
  destruct (Hstate self' Hself') as (l & b & Er & Hs & _).
  exists self'. split; [exact Hself' |].
  rewrite Hs. simpl.
  assert (E : FuzzyFinder.results ascii_casefold [97%N]
                [lit "apple"; lit "kiwi"] = Ok [lit "apple"])
    by (vm_compute; reflexivity).
  change (FuzzyFinder.results ascii_casefold [97%N]
            [lit "apple"; lit "kiwi"] = Ok l) in Er.
  rewrite E in Er. now injection Er as <-.
Defined.

(* ===================================================================== *)
(** * utils.py: [trim] with a tail; termutils.py: prompt and placeholder  *)
(* ===================================================================== *)

(** X23.  [trim(s, precision, rstart)] on a string of at least [precision]
    characters, [precision >= 3]: for [0 <= rstart <= precision - 3] the
    result is the first [precision - rstart - 3] characters of [s], the
    ellipsis and the last [rstart] characters of [s], [precision]
    characters in all; for [precision - 3 < rstart <= len(s)] the first
    slice counts from the end, and the result has [len(s) + precision]
    characters: more than [s] itself. *)
Theorem trim_keeps_both_ends (s : str) (precision rstart : Z) :
  3 <= precision <= len s ->
  (0 <= rstart <= precision - 3 ->
   trim s precision rstart
   = firstn (Z.to_nat (precision - rstart - 3)) s ++ lit "..."
       ++ skipn (Z.to_nat (len s - rstart)) s
   /\ len (trim s precision rstart) = precision)
  /\ (precision - 3 < rstart <= len s ->
      len (trim s precision rstart) = len s + precision).
Proof.
  intros Hp. unfold trim.
  destruct (Z.leb_spec 3 precision); [| lia].
  destruct (Z.leb_spec precision (len s)); [| lia]. simpl andb. cbv iota.
  split; intros Hr.
  - rewrite slice_to_in_range, slice_from_in_range by lia.
    split; [reflexivity |].
    rewrite !len_app. unfold len in *.
    rewrite length_firstn, length_skipn. simpl. lia.
  - rewrite slice_from_in_range by lia.
    rewrite !len_app. unfold slice_to, slice_bound.
    destruct (Z.ltb_spec (precision - rstart - 3) 0); [| lia].
    unfold len in *. rewrite length_firstn, length_skipn. simpl. lia.
Qed.

Lemma trim_keeps_both_ends_witness :
  trim (lit "abcdefghij") 8 2 = lit "abc...ij"
  /\ len (trim (lit "abcdefgh") 5 4) = 13.
Proof.
  split.
  - exact (proj1 (proj1 (trim_keeps_both_ends (lit "abcdefghij") 8 2
                           ltac:(vm_compute; split; congruence))
                    ltac:(vm_compute; split; congruence))).
  - exact (proj2 (trim_keeps_both_ends (lit "abcdefgh") 5 4
                    ltac:(vm_compute; split; congruence))
             ltac:(vm_compute; split; congruence)).
Defined.

Section LineBufferPrompt.

Import LineBuffer.
Implicit Types (self : LineBuffer.t) (p : str).

(** X24.  Assigning a prompt keeps the cursor on its character: the
    distance of the cursor from the end of the prompt and the text are as
    before, so that a cursor within the text stays within it, and
    assigning the old prompt again gives the line buffer back.  A
    placeholder is taken by an empty line only, and puts the cursor at
    the end of the text. *)
Theorem prompt_keeps_cursor_on_character self p :
  cursor_ok self ->
  let self' := set_prompt p self in
  _pos self' - len (prompt self') = _pos self - len (prompt self)
  /\ prompt self' = p
  /\ line self' = line self
  /\ cursor_ok self'
  /\ set_prompt (prompt self) self' = self
  /\ (line self = [] ->
      line (set_placeholder p self) = p
      /\ cursor_at_end (set_placeholder p self))
  /\ (line self <> [] -> set_placeholder p self = self).
Proof.
  intros [H1 H2]. cbv zeta. unfold set_prompt, prompt, line. simpl.
  split; [lia |]. split; [reflexivity |]. split; [reflexivity |].
  split; [unfold cursor_ok; simpl; lia |].
  split.
  - clear H1 H2. destruct self. unfold set_prompt_field, set_pos.
    simpl. f_equal. lia.
  - unfold set_placeholder, cursor_at_end.
    destruct (_line self); split; try congruence; intros _; simpl.
    split; [reflexivity | apply len_app].
Qed.

End LineBufferPrompt.

Lemma prompt_keeps_cursor_on_character_witness :
  let self := LineBuffer.mk [] (lit "abc") 3 0 (lit "> ") true true true 4 in
  cursor_ok self
  /\ LineBuffer._pos (LineBuffer.set_prompt (lit "name: ") self) = 7
  /\ LineBuffer.set_prompt (lit "> ")
       (LineBuffer.set_prompt (lit "name: ") self) = self.
Proof.
  cbv zeta.
  assert (H1 : cursor_ok
                 (LineBuffer.mk [] (lit "abc") 3 0 (lit "> ")
                    true true true 4))
    by (split; vm_compute; discriminate).
  split; [exact H1 |].
  destruct (prompt_keeps_cursor_on_character _ (lit "name: ") H1)
    as (_ & _ & _ & _ & Hback & _).
  split; [reflexivity | exact Hback].
Defined.

(* ===================================================================== *)
(** * apps.py: what the menu shows, and its keys                          *)
(* ===================================================================== *)

Section MenuFacts.

Import BaseMenu.

Variable T : Type.
Variable callable : T -> bool.
Variable columns : Z.
Variable call_selector : nat -> T -> method T unit.
Variable call_item : T -> method T unit.

Local Abbreviation display := (display columns).
Local Abbreviation simple_nav :=
  (simple_nav callable columns call_selector call_item).

Implicit Types (self : BaseMenu.t T) (menu : nat) (key : str).

(** One cell of a row: the label, cut to the width and filled up to
    it. *)
Lemma cells_are (width : Z) (entries : list (str * T)) :
  0 <= width ->
  cells width entries
  = Some (map (fun item =>
                 trim (fst item) width 0
                   ++ repeat 32%N
                        (Z.to_nat (width - len (trim (fst item) width 0))))
              entries).
Proof.
  intros Hw. induction entries as [| item entries IH]; [reflexivity |].
  cbn [cells map]. unfold format_left.
  destruct (Z.ltb_spec width 0); [lia |]. now rewrite IH.
Qed.

Lemma cell_of_width (width : Z) (label : str) :
  3 <= width ->
  let cell := trim label width 0
                ++ repeat 32%N
                     (Z.to_nat (width - len (trim label width 0))) in
  len cell = width
  /\ (len label < width ->
      cell = label ++ repeat 32%N (Z.to_nat (width - len label)))
  /\ (width <= len label ->
      cell = firstn (Z.to_nat (width - 3)) label ++ lit "...").
Proof.
  intros Hw. cbv zeta.
  destruct (Z.lt_ge_cases (len label) width) as [Hlt | Hge].
  - rewrite trim_short by exact Hlt.
    split; [| split; [reflexivity | lia]].
    rewrite len_app. unfold len in *. rewrite repeat_length. lia.
  - rewrite trim_long by lia.
    assert (Hl : len (firstn (Z.to_nat (width - 3)) label ++ lit "...")
                 = width).
    { rewrite len_app. unfold len in *. rewrite length_firstn. simpl.
      lia. }
    rewrite Hl, Z.sub_diag. simpl repeat. rewrite app_nil_r.
    split; [exact Hl | split; [lia | reflexivity]].
Qed.

(** [display(cleanup=False)] in the context, step by step. *)
Lemma display_shows self menu :
  XTermApplication.in_application_context (app self) = true ->
  last (menus self) = Some menu ->
  display false false self
  = (let entries := SequencePointer.seq (items (obj self menu)) in
     let pointer := SequencePointer.pointer (items (obj self menu)) in
     let shown (text : str) :=
       Done tt (set_app (XTermApplication.target_write [13; 10]%N
                           (XTermApplication.target_write text (app self)))
                        self) in
     if str_eqb (mode (obj self menu)) (lit "horizontal")
     then
       if len entries =? 0 then Failed (Builtin ZeroDivisionError) self
       else match cells (columns / len entries) entries with
            | Some row => shown (concat (reverse_video 0 pointer row))
            | None => Failed ValueError self
            end
     else if str_eqb (mode (obj self menu)) (lit "vertical")
     then
       match entries with
       | [] => Failed ValueError self
       | _ => match cells (Z.min 2 columns) entries with
              | Some rows =>
                  shown (join (Ctrl.esc "[E") (reverse_video 0 pointer rows))
              | None => Failed ValueError self
              end
       end
     else Done tt (set_app (XTermApplication.target_write [13; 10]%N
                              (app self)) self)).
Proof.
  intros Hctx Hlast. cbv zeta.
  unfold BaseMenu.display, contextprotected. rewrite Hctx.
  unfold bind, ret, get, menus_last, fail, write, modify. rewrite Hlast.
  unfold XTermApplication.write, XTermApplication.in_application_context
    in *.
  destruct (str_eqb (mode (obj self menu)) (lit "horizontal")).
  - destruct (len _ =? 0); [reflexivity |].
    destruct (cells _ _); [| reflexivity].
    unfold XTermApplication.target_write. simpl. rewrite !Hctx.
    reflexivity.
  - destruct (str_eqb (mode (obj self menu)) (lit "vertical")).
    + destruct (SequencePointer.seq (items (obj self menu)));
        [reflexivity |].
      destruct (cells _ _); [| reflexivity].
      unfold XTermApplication.target_write. simpl. rewrite !Hctx.
      reflexivity.
    + simpl. rewrite Hctx. reflexivity.
Qed.

(** X25.  A horizontal menu shown in the context, with [n >= 1] items on
    a terminal whose width gives each a cell of [columns // n >= 3]
    characters: [display] writes the cells one after the other, the one
    under the pointer in reverse video, and then a line break.  Each cell
    has exactly the width of a cell; it is the label followed by spaces
    when the label is shorter than the cell, and otherwise the first
    [width - 3] characters of the label and ['...'].  The cells together
    are not wider than the terminal. *)
Theorem horizontal_row_fits self menu :
  XTermApplication.in_application_context (app self) = true ->
  last (menus self) = Some menu ->
  mode (obj self menu) = lit "horizontal" ->
  let entries := SequencePointer.seq (items (obj self menu)) in
  let pointer := SequencePointer.pointer (items (obj self menu)) in
  let width := columns / len entries in
  entries <> [] ->
  3 <= width ->
  exists row,
    display false false self
    = Done tt (set_app (XTermApplication.target_write [13; 10]%N
                          (XTermApplication.target_write
                             (concat (reverse_video 0 pointer row))
                             (app self)))
                       self)
    /\ Forall2 (fun item cell =>
                  len cell = width
                  /\ (len (fst item) < width ->
                      cell = fst item
                               ++ repeat 32%N
                                    (Z.to_nat (width - len (fst item))))
                  /\ (width <= len (fst item) ->
                      cell = firstn (Z.to_nat (width - 3)) (fst item)
                               ++ lit "..."))
               entries row
    /\ len entries * width <= columns.
Proof.
  intros Hctx Hlast Hmode entries pointer width Hne Hw.
  assert (Hn : 0 < len entries).
  { unfold len. destruct entries; [congruence | simpl; lia]. }
  exists (map (fun item =>
                 trim (fst item) width 0
                   ++ repeat 32%N
                        (Z.to_nat (width - len (trim (fst item) width 0))))
              entries).
  split; [| split].
  - rewrite (display_shows self menu Hctx Hlast). cbv zeta.
    rewrite Hmode, str_eqb_refl. fold entries pointer.
    destruct (Z.eqb_spec (len entries) 0); [lia |].
    fold width. rewrite cells_are by lia. reflexivity.
  - clear Hne Hn. clearbody width. clearbody entries.
    induction entries as [| item l IH]; constructor.
    + apply (cell_of_width width (fst item) Hw).
    + exact IH.
  - unfold width. apply Z.mul_div_le. exact Hn.
Qed.

(** X26.  A vertical menu with at least one item, shown in the context
    on a terminal of [columns >= 0]: [display] writes one line for each
    item, the one under the pointer in reverse video, with [ESC[E]
    between the lines and a line break after them.  The width that the
    labels are cut and filled up to is the shorter of the terminal width
    and the length of an item, which is a pair: so every label is written
    in full, however long, and filled up to two characters at most. *)
Theorem vertical_labels_in_full self menu :
  XTermApplication.in_application_context (app self) = true ->
  last (menus self) = Some menu ->
  mode (obj self menu) = lit "vertical" ->
  let entries := SequencePointer.seq (items (obj self menu)) in
  let pointer := SequencePointer.pointer (items (obj self menu)) in
  entries <> [] ->
  0 <= columns ->
  display false false self
  = Done tt
      (set_app
         (XTermApplication.target_write [13; 10]%N
            (XTermApplication.target_write
               (join (Ctrl.esc "[E")
                  (reverse_video 0 pointer
                     (map (fun item =>
                             fst item
                               ++ repeat 32%N
                                    (Z.to_nat (Z.min 2 columns
                                               - len (fst item))))
                          entries)))
               (app self)))
         self).
Proof.
  intros Hctx Hlast Hmode entries pointer Hne Hc.
  rewrite (display_shows self menu Hctx Hlast). cbv zeta.
  rewrite Hmode. change (str_eqb (lit "vertical") (lit "horizontal"))
    with false. rewrite str_eqb_refl. fold entries pointer. cbv iota.
  destruct entries as [| item l] eqn:E; [congruence |]. rewrite <- E.
  rewrite cells_are by lia.
  do 6 f_equal. apply map_ext. intros entry.
  unfold trim.
  destruct (Z.leb_spec 3 (Z.min 2 columns)); [lia | reflexivity].
Qed.

(** ** What the keys leave of the stack and of the menus *)

Lemma keeps_ret {A} (v : A) : keeps_menus (BaseMenu.ret T v).
Proof. intros self. now split. Qed.

Lemma keeps_fail {A} (e : error) : keeps_menus (@BaseMenu.fail T A e).
Proof. intros self. now split. Qed.

Lemma keeps_get : keeps_menus (BaseMenu.get T).
Proof. intros self. now split. Qed.

Lemma keeps_write (s : str) : keeps_menus (@write T s).
Proof. intros self. now split. Qed.

Lemma keeps_menus_last : keeps_menus (menus_last T).
Proof. intros self. unfold menus_last. now destruct (last (menus self)). Qed.

Lemma keeps_bind {A B} (m : method T A) (k : A -> method T B) :
  keeps_menus m -> (forall v, keeps_menus (k v)) ->
  keeps_menus (BaseMenu.bind T m k).
Proof.
  intros Hm Hk self. unfold BaseMenu.bind.
  destruct (Hm self) as [H1 H2].
  destruct (m self) as [v s1 | e s1]; simpl in *.
  - destruct (Hk v s1) as [H3 H4]. split; congruence.
  - now split.
Qed.

Lemma keeps_contextprotected (body : method T unit) :
  keeps_menus body -> keeps_menus (contextprotected T body).
Proof.
  intros H self. unfold contextprotected.
  destruct (XTermApplication.in_application_context (app self));
    [apply H | now split].
Qed.

Ltac keeps :=
  repeat first
    [ apply keeps_contextprotected
    | apply keeps_bind; [| intros ?]
    | apply keeps_ret | apply keeps_fail | apply keeps_get
    | apply keeps_write | apply keeps_menus_last
    | match goal with
      | |- keeps_menus (if ?b then _ else _) => destruct b
      | |- keeps_menus (match ?x with _ => _ end) => destruct x
      end ].

Lemma keeps_cleanup : keeps_menus (@cleanup T).
Proof. unfold cleanup. keeps. Qed.

Lemma keeps_display (cleanup_first : bool) :
  keeps_menus (@BaseMenu.display T columns false cleanup_first).
Proof.
  unfold BaseMenu.display. keeps; apply keeps_cleanup.
Qed.

(** [cleanup] succeeds on a stack that is not empty, and writes only. *)
Lemma cleanup_done self menu :
  last (menus self) = Some menu ->
  exists a, cleanup self = Done tt (set_app a self).
Proof.
  intros Hlast. unfold cleanup, contextprotected.
  destruct (XTermApplication.in_application_context (app self)).
  - unfold BaseMenu.bind, write, BaseMenu.modify, menus_last, BaseMenu.get.
    simpl. rewrite Hlast.
    destruct (str_eqb _ _); eexists; reflexivity.
  - exists (app self). now destruct self.
Qed.

Lemma removelast_keeps_one {A : Type} (l : list A) :
  1 < len l -> removelast l <> [].
Proof.
  destruct l as [| a [| b l]]; unfold len; simpl; try lia. discriminate.
Qed.

(** [display(use_previous=True)]: the active menu goes, in the context. *)
Lemma display_previous self menu :
  last (menus self) = Some menu ->
  menus (state_after (display true true self))
  = (if XTermApplication.in_application_context (app self)
     then removelast (menus self) else menus self)
  /\ heap (state_after (display true true self)) = heap self.
Proof.
  intros Hlast.
  remember (state_after (display true true self)) as s' eqn:Es.
  unfold BaseMenu.display, contextprotected in Es.
  destruct (XTermApplication.in_application_context (app self)) eqn:Hctx;
    [| subst s'; now split].
  unfold BaseMenu.bind at 1 in Es.
  destruct (cleanup_done self menu Hlast) as [a Ha]. rewrite Ha in Es.
  unfold BaseMenu.bind at 1 in Es. unfold menus_pop in Es.
  cbn [menus set_app] in Es.
  destruct (menus self) as [| x l] eqn:El; [discriminate |].
  match type of Es with
  | _ = state_after (?tail ?s) =>
      assert (Hk : keeps_menus tail) by keeps;
      destruct (Hk s) as [H1 H2]
  end.
  rewrite <- Es in H1, H2. rewrite H1, H2. now split.
Qed.

(** X27.  A key that is no alias of ENTER leaves a menu on the stack:
    [simple_nav] on a stack that is not empty takes the active menu off
    when the key is ESC, the stack holds more than one menu and the
    application is in its context, and leaves the stack as it is in
    every other case, however the call ends; ESC changes no menu. *)
Theorem simple_nav_keeps_a_menu key self :
  Ctrl.eq key Ctrl.ENTER = false ->
  menus self <> [] ->
  let self' := state_after (simple_nav key self) in
  menus self'
  = (if Ctrl.eq key Ctrl.ESC && (len (menus self) >? 1)
        && XTermApplication.in_application_context (app self)
     then removelast (menus self) else menus self)
  /\ menus self' <> []
  /\ (Ctrl.eq key Ctrl.ESC && (len (menus self) >? 1) = true ->
      heap self' = heap self).
Proof.
  intros Henter Hne. cbv zeta.
  destruct (last (menus self)) as [menu |] eqn:Hlast.
  2: { destruct (menus self) as [| x l] eqn:El; [congruence |].
       rewrite last_nth_error in Hlast.
       apply nth_error_None in Hlast. simpl in Hlast. lia. }
  remember (state_after (simple_nav key self)) as s' eqn:Es.
  unfold BaseMenu.simple_nav, BaseMenu.bind at 1, menus_last in Es.
  rewrite Hlast in Es. unfold BaseMenu.bind at 1, BaseMenu.get in Es.
  destruct (Ctrl.eq key Ctrl.ESC && (len (menus self) >? 1)) eqn:Hesc.
  - destruct (display_previous self menu Hlast) as [H1 H2].
    rewrite <- Es in H1, H2. rewrite H1, H2. simpl andb.
    split; [reflexivity | split; [| reflexivity]].
    apply andb_prop in Hesc as [_ Hlen]. apply Z.gtb_lt in Hlen.
    destruct (XTermApplication.in_application_context (app self));
      [apply removelast_keeps_one; lia | exact Hne].
  - rewrite Henter in Es. simpl andb.
    assert (Hm : menus s' = menus self).
    { rewrite Es. unfold BaseMenu.bind.
      destruct (_ || _);
        [| destruct (_ || _)];
        unfold BaseMenu.modify, BaseMenu.ret;
        match goal with
        | |- context [display false true ?s] =>
            destruct (keeps_display true s) as [H1 _];
            rewrite H1; reflexivity
        end. }
    rewrite Hm. split; [reflexivity | split; [exact Hne | discriminate]].
Qed.


Lemma obj_heap_same self self' menu :
  heap self' = heap self -> obj self' menu = obj self menu.
Proof. intros H. unfold obj. now rewrite H. Qed.


End MenuFacts.

(** ** The properties above on a menu of three items *)

Lemma horizontal_row_fits_witness :
  let self := menu_of_three (lit "horizontal") in
  exists row,
    BaseMenu.display 20 false false self
    = BaseMenu.Done tt
        (BaseMenu.set_app
           (XTermApplication.target_write [13; 10]%N
              (XTermApplication.target_write
                 (concat (BaseMenu.reverse_video 0 1 row))
                 (BaseMenu.app self)))
           self)
    /\ 3 * (20 / 3) <= 20.
Proof.
  cbv zeta.
  assert (H1 : XTermApplication.in_application_context
                 (BaseMenu.app (menu_of_three (lit "horizontal"))) = true)
    by reflexivity.
  assert (H2 : last (BaseMenu.menus (menu_of_three (lit "horizontal")))
               = Some 7%nat) by reflexivity.
  assert (H3 : BaseMenu.mode
                 (BaseMenu.obj (menu_of_three (lit "horizontal")) 7)
               = lit "horizontal") by reflexivity.
  assert (H4 : SequencePointer.seq
                 (BaseMenu.items
                    (BaseMenu.obj (menu_of_three (lit "horizontal")) 7))
               <> []) by (vm_compute; discriminate).
  assert (H5 : 3 <= 20 / len (SequencePointer.seq
                                (BaseMenu.items
                                   (BaseMenu.obj
                                      (menu_of_three (lit "horizontal"))
                                      7))))
    by (vm_compute; discriminate).
  destruct (horizontal_row_fits nat 20 _ 7%nat H1 H2 H3 H4 H5)
    as (row & Hd & _ & Hfit).
  exists row. split; [exact Hd | exact Hfit].
Defined.

Lemma vertical_labels_in_full_witness :
  let self := menu_of_three (lit "vertical") in
  BaseMenu.display 20 false false self
  = BaseMenu.Done tt
      (BaseMenu.set_app
         (XTermApplication.target_write [13; 10]%N
            (XTermApplication.target_write
               (lit "File" ++ Ctrl.esc "[E" ++ Ctrl.esc "[7mPreferences"
                  ++ Ctrl.esc "[0m" ++ Ctrl.esc "[EQuit")
               (BaseMenu.app self)))
         self).
Proof.
  cbv zeta.
  assert (H1 : XTermApplication.in_application_context
                 (BaseMenu.app (menu_of_three (lit "vertical"))) = true)
    by reflexivity.
  assert (H2 : last (BaseMenu.menus (menu_of_three (lit "vertical")))
               = Some 7%nat) by reflexivity.
  assert (H3 : BaseMenu.mode
                 (BaseMenu.obj (menu_of_three (lit "vertical")) 7)
               = lit "vertical") by reflexivity.
  assert (H4 : SequencePointer.seq
                 (BaseMenu.items
                    (BaseMenu.obj (menu_of_three (lit "vertical")) 7))
               <> []) by (vm_compute; discriminate).
  assert (H5 : 0 <= 20) by lia.
  exact (vertical_labels_in_full nat 20 _ 7%nat H1 H2 H3 H4 H5).
Defined.

Lemma simple_nav_keeps_a_menu_witness :
  let self := BaseMenu.set_menus [7; 7]%nat
                (menu_of_three (lit "horizontal")) in
  BaseMenu.menus
    (BaseMenu.state_after
       (BaseMenu.simple_nav (fun _ => false) 20 (fun _ => no_call) no_call
          [27%N] self))
  = [7%nat].
Proof.
  cbv zeta.
  assert (H1 : Ctrl.eq [27%N] Ctrl.ENTER = false) by reflexivity.
  assert (H2 : BaseMenu.menus
                 (BaseMenu.set_menus [7; 7]%nat
                    (menu_of_three (lit "horizontal"))) <> [])
    by discriminate.
  exact (proj1 (simple_nav_keeps_a_menu nat (fun _ => false) 20
                  (fun _ => no_call) no_call [27%N] _ H1 H2)).
Defined.

